(** * eval_poisons_scratch: a shallow embedding and its verified properties

    The development follows [src/eval_poisons_scratch.py] top to bottom:
    the metric accumulator [AverageMeter], the top-k [accuracy] evaluator,
    the retraining loop [train_network_with_poison], the log extractor
    [get_stats] and the sweep of the [__main__] block.

    Conventions of the embedding.
    - Python [int] is [Z]; Python [float] is an exact rational [Q]
      (rounding is outside the model); [str] is [string].
    - An uncaught Python exception is the [Raise] case of [result].
    - A Python [dict] is an association list in insertion order; its keys
      are tagged ([KInt]/[KStr]) because [0] and ["0"] are different keys. *)

From Stdlib Require Import String Ascii DecimalString.
From Stdlib Require Import List ZArith QArith Qpower Bool Lia Sorted Permutation.
Import ListNotations.

Local Open Scope Z_scope.
Set Warnings "-register-all".

(** ** Exceptions and the error monad *)

Inductive exn : Type :=
| ZeroDivisionError
| KeyError
| IndexError
| TypeError
| NameError
| ValueError
| AssertionError
| RuntimeError
| FileNotFoundError
| AttributeError.

Inductive result (A : Type) : Type :=
| Ok (a : A)
| Raise (e : exn).

Arguments Ok {A} a.
Arguments Raise {A} e.

Definition bind {A B : Type} (r : result A) (k : A -> result B) : result B :=
  match r with
  | Ok a => k a
  | Raise e => Raise e
  end.

Notation "x <- r ;; k" := (bind r (fun x => k))
  (at level 61, r at next level, right associativity).
Notation "' p <- r ;; k" := (bind r (fun p => k))
  (at level 61, p pattern, r at next level, right associativity).

(** ** The metric accumulator (class [AverageMeter]) *)

Module AverageMeter.

Record t : Type := mk { val : Q; avg : Q; sum : Q; count : Z }.

(** [reset]: all four attributes are assigned the integer 0. *)
Definition reset : t := {| val := 0; avg := 0; sum := 0; count := 0 |}.

(** [__init__] only calls [reset]. *)
Definition init : t := reset.

(** [update(val, n)]: the three assignments, then the division
    [self.sum / self.count], which raises when the count is zero. *)
Definition update (m : t) (v : Q) (n : Z) : result t :=
  let s := (sum m + v * inject_Z n)%Q in
  let c := count m + n in
  if c =? 0 then Raise ZeroDivisionError
  else Ok {| val := v; avg := (s / inject_Z c)%Q; sum := s; count := c |}.

(** Reading the attribute [avg] is a plain attribute read. *)
Definition read_avg (m : t) : result Q := Ok (avg m).

(** A sequence of [update] calls, stopping at the first exception. *)
Fixpoint updates (m : t) (ups : list (Q * Z)) : result t :=
  match ups with
  | [] => Ok m
  | (v, n) :: rest => m' <- update m v n ;; updates m' rest
  end.

(** The sums the accumulator is meant to track. *)
Fixpoint weighted_sum (ups : list (Q * Z)) : Q :=
  match ups with
  | [] => 0
  | (v, n) :: rest => (v * inject_Z n + weighted_sum rest)%Q
  end.

Fixpoint total_weight (ups : list (Q * Z)) : Z :=
  match ups with
  | [] => 0
  | (_, n) :: rest => n + total_weight rest
  end.

(** Starting from count [c0], the count is non-zero after each call, so
    no division fails. *)
Fixpoint counts_nonzero (c0 : Z) (ups : list (Q * Z)) : Prop :=
  match ups with
  | [] => True
  | (_, n) :: rest => c0 + n <> 0 /\ counts_nonzero (c0 + n) rest
  end.

End AverageMeter.

(** ** The top-k accuracy evaluator (function [accuracy]) *)

(** Insertion of an (index, score) pair into a list kept in descending
    score order; on equal scores the pair inserted goes first. *)
Fixpoint insert_desc (x : nat * Q) (l : list (nat * Q)) : list (nat * Q) :=
  match l with
  | [] => [x]
  | y :: r =>
      if Qle_bool (snd y) (snd x) then x :: y :: r else y :: insert_desc x r
  end.

(** Indices of a row by descending score (lowest index first on ties). *)
Definition argsort_desc (row : list Q) : list nat :=
  map fst (fold_right insert_desc [] (combine (seq 0 (List.length row)) row)).

(** [row.topk(k, largest=True, sorted=True)], indices only: torch raises
    when [k] exceeds the number of classes. *)
Definition topk_row (k : nat) (row : list Q) : result (list nat) :=
  if (k <=? List.length row)%nat then Ok (firstn k (argsort_desc row))
  else Raise RuntimeError.

Fixpoint mapM {A B : Type} (f : A -> result B) (l : list A) : result (list B) :=
  match l with
  | [] => Ok []
  | a :: r => b <- f a ;; bs <- mapM f r ;; Ok (b :: bs)
  end.

(** [pred.t()]: from batch x maxk to maxk x batch. *)
Definition transpose (maxk : nat) (pred : list (list nat)) : list (list nat) :=
  map (fun j => map (fun row => nth j row 0%nat) pred) (seq 0 maxk).

(** [pred.eq(target.view(1, -1).expand_as(pred))]: one row of booleans per
    rank. *)
Definition eq_rows (pred_t : list (list nat)) (target : list Z)
  : list (list bool) :=
  map (fun row => map (fun '(p, y) => Z.of_nat p =? y) (combine row target))
      pred_t.

(** [correct[:k].view(-1).float().sum(0)]: the number of hits among the
    first [k] ranks. *)
Definition correct_k (correct : list (list bool)) (k : nat) : Z :=
  Z.of_nat (count_occ bool_dec (concat (firstn k correct)) true).

(** [max(topk)]: raises on an empty tuple. *)
Definition max_of (topk : list nat) : result nat :=
  match topk with
  | [] => Raise ValueError
  | k :: r => Ok (fold_left Nat.max r k)
  end.

(** [target.view(1, -1).expand_as(pred)]: the row of labels is repeated
    for each of the [maxk] rows of [pred]; along the batch axis the labels
    must be as many as the [n] columns of [pred], except that a single
    label is broadcast to every column. *)
Definition expand_as (target : list Z) (n : nat) : result (list Z) :=
  if (List.length target =? n)%nat then Ok target
  else match target with
       | [l] => Ok (repeat l n)
       | _ => Raise RuntimeError
       end.

(** [accuracy(output, target, topk)].  [output] is the batch of score
    rows, [target] the labels.  A batch of zero rows is the empty list
    (its class count is not represented).  [batch_size] is the number of
    labels, also when a single label is broadcast over a larger batch. *)
Definition accuracy (output : list (list Q)) (target : list Z)
    (topk : list nat) : result (list Q) :=
  maxk <- max_of topk ;;
  let batch_size := Z.of_nat (List.length target) in
  pred <- mapM (topk_row maxk) output ;;
  labels <- expand_as target (List.length output) ;;
  let correct := eq_rows (transpose maxk pred) labels in
  mapM (fun k =>
          if batch_size =? 0 then Raise ZeroDivisionError
          else Ok (inject_Z (correct_k correct k)
                   * (100 / inject_Z batch_size))%Q)
       topk.

(** ** Python values, dictionaries and JSON *)

(** Dictionary keys: the integer [0] and the string ["0"] are different
    keys of a Python [dict]. *)
Inductive key : Type :=
| KInt (z : Z)
| KStr (s : string).

Definition key_eqb (a b : key) : bool :=
  match a, b with
  | KInt x, KInt y => x =? y
  | KStr x, KStr y => String.eqb x y
  | _, _ => false
  end.

(** The Python values the program handles.  [VTensor] is a torch tensor,
    kept as its flattened data (what [.view(-1).tolist()] returns). *)
Inductive value : Type :=
| VNone
| VBool (b : bool)
| VInt (z : Z)
| VFloat (q : Q)
| VStr (s : string)
| VTensor (data : list Q)
| VList (l : list value)
| VDict (d : list (key * value)).

Definition dict : Type := list (key * value).

Fixpoint dict_get (d : dict) (k : key) : option value :=
  match d with
  | [] => None
  | (k', v) :: r => if key_eqb k k' then Some v else dict_get r k
  end.

Definition dict_mem (d : dict) (k : key) : bool :=
  match dict_get d k with Some _ => true | None => false end.

(** [d[k] = v]: an existing key keeps its position, a new key goes last. *)
Fixpoint dict_set (d : dict) (k : key) (v : value) : dict :=
  match d with
  | [] => [(k, v)]
  | (k', v') :: r =>
      if key_eqb k k' then (k, v) :: r else (k', v') :: dict_set r k v
  end.

(** [str(n)] for an integer. *)
Definition str_of_int (z : Z) : string := NilZero.string_of_int (Z.to_int z).

(** The text of a JSON document as a tree.  An object is the sequence of
    its members as written, so a name may occur twice. *)
Inductive json : Type :=
| JNull
| JBool (b : bool)
| JInt (z : Z)
| JFloat (q : Q)
| JStr (s : string)
| JArr (l : list json)
| JObj (members : list (string * json)).

(** The name [json.dump] writes for a dictionary key. *)
Definition json_key (k : key) : string :=
  match k with
  | KInt z => str_of_int z
  | KStr s => s
  end.

(** [json.dumps]: members are written in dictionary order, each key
    turned into a string; a tensor is not serializable. *)
Fixpoint json_dump (v : value) : result json :=
  match v with
  | VNone => Ok JNull
  | VBool b => Ok (JBool b)
  | VInt z => Ok (JInt z)
  | VFloat q => Ok (JFloat q)
  | VStr s => Ok (JStr s)
  | VTensor _ => Raise TypeError
  | VList l =>
      js <- (fix dump_list (l : list value) : result (list json) :=
               match l with
               | [] => Ok []
               | x :: r => j <- json_dump x ;; js <- dump_list r ;; Ok (j :: js)
               end) l ;;
      Ok (JArr js)
  | VDict d =>
      ms <- (fix dump_members (d : list (key * value))
               : result (list (string * json)) :=
               match d with
               | [] => Ok []
               | (k, x) :: r =>
                   j <- json_dump x ;; ms <- dump_members r ;;
                   Ok ((json_key k, j) :: ms)
               end) d ;;
      Ok (JObj ms)
  end.

(** The dictionary built from the members of a JSON object, each value
    decoded by [f]: when a name is repeated the last member wins. *)
Section LoadMembers.
Variable f : json -> value.

Fixpoint load_members (ms : list (string * json)) (acc : dict) : dict :=
  match ms with
  | [] => acc
  | (k, x) :: r => load_members r (dict_set acc (KStr k) (f x))
  end.
End LoadMembers.

(** [json.loads]: an object becomes a [dict] with string keys. *)
Fixpoint json_load (j : json) : value :=
  match j with
  | JNull => VNone
  | JBool b => VBool b
  | JInt z => VInt z
  | JFloat q => VFloat q
  | JStr s => VStr s
  | JArr l => VList (map json_load l)
  | JObj ms => VDict (load_members json_load ms [])
  end.

(** [z == v] for an integer [z] (Python compares numbers by value). *)
Definition int_eq_value (z : Z) (v : value) : bool :=
  match v with
  | VInt z' => z =? z'
  | VFloat q => Qeq_bool (inject_Z z) q
  | VBool b => z =? (if b then 1 else 0)
  | _ => false
  end.

(** [z in v] for an integer [z]: key membership for a [dict], element
    membership for a [list], a [TypeError] for everything else. *)
Definition int_in (z : Z) (v : value) : result bool :=
  match v with
  | VDict d => Ok (dict_mem d (KInt z))
  | VList l => Ok (existsb (int_eq_value z) l)
  | _ => Raise TypeError
  end.

(** [v[k]] for a string subscript. *)
Definition subscript_str (v : value) (k : string) : result value :=
  match v with
  | VDict d =>
      match dict_get d (KStr k) with
      | Some x => Ok x
      | None => Raise KeyError
      end
  | _ => Raise TypeError
  end.

(** [l[i]] for a list: a negative index counts from the end. *)
Definition list_index {A : Type} (l : list A) (i : Z) : result A :=
  let n := Z.of_nat (List.length l) in
  let j := if i <? 0 then i + n else i in
  if (j <? 0) || (n <=? j) then Raise IndexError
  else match nth_error l (Z.to_nat j) with
       | Some a => Ok a
       | None => Raise IndexError
       end.

(** ** Strings *)

(** The ASCII characters for which [str.isspace] holds. *)
Definition is_space (c : ascii) : bool :=
  let n := nat_of_ascii c in
  ((9 <=? n) && (n <=? 13) || (28 <=? n) && (n <=? 32))%nat.

(** [s.split()]: the maximal runs of non-space characters. *)
Fixpoint split_ws_aux (s : string) (cur : string) : list string :=
  match s with
  | EmptyString => if String.eqb cur "" then [] else [cur]
  | String c r =>
      if is_space c
      then (if String.eqb cur "" then split_ws_aux r ""
            else cur :: split_ws_aux r "")
      else split_ws_aux r (cur ++ String c "")
  end.

Definition split_ws (s : string) : list string := split_ws_aux s "".

(** [" ".join(l)]. *)
Definition join_space (l : list string) : string :=
  String.concat " " l.

(** [needle in hay] for strings. *)
Definition str_in (needle hay : string) : bool :=
  match String.index 0 needle hay with
  | Some _ => true
  | None => false
  end.

(** ** The retraining loop (function [train_network_with_poison]) *)

Inductive opt_kind : Type := Adam | SGD.

Record param_group : Type := {
  lr : Q;
  weight_decay : Q;
  momentum : option Q
}.

Record optimizer : Type := {
  kind : opt_kind;
  param_groups : list param_group
}.

(** The command-line arguments the program reads after parsing. *)
Record Args : Type := {
  target_net : list string;
  target_label : Z;
  target_index_start : Z;
  target_index_end : Z;
  target_index_step : Z;
  poison_label : Z;
  retrain_lr : Q;
  retrain_opt : string;
  retrain_momentum : Q;
  lr_decay_epoch : list value;
  retrain_epochs : Z;
  retrain_bsize : Z;
  retrain_wd : Q;
  eval_poisons_root : string
}.

(** What the program takes from torch and scipy.  [Net] stands for the
    parameters of a network together with the buffers its optimizer keeps;
    [forward] is the network in evaluation mode on one image;
    [optimizer_step] is [zero_grad(); loss.backward(); optimizer.step()];
    [Rng] is the state of the random generator, consumed by the shuffling
    data loader and by the initialisation of a new network. *)
Class Torch : Type := {
  image : Type;
  Net : Type;
  Rng : Type;
  forward : Net -> image -> list Q;
  criterion : list (list Q) -> list Z -> Q;
  optimizer_step : optimizer -> Net -> list (image * Z) -> Net;
  softmax : list Q -> list Q;
  shuffle : Rng -> list (image * Z) -> list (image * Z) * Rng;
  make_net : string -> Rng -> result (Net * Rng)
}.

(** The batches of a [DataLoader]: consecutive slices of [n] samples, the
    last one possibly shorter. *)
Fixpoint chunks_fuel {A : Type} (fuel n : nat) (l : list A) : list (list A) :=
  match fuel with
  | O => []
  | S fuel' =>
      match l with
      | [] => []
      | _ :: _ => firstn n l :: chunks_fuel fuel' n (skipn n l)
      end
  end.

Definition chunks {A : Type} (n : nat) (l : list A) : list (list A) :=
  chunks_fuel (List.length l) n l.

(** [DataLoader(dset, batch_size=b)] refuses a batch size below 1. *)
Definition data_loader {A : Type} (b : Z) (l : list A) : result (list (list A)) :=
  if b <=? 0 then Raise ValueError else Ok (chunks (Z.to_nat b) l).

(** The optimizer the function builds: one parameter group. *)
Definition make_optimizer (a : Args) : optimizer :=
  if String.eqb (retrain_opt a) "adam"
  then {| kind := Adam;
          param_groups := [{| lr := retrain_lr a;
                              weight_decay := retrain_wd a;
                              momentum := None |}] |}
  else {| kind := SGD;
          param_groups := [{| lr := retrain_lr a;
                              weight_decay := retrain_wd a;
                              momentum := Some (retrain_momentum a) |}] |}.

(** [param_group['lr'] *= 0.1] for every group. *)
Definition decay (o : optimizer) : optimizer :=
  {| kind := kind o;
     param_groups :=
       map (fun g => {| lr := (lr g * (1 # 10))%Q;
                        weight_decay := weight_decay g;
                        momentum := momentum g |})
           (param_groups o) |}.

(** The test [if epoch in args.lr_decay_epoch] and its branch. *)
Definition lr_step (a : Args) (epoch : nat) (o : optimizer) : optimizer :=
  if existsb (int_eq_value (Z.of_nat epoch)) (lr_decay_epoch a)
  then decay o else o.

(** The schedule as a function of the epoch: the decay test of line 87
    applied for each of the epochs [0] to [e] in turn.  The loop itself
    is [run_epoch]; this function is what its optimizer is compared
    with. *)
Definition epoch_optimizer (a : Args) (o : optimizer) (e : nat) : optimizer :=
  fold_left (fun o' epoch => lr_step a epoch o') (seq 0 (S e)) o.

Fixpoint foldM {A S : Type} (f : S -> A -> result S) (l : list A) (s : S)
  : result S :=
  match l with
  | [] => Ok s
  | a :: r => s' <- f s a ;; foldM f r s'
  end.

Section Retrain.
Context {T : Torch}.

(** The variables the function assigns while it runs.  [epoch_var] and
    [scored] are unbound until the loop, respectively the final-epoch
    block, assigns them.  [scored] holds [target_pred[0][0].item()],
    [target_scores] and [poison_pred_list]. *)
Record train_state : Type := {
  net : Net;
  opt : optimizer;
  rng : Rng;
  epoch_var : option nat;
  scored : option (Z * list Q * list Z)
}.

(** One pass of the inner loop over a batch.  The time meter and the
    progress line are left out: they read the clock and print. *)
Definition train_batch (o : optimizer)
    (st : Net * AverageMeter.t * AverageMeter.t)
    (batch : list (image * Z))
  : result (Net * AverageMeter.t * AverageMeter.t) :=
  let '(n, loss_meter, acc_meter) := st in
  let input := map fst batch in
  let label := map snd batch in
  let output := map (forward n) input in
  let loss := criterion output label in
  let n' := optimizer_step o n batch in
  accs <- accuracy output label [1%nat] ;;
  prec1 <- list_index accs 0 ;;
  let size0 := Z.of_nat (List.length input) in
  loss_meter' <- AverageMeter.update loss_meter loss size0 ;;
  acc_meter' <- AverageMeter.update acc_meter prec1 size0 ;;
  Ok (n', loss_meter', acc_meter').

(** [x.topk(1, 1, True, True)] on a batch of one, then [.item()]. *)
Definition top1 (scores : list Q) : result Z :=
  idx <- topk_row 1 scores ;;
  i <- list_index idx 0 ;;
  Ok (Z.of_nat i).

(** The block run after the batches of the final epoch. *)
Definition score_target_and_poisons (n : Net) (target_img : image)
    (poison_tuple_list : list (image * Z))
  : result (Z * list Q * list Z) :=
  let target_pred := forward n target_img in
  let target_scores := softmax target_pred in
  pred <- top1 target_pred ;;
  poison_pred_list <-
    mapM (fun p => top1 (forward n (fst p))) poison_tuple_list ;;
  Ok (pred, target_scores, poison_pred_list).

(** The body of [for epoch in range(args.retrain_epochs)]. *)
Definition run_epoch (a : Args) (target_img : image)
    (poison_tuple_list poisoned_dset : list (image * Z))
    (st : train_state) (epoch : nat) : result train_state :=
  let o := lr_step a epoch (opt st) in
  let '(order, g) := shuffle (rng st) poisoned_dset in
  '(n, _, _) <-
    foldM (train_batch o) (chunks (Z.to_nat (retrain_bsize a)) order)
          (net st, AverageMeter.init, AverageMeter.init) ;;
  sc <- (if Z.of_nat epoch =? retrain_epochs a - 1
         then r <- score_target_and_poisons n target_img poison_tuple_list ;;
              Ok (Some r)
         else Ok (scored st)) ;;
  Ok {| net := n; opt := o; rng := g;
        epoch_var := Some epoch; scored := sc |}.

(** One pass of the validation loop; [ite] counts the batches and
    [total] is [len(test_loader)].  The progress line reads the variable
    [epoch], which is unbound when the epoch loop never ran. *)
Definition validate_batch (n : Net) (ep : option nat) (total : nat)
    (st : nat * AverageMeter.t) (batch : list (image * Z))
  : result (nat * AverageMeter.t) :=
  let '(ite, val_acc_meter) := st in
  let input := map fst batch in
  let label := map snd batch in
  let output := map (forward n) input in
  accs <- accuracy output label [1%nat] ;;
  prec1 <- list_index accs 0 ;;
  m <- AverageMeter.update val_acc_meter prec1 (Z.of_nat (List.length input)) ;;
  if ((ite mod 100 =? 0) || (ite =? total - 1))%nat
  then match ep with
       | Some _ => Ok (S ite, m)
       | None => Raise NameError
       end
  else Ok (S ite, m).

Definition validate (n : Net) (ep : option nat) (testset : list (image * Z))
  : result AverageMeter.t :=
  let test_loader := chunks 500 testset in
  r <- foldM (validate_batch n ep (List.length test_loader)) test_loader
             (O, AverageMeter.init) ;;
  Ok (snd r).

(** [train_network_with_poison].  [base_idx_list] and [savemodel] are
    accepted and not used, as in the source.  The moves between devices
    and the printed progress are left out; [net.eval()] at the start of
    every epoch is why [forward] is the evaluation-mode network. *)
Definition train_network_with_poison (n0 : Net) (target_img : image)
    (poison_tuple_list poisoned_dset : list (image * Z))
    (base_idx_list : list Z) (a : Args) (testset : list (image * Z))
    (savemodel : string) (g0 : Rng) : result (value * Rng) :=
  let optimizer0 := make_optimizer a in
  _ <- data_loader (retrain_bsize a) poisoned_dset ;;
  st <- foldM (run_epoch a target_img poison_tuple_list poisoned_dset)
              (seq 0 (Z.to_nat (retrain_epochs a)))
              {| net := n0; opt := optimizer0; rng := g0;
                 epoch_var := None; scored := None |} ;;
  val_acc_meter <- validate (net st) (epoch_var st) testset ;;
  match scored st with
  | None => Raise NameError
  | Some (pred, target_scores, poison_pred_list) =>
      malicious <- list_index target_scores (poison_label a) ;;
      Ok (VDict [(KStr "clean acc", VFloat (AverageMeter.avg val_acc_meter));
                 (KStr "prediction", VInt pred);
                 (KStr "poisons predictions", VList (map VInt poison_pred_list));
                 (KStr "scores", VList (map VFloat target_scores));
                 (KStr "malicious score", VFloat malicious);
                 (KStr "camera", VDict [])],
          rng st)
  end.

(** The victim scores class [c] highest whatever its parameters and
    its input. *)
Definition always_predicts (c : nat) : Prop :=
  forall (n : Net) (x : image), topk_row 1 (forward n x) = Ok [c].

(** The counts of the two meters of the inner loop are not negative. *)
Definition meters_ok (st : Net * AverageMeter.t * AverageMeter.t) : Prop :=
  0 <= AverageMeter.count (snd (fst st)) /\ 0 <= AverageMeter.count (snd st).

(** The network scores at least one class, whatever its parameters and
    its input. *)
Definition scores_some_class : Prop :=
  forall (n : Net) (x : image), (1 <= List.length (forward n x))%nat.

(** The validation meter while it accumulates top-1 accuracies: the sum
    is at most 100 times the count, and the average is their quotient
    once an update was made. *)
Definition percent_meter (m : AverageMeter.t) : Prop :=
  0 <= AverageMeter.count m /\
  (0 <= AverageMeter.sum m)%Q /\
  (AverageMeter.sum m <= (100 # 1) * inject_Z (AverageMeter.count m))%Q /\
  (AverageMeter.count m = 0 -> AverageMeter.avg m = 0%Q) /\
  (0 < AverageMeter.count m ->
   (AverageMeter.avg m
    == AverageMeter.sum m / inject_Z (AverageMeter.count m))%Q).
End Retrain.

(** ** The log extractor (function [get_stats]) *)

(** [time.strptime] with the format ["%Y-%m-%d %H:%M:%S"] and
    [time.mktime], taken from the host. *)
Class Clock : Type := {
  Time : Type;
  strptime : string -> result Time;
  mktime : Time -> Q
}.

Definition first_row : nat := 3.

(** [" ".join(line.strip().split()[:2])]. *)
Definition date_of (line : string) : string :=
  join_space (firstn 2 (split_ws line)).

(** The first line that contains [marker], as the [for] loop with its
    [break] finds it. *)
Fixpoint find_marker (marker : string) (lines : list string) : option string :=
  match lines with
  | [] => None
  | l :: r => if str_in marker l then Some l else find_marker marker r
  end.

(** [t.item()]: defined on a tensor of exactly one element. *)
Definition item (v : value) : result value :=
  match v with
  | VTensor [x] => Ok (VFloat x)
  | VTensor _ => Raise RuntimeError
  | _ => Raise AttributeError
  end.

(** [r.view(-1).cpu().detach().tolist()]. *)
Definition tolist (v : value) : result value :=
  match v with
  | VTensor data => Ok (VList (map VFloat data))
  | _ => Raise AttributeError
  end.

(** The conversion of [res['coeff_list']] (and of
    [res['coeff_list_in_victim']]): the type of the first entry selects
    the nested or the flat comprehension.  The field is taken to be a
    list whose entries are tensors or lists of tensors. *)
Definition coeffs_out (v : value) : result value :=
  match v with
  | VList l =>
      first <- list_index l 0 ;;
      match first with
      | VList _ =>
          rows <- mapM (fun r =>
                          match r with
                          | VList rr => x <- mapM tolist rr ;; Ok (VList x)
                          | _ => Raise TypeError
                          end) l ;;
          Ok (VList rows)
      | _ => x <- mapM tolist l ;; Ok (VList x)
      end
  | _ => Raise TypeError
  end.

Section GetStats.
Context {C : Clock}.

(** Lines 162-178: the elapsed time and the two tokens read from the
    log.  [log] is the result of [readlines()], [None] when the file
    cannot be opened. *)
Definition parse_log (log : option (list string)) (ite : Z)
  : result (Q * string * string) :=
  match log with
  | None => Raise FileNotFoundError
  | Some log =>
      match nth_error log first_row with
      | None => Raise IndexError
      | Some header =>
          if negb (str_in "Iteration 0" header) then Raise AssertionError
          else
            stdate <- strptime (date_of header) ;;
            match find_marker ("Iteration " ++ str_of_int ite ++ " ")
                              (skipn first_row log) with
            | None => Raise AssertionError
            | Some l =>
                enddate <- strptime (date_of l) ;;
                target_loss <- list_index (split_ws l) (-1) ;;
                loss <- list_index (split_ws l) 6 ;;
                Ok ((mktime enddate - mktime stdate)%Q, target_loss, loss)
            end
      end
  end.

(** Lines 180-209: the dictionary built from the checkpoint [res] and
    the values read from the log. *)
Definition stats_out (res : dict) (diff : Q) (target_loss loss : string)
  : result value :=
  let out := [(KStr "time", VFloat diff)] in
  let out := dict_set out (KStr "coeffs_time")
               (match dict_get res (KStr "coeffs_time") with
                | Some v => v
                | None => VInt (-1)
                end) in
  let out := dict_set out (KStr "poisons_time")
               (match dict_get res (KStr "poisons_time") with
                | Some v => v
                | None => VInt (-1)
                end) in
  tl <- match dict_get res (KStr "target_loss") with
        | Some v => item v
        | None => Ok (VStr target_loss)
        end ;;
  let out := dict_set out (KStr "target_loss") tl in
  l <- match dict_get res (KStr "total_loss") with
       | Some v => item v
       | None => Ok (VStr loss)
       end ;;
  let out := dict_set out (KStr "total_loss") l in
  cl <- match dict_get res (KStr "coeff_list") with
        | Some v => coeffs_out v
        | None => Ok (VList [])
        end ;;
  let out := dict_set out (KStr "coeff_list") cl in
  cv <- match dict_get res (KStr "coeff_list_in_victim") with
        | Some v => coeffs_out v
        | None => Ok (VList [])
        end ;;
  let out := dict_set out (KStr "coeff_list_in_victim") cv in
  Ok (VDict out).

Definition get_stats (log : option (list string)) (res : dict) (ite : Z)
  : result value :=
  '(diff, target_loss, loss) <- parse_log log ite ;;
  stats_out res diff target_loss loss.

End GetStats.

(** ** Dictionaries as [json.dump] and [json.load] see them *)

(** A value [json.dump] accepts. *)
Definition dumpable (v : value) : Prop := exists j, json_dump v = Ok j.

(** The member written for a dictionary entry. *)
Definition member_of (entry : key * value) (m : string * json) : Prop :=
  fst m = json_key (fst entry) /\ json_dump (snd entry) = Ok (snd m).

(** The last member named [s] of a JSON object. *)
Fixpoint last_member (ms : list (string * json)) (s : string) : option json :=
  match ms with
  | [] => None
  | (s', x) :: r =>
      match last_member r s with
      | Some y => Some y
      | None => if String.eqb s s' then Some x else None
      end
  end.

(** No key occurs twice. *)
Definition dict_wf (d : dict) : Prop := NoDup (map fst d).

(** Every key is a string. *)
Definition str_keys (d : dict) : Prop :=
  Forall (fun entry => exists s, fst entry = KStr s) d.

(** ** The sweep (the [__main__] block) *)

(** [range(start, stop, step)]: a zero step is a [ValueError]. *)
Definition py_range (start stop step : Z) : result (list Z) :=
  if step =? 0 then Raise ValueError
  else
    let len :=
      if 0 <? step
      then (if start <? stop then (stop - start + step - 1) / step else 0)
      else (if stop <? start then (start - stop - step - 1) / (- step) else 0) in
    Ok (map (fun i => start + Z.of_nat i * step) (seq 0 (Z.to_nat len))).

(** The checkpoint iterations of the sweep (line 318). *)
Definition ites : list Z := [1; 51; 101; 201; 401; 801; 1601; 2801; 4000].

(** The path of the models directory of target index [t] (line 302). *)
Definition models_dir_path (a : Args) (t : Z) : string :=
  eval_poisons_root a ++ "/" ++ str_of_int t ++ "/models-scratch-for-"
    ++ str_of_int (retrain_epochs a) ++ "epochs/".

(** What the files under [args.eval_poisons_root] hold; a results file
    that was opened for writing and whose [json.dump] then failed is left
    [Truncated]. *)
Inductive file_content : Type :=
| Text (j : json)
| Truncated.

(** The lines the [__main__] block itself prints. *)
Inductive line : Type :=
| PArgs (s : string)
| PTarget (t : Z)
| PIte (ite : Z)
| PLoading (t n : Z)
| PSkipping (t : Z)
| PPoisonsLoaded
| PDatasetCreated
| PVictim (name : string).

(** The iteration numbers of the lines [ITE: n] among printed lines. *)
Definition ite_lines (ls : list line) : list Z :=
  flat_map (fun l => match l with PIte n => [n] | _ => [] end) ls.

(** The target indices of the lines [skipping target] among printed
    lines. *)
Definition skip_lines (ls : list line) : list Z :=
  flat_map (fun l => match l with PSkipping t => [t] | _ => [] end) ls.

(** The lines printed by the work on an iteration whose checkpoint was
    found (lines 330-350). *)
Definition work_line (l : line) : bool :=
  match l with
  | PPoisonsLoaded | PDatasetCreated | PVictim _ => true
  | _ => false
  end.

(** [l1] is obtained from [l2] by dropping elements. *)
Inductive subseq {A : Type} : list A -> list A -> Prop :=
| subseq_nil : forall l, subseq [] l
| subseq_skip : forall x l1 l2, subseq l1 l2 -> subseq l1 (x :: l2)
| subseq_take : forall x l1 l2, subseq l1 l2 -> subseq (x :: l1) (x :: l2).

Section Sweep.
Context {T : Torch} {C : Clock}.

(** A poison checkpoint: the keys [poison] and [idx], and the optional
    keys [get_stats] consults. *)
Record checkpoint : Type := {
  poison : list (image * Z);
  idx : list Z;
  stats : dict
}.

(** The inputs of a run that the program only reads: the directory of
    each target index, its checkpoints [poison_%05d.pth], its [log.txt];
    and the helpers imported from the other modules of the repository. *)
Class Host : Type := {
  args_str : Args -> string;
  target_dir_exists : Z -> bool;
  checkpoint_file : Z -> Z -> option checkpoint;
  log_file : Z -> option (list string);
  fetch_target : Z -> Z -> image;
  PoisonedDataset : list (image * Z) -> list Z -> list (image * Z);
  testset : list (image * Z)
}.

Context {H : Host}.

(** What a run changes: the results file and the models directory of
    each target index, the printed lines, the generator, and the
    variable [base_idx_list], which outlives a pass of the target loop. *)
Record pstate : Type := {
  results_file : Z -> option file_content;
  models_dir : Z -> bool;
  printed : list line;
  base_idx_list : option (list Z);
  grng : Rng
}.

Definition M (A : Type) : Type := pstate -> result A * pstate.

Definition ret {A : Type} (a : A) : M A := fun s => (Ok a, s).

Definition raise {A : Type} (e : exn) : M A := fun s => (Raise e, s).

Definition bindM {A B : Type} (c : M A) (k : A -> M B) : M B :=
  fun s => match c s with
           | (Ok a, s') => k a s'
           | (Raise e, s') => (Raise e, s')
           end.

Definition lift {A : Type} (r : result A) : M A := fun s => (r, s).

Definition print (l : line) : M unit :=
  fun s => (Ok tt, {| results_file := results_file s;
                      models_dir := models_dir s;
                      printed := printed s ++ [l];
                      base_idx_list := base_idx_list s;
                      grng := grng s |}).

Definition set_base_idx_list (l : list Z) : M unit :=
  fun s => (Ok tt, {| results_file := results_file s;
                      models_dir := models_dir s;
                      printed := printed s;
                      base_idx_list := Some l;
                      grng := grng s |}).

Definition set_models_dir (t : Z) : M unit :=
  fun s => (Ok tt, {| results_file := results_file s;
                      models_dir := fun t' => if t' =? t then true
                                              else models_dir s t';
                      printed := printed s;
                      base_idx_list := base_idx_list s;
                      grng := grng s |}).

Definition set_results_file (t : Z) (c : file_content) : M unit :=
  fun s => (Ok tt, {| results_file := fun t' => if t' =? t then Some c
                                                else results_file s t';
                      models_dir := models_dir s;
                      printed := printed s;
                      base_idx_list := base_idx_list s;
                      grng := grng s |}).

(** A call that draws from the random generator. *)
Definition with_rng {A : Type} (f : Rng -> result (A * Rng)) : M A :=
  fun s => match f (grng s) with
           | Ok (a, g) => (Ok a, {| results_file := results_file s;
                                    models_dir := models_dir s;
                                    printed := printed s;
                                    base_idx_list := base_idx_list s;
                                    grng := g |})
           | Raise e => (Raise e, s)
           end.

Notation "x <~ c ;; k" := (bindM c (fun x => k))
  (at level 61, c at next level, right associativity).
Notation "c ;;; k" := (bindM c (fun _ => k))
  (at level 61, right associativity).

(** [read_json(path)] for the results file of target index [t]. *)
Definition read_json (t : Z) : M value :=
  fun s => match results_file s t with
           | None => (Ok (VDict []), s)
           | Some (Text j) => (Ok (json_load j), s)
           | Some Truncated => (Raise ValueError, s)
           end.

(** [v[k] = x] for a string key. *)
Definition store_str (v : value) (k : string) (x : value) : result value :=
  match v with
  | VDict d => Ok (VDict (dict_set d (KStr k) x))
  | _ => Raise TypeError
  end.

(** The loop over [args.target_net] (lines 344-350); [blob] is
    [res[ite]] and [victims] is [res[ite]['victims']]. *)
Fixpoint victims_loop (a : Args) (t ite : Z) (target : image)
    (chk : checkpoint) (poisoned_dset : list (image * Z))
    (names : list string) (victims : dict) : M dict :=
  match names with
  | [] => ret victims
  | victim_name :: rest =>
      print (PVictim victim_name) ;;;
      victim_net <~ with_rng (make_net victim_name) ;;
      r <~ with_rng (train_network_with_poison victim_net target
                       (poison chk) poisoned_dset (idx chk) a testset
                       (models_dir_path a t ++ "/" ++ victim_name
                          ++ "-poison-ites-" ++ str_of_int ite)) ;;
      victims_loop a t ite target chk poisoned_dset rest
                   (dict_set victims (KStr victim_name) r)
  end.

(** [all_res['targets'][str(target_idx)]], the record the loop tests
    each iteration against (line 321). *)
Definition recorded (all_res : value) (t : Z) : result value :=
  targets <- subscript_str all_res "targets" ;;
  subscript_str targets (str_of_int t).

(** Lines 330-350: the work done for an iteration whose checkpoint
    [chk] was found; the result is [res[ite]]. *)
Definition compute_ite (a : Args) (t ite : Z) (target : image)
    (chk : checkpoint) : M value :=
  set_base_idx_list (idx chk) ;;;
  print PPoisonsLoaded ;;;
  let poisoned_dset := PoisonedDataset (poison chk) (idx chk) in
  print PDatasetCreated ;;;
  blob <~ lift (get_stats (log_file t) (stats chk) (ite - 1)) ;;
  blob <~ lift (store_str blob "victims" (VDict [])) ;;
  victims <~ victims_loop a t ite target chk poisoned_dset
                          (target_net a) [] ;;
  lift (store_str blob "victims" (VDict victims)).

(** The loop [for ite in ites[::-1]] (lines 320-350) over the
    iterations still to visit.  The result is [res] and [no_save]. *)
Fixpoint ite_loop (a : Args) (t : Z) (target : image) (all_res : value)
    (todo : list Z) (res : dict) : M (dict * bool) :=
  match todo with
  | [] => ret (res, true)
  | ite :: rest =>
      rec <~ lift (recorded all_res t) ;;
      present <~ lift (int_in ite rec) ;;
      if present : bool then ite_loop a t target all_res rest res
      else
        print (PIte ite) ;;;
        print (PLoading t (ite - 1)) ;;;
        match checkpoint_file t (ite - 1) with
        | None => print (PSkipping t) ;;; ret (res, false)
        | Some chk =>
            blob <~ compute_ite a t ite target chk ;;
            ite_loop a t target all_res rest (dict_set res (KInt ite) blob)
        end
  end.

(** Lines 351-356: the merge and the write of the results file. *)
Definition persist (t : Z) (all_res : value) (res : dict) : M unit :=
  targets <~ lift (subscript_str all_res "targets") ;;
  targets <~ lift (match targets with
                   | VDict d => Ok (VDict (dict_set d (KInt t) (VDict res)))
                   | _ => Raise TypeError
                   end) ;;
  all_res <~ lift (store_str all_res "targets" targets) ;;
  b <~ (fun s => (match base_idx_list s with
                  | Some l => Ok l
                  | None => Raise NameError
                  end, s)) ;;
  all_res <~ lift (store_str all_res "poison_idx_list" (VList (map VInt b))) ;;
  match json_dump all_res with
  | Ok j => set_results_file t (Text j)
  | Raise e => set_results_file t Truncated ;;; raise e
  end.

(** Lines 304-305: the models directory is created when it is missing;
    [os.mkdir] fails when the directory of the target index is. *)
Definition ensure_models_dir (t : Z) : M unit :=
  fun s => if models_dir s t then ret tt s
           else if target_dir_exists t then set_models_dir t s
                else raise FileNotFoundError s.

(** Lines 307-314: the record loaded from the results file, with its
    header fields set. *)
Definition init_all_res (a : Args) (t : Z) (loaded : value) : result value :=
  all_res <- store_str loaded "args" (VStr (args_str a)) ;;
  all_res <- store_str all_res "poison_label" (VInt (poison_label a)) ;;
  all_res <- store_str all_res "target_label" (VInt (target_label a)) ;;
  match all_res with
  | VDict d =>
      if dict_mem d (KStr "targets") then Ok all_res
      else store_str all_res "targets"
             (VDict [(KStr (str_of_int t), VDict [])])
  | _ => Raise TypeError
  end.

(** The body of the loop over target indices (lines 294-356). *)
Definition process_target (a : Args) (t : Z) : M unit :=
  print (PTarget t) ;;;
  let target := fetch_target (target_label a) t in
  ensure_models_dir t ;;;
  loaded <~ read_json t ;;
  all_res <~ lift (init_all_res a t loaded) ;;
  r <~ ite_loop a t target all_res (rev ites) [] ;;
  if snd r then persist t all_res (fst r) else ret tt.

Fixpoint forM (ts : list Z) (f : Z -> M unit) : M unit :=
  match ts with
  | [] => ret tt
  | t :: rest => f t ;;; forM rest f
  end.

(** Lines 291-292: the default end of the target range. *)
Definition resolve_end (a : Args) : Args :=
  if target_index_end a =? -1
  then {| target_net := target_net a;
          target_label := target_label a;
          target_index_start := target_index_start a;
          target_index_end := target_index_start a + 1;
          target_index_step := target_index_step a;
          poison_label := poison_label a;
          retrain_lr := retrain_lr a;
          retrain_opt := retrain_opt a;
          retrain_momentum := retrain_momentum a;
          lr_decay_epoch := lr_decay_epoch a;
          retrain_epochs := retrain_epochs a;
          retrain_bsize := retrain_bsize a;
          retrain_wd := retrain_wd a;
          eval_poisons_root := eval_poisons_root a |}
  else a.

(** The target indices the sweep visits (line 293). *)
Definition target_indices (a : Args) : result (list Z) :=
  let a' := resolve_end a in
  py_range (target_index_start a') (target_index_end a')
           (target_index_step a').

(** The [__main__] block from [print(args)] on: the parsed arguments are
    [a]; the device setup and the download of the test set are taken from
    the host. *)
Definition main (a : Args) : M unit :=
  print (PArgs (args_str a)) ;;;
  let a' := resolve_end a in
  ts <~ lift (target_indices a) ;;
  forM ts (process_target a').

(** [st'] differs from [st] at most by the lines [new] printed after
    those of [st], by the generator and by [base_idx_list]. *)
Definition extends (st st' : pstate) (new : list line) : Prop :=
  results_file st' = results_file st /\
  models_dir st' = models_dir st /\
  printed st' = printed st ++ new.

(** The results file of target index [t] is absent, or holds an object
    in which [targets], when present, maps [str(t)] to an object: the
    layout the program itself writes. *)
Definition record_is_dict (c : option file_content) (t : Z) : Prop :=
  match c with
  | None => True
  | Some Truncated => False
  | Some (Text j) =>
      exists all,
        json_load j = VDict all /\
        (dict_get all (KStr "targets") = None \/
         exists targets d,
           dict_get all (KStr "targets") = Some (VDict targets) /\
           dict_get targets (KStr (str_of_int t)) = Some (VDict d))
  end.

(** A computation that prints no line [ITE: n] and leaves the files
    alone. *)
Definition quiet {A : Type} (c : M A) : Prop :=
  forall st r st', c st = (r, st') ->
    exists new, extends st st' new /\ ite_lines new = [].

(** A computation that prints nothing. *)
Definition silent {A : Type} (c : M A) : Prop :=
  forall st r st', c st = (r, st') -> printed st' = printed st.

(** The record the loop tests against is a dictionary without integer
    keys: no iteration number is found in it. *)
Definition nothing_recorded (all_res : value) (t : Z) : Prop :=
  exists d, recorded all_res t = Ok (VDict d) /\
            forall z, dict_get d (KInt z) = None.

(** Every run of [c] relates the state before and the state after by
    [R]. *)
Definition keeps {A : Type} (R : pstate -> pstate -> Prop) (c : M A) : Prop :=
  forall st r st', c st = (r, st') -> R st st'.

(** The later state has the lines of the earlier one, then more. *)
Definition printed_prefix (st st' : pstate) : Prop :=
  exists new, printed st' = printed st ++ new.

(** The results files of the target indices other than [t] are the same. *)
Definition same_files_except (t : Z) (st st' : pstate) : Prop :=
  forall t', t' <> t -> results_file st' t' = results_file st t'.

(** Lines 352-353: the record that [json.dump] is given, from the loaded
    record, the results of this pass and the value of [base_idx_list]. *)
Definition merged_record (t : Z) (all_res : value) (res : dict)
    (b : option (list Z)) : result value :=
  targets <- subscript_str all_res "targets" ;;
  targets <- match targets with
             | VDict d => Ok (VDict (dict_set d (KInt t) (VDict res)))
             | _ => Raise TypeError
             end ;;
  all_res <- store_str all_res "targets" targets ;;
  b <- match b with
       | Some l => Ok l
       | None => Raise NameError
       end ;;
  store_str all_res "poison_idx_list" (VList (map VInt b)).

(** The variable [base_idx_list] has the same value. *)
Definition same_base (st st' : pstate) : Prop :=
  base_idx_list st' = base_idx_list st.

(** Every iteration to visit has its checkpoint and is computed without
    error into a value [json.dump] accepts. *)
Definition all_computed (a : Args) (t : Z) (target : image) (todo : list Z)
  : Prop :=
  forall ite, In ite todo ->
    exists chk, checkpoint_file t (ite - 1) = Some chk /\
      forall s, exists blob s',
        compute_ite a t ite target chk s = (Ok blob, s') /\ dumpable blob.

(** A new invocation of the program: the files and directories are
    those the previous one left, the printed lines and the variables
    start afresh. *)
Definition new_process (s : pstate) : pstate :=
  {| results_file := results_file s;
     models_dir := models_dir s;
     printed := [];
     base_idx_list := None;
     grng := grng s |}.

(** The keys under [targets][str(t)] in a results file, as
    [json.load] returns them. *)
Definition recorded_keys (c : option file_content) (t : Z) : list key :=
  match c with
  | Some (Text j) =>
      match recorded (json_load j) t with
      | Ok (VDict d) => map fst d
      | _ => []
      end
  | _ => []
  end.

(** The record a pass over target index [t] builds from the results
    file [c] (lines 307-314). *)
Definition loaded_record (a : Args) (t : Z) (c : option file_content)
  : result value :=
  loaded <- match c with
            | None => Ok (VDict [])
            | Some (Text j) => Ok (json_load j)
            | Some Truncated => Raise ValueError
            end ;;
  init_all_res a t loaded.

(** The test of line 321, [ite in all_res['targets'][str(target_idx)]]:
    an iteration for which it holds is passed over. *)
Definition skipped (all_res : value) (t ite : Z) : bool :=
  match rec <- recorded all_res t ;; int_in ite rec with
  | Ok present => present
  | Raise _ => false
  end.

(** The iterations of [todo] that are not passed over, in the order of
    [todo]. *)
Definition to_attempt (all_res : value) (t : Z) (todo : list Z) : list Z :=
  filter (fun ite => negb (skipped all_res t ite)) todo.

(** The test of line 321 raises nothing: the record of the target index
    is there and is a [dict] or a [list]. *)
Definition test_defined (all_res : value) (t : Z) : bool :=
  match recorded all_res t with
  | Ok (VDict _) | Ok (VList _) => true
  | _ => false
  end.

(** A computation that leaves the files alone and prints only lines of
    the work on an iteration. *)
Definition works {A : Type} (c : M A) : Prop :=
  forall st r st', c st = (r, st') ->
    exists new, extends st st' new /\ forallb work_line new = true.

End Sweep.


(** ** A small concrete host *)

Module Toy.
Local Open Scope string_scope.

(** A network that scores class 3 highest on every input, with no
    randomness and no learning. *)
Definition torch : Torch := {|
  image := nat;
  Net := unit;
  Rng := unit;
  forward := fun _ _ => [0; 0; 0; 1; 0; 0; 0; 0; 0; 0]%Q;
  criterion := fun _ _ => 0%Q;
  optimizer_step := fun _ n _ => n;
  softmax := fun l => l;
  shuffle := fun g l => (l, g);
  make_net := fun _ g => Ok (tt, g)
|}.

Definition clock : Clock := {|
  Time := Z;
  strptime := fun _ => Ok 0;
  mktime := fun z => inject_Z z
|}.

Definition log_line (n : Z) : string :=
  "2020-01-01 00:00:00 Iteration " ++ str_of_int n ++ " , loss 1.5 target 0.5".

Definition log : list string :=
  (["header"; "header"; "header"]
     ++ map (fun ite => log_line (ite - 1)) ites)%list.

Definition chk : @checkpoint torch :=
  @Build_checkpoint torch
    [(0%nat, 8); (1%nat, 8); (2%nat, 8); (3%nat, 8); (4%nat, 8)]%Z
    [10; 11; 12; 13; 14]%Z
    [].

Definition dataset (p : list (nat * Z)) (_ : list Z) : list (nat * Z) :=
  (p ++ [(7%nat, 1); (8%nat, 2); (9%nat, 3)]%Z)%list.

(** Every checkpoint of every target index is present. *)
Definition host : @Host torch :=
  @Build_Host torch
    (fun _ => "Namespace()")
    (fun _ => true)
    (fun _ _ => Some chk)
    (fun _ => Some log)
    (fun _ t => Z.to_nat t)
    dataset
    [(20%nat, 3); (21%nat, 4)]%Z.

(** The same host with the checkpoint of iteration 801 missing. *)
Definition host_missing : @Host torch :=
  @Build_Host torch
    (fun _ => "Namespace()")
    (fun _ => true)
    (fun _ n => if (n =? 800)%Z then None else Some chk)
    (fun _ => Some log)
    (fun _ t => Z.to_nat t)
    dataset
    [(20%nat, 3); (21%nat, 4)]%Z.

Definition args : Args := {|
  target_net := ["DenseNet121"];
  target_label := 6;
  target_index_start := 0;
  target_index_end := -1;
  target_index_step := 1;
  poison_label := 8;
  retrain_lr := 1 # 10000;
  retrain_opt := "adam";
  retrain_momentum := 9 # 10;
  lr_decay_epoch := [VInt 30; VInt 45];
  retrain_epochs := 2;
  retrain_bsize := 8;
  retrain_wd := 5 # 10000;
  eval_poisons_root := "root"
|}.

(** [args] with another step of the target range. *)
Definition with_step (step : Z) : Args := {|
  target_net := ["DenseNet121"];
  target_label := 6;
  target_index_start := 0;
  target_index_end := -1;
  target_index_step := step;
  poison_label := 8;
  retrain_lr := 1 # 10000;
  retrain_opt := "adam";
  retrain_momentum := 9 # 10;
  lr_decay_epoch := [VInt 30; VInt 45];
  retrain_epochs := 2;
  retrain_bsize := 8;
  retrain_wd := 5 # 10000;
  eval_poisons_root := "root"
|}.

Definition start : @pstate torch :=
  @Build_pstate torch (fun _ => None) (fun _ => false) [] None tt.

(** [args] with another epoch budget and another list of decay epochs. *)
Definition with_epochs (epochs : Z) (decay_epochs : list value) : Args := {|
  target_net := ["DenseNet121"];
  target_label := 6;
  target_index_start := 0;
  target_index_end := -1;
  target_index_step := 1;
  poison_label := 8;
  retrain_lr := 1 # 10000;
  retrain_opt := "adam";
  retrain_momentum := 9 # 10;
  lr_decay_epoch := decay_epochs;
  retrain_epochs := epochs;
  retrain_bsize := 8;
  retrain_wd := 5 # 10000;
  eval_poisons_root := "root"
|}.

(** The state of the training loop after [n] epochs on the host's data,
    for the arguments [a]. *)
Definition trained (a : Args) (n : nat) : @train_state torch :=
  let st0 := @Build_train_state torch tt (make_optimizer a) tt None None in
  match foldM (run_epoch (T := torch) a 0%nat (poison chk)
                         (dataset (poison chk) (idx chk)))
              (seq 0 n) st0 with
  | Ok st => st
  | Raise _ => st0
  end.

(** The state the first run leaves, and the state after a second run
    of the same command. *)
Definition after_first_run : @pstate torch :=
  snd (main (C := clock) (H := host) args start).

Definition after_second_run : @pstate torch :=
  snd (main (C := clock) (H := host) args (new_process after_first_run)).

End Toy.

(** The number of epochs among [0] to [e] at whose start the decay test
    of line 87 succeeds. *)
Definition decays_until (a : Args) (e : nat) : nat :=
  List.length
    (filter (fun epoch => existsb (int_eq_value (Z.of_nat epoch))
                                  (lr_decay_epoch a))
            (seq 0 (S e))).

(** The factor the schedule with decay epochs 30 and 45 is expected to
    have applied by epoch [e]. *)
Definition decay_factor_30_45 (e : nat) : Q :=
  if (e <? 30)%nat then 1 else if (e <? 45)%nat then 1 # 10 else 1 # 100.

(** ** Checkpoint fields as [get_stats] expects them *)

(** A checkpoint value with every tensor replaced by the list of its
    numbers. *)
Fixpoint plain (v : value) : value :=
  match v with
  | VTensor data => VList (map VFloat data)
  | VList l => VList (map plain l)
  | _ => v
  end.

(** The number held by a one-element tensor. *)
Definition scalar_of (v : value) : value :=
  match v with
  | VTensor [x] => VFloat x
  | _ => v
  end.

Definition is_tensor (v : value) : Prop := exists data, v = VTensor data.

(** A coefficient field: a non-empty list of tensors, or a non-empty list
    of lists of tensors. *)
Definition coeffs_wf (v : value) : Prop :=
  exists l, v = VList l /\ l <> [] /\
    (Forall is_tensor l \/
     Forall (fun r => exists rr, r = VList rr /\ Forall is_tensor rr) l).

(** An optional field of the checkpoint [res] that, when present,
    satisfies [P]. *)
Definition field_ok (P : value -> Prop) (res : dict) (k : string) : Prop :=
  match dict_get res (KStr k) with
  | Some v => P v
  | None => True
  end.

Definition one_element_tensor (v : value) : Prop := exists x, v = VTensor [x].

(** [res.get(k, default)]. *)
Definition dict_get_default (d : dict) (k : string) (default : value) : value :=
  match dict_get d (KStr k) with
  | Some v => v
  | None => default
  end.

(* ################################################################# *)
(** * Verified properties *)

Lemma bind_Ok_inv {A B : Type} (r : result A) (k : A -> result B) (b : B) :
  bind r k = Ok b -> exists a, r = Ok a /\ k a = Ok b.
Proof.
  destruct r as [a | e]; simpl; intros H.
  - exists a; split; [reflexivity | exact H].
  - discriminate H.
Qed.

(** ** Metric accumulator *)

Section AverageMeterFacts.
Import AverageMeter.

Lemma update_ok (m : t) (v : Q) (n : Z) :
  count m + n <> 0 ->
  update m v n =
    Ok {| val := v;
          avg := ((sum m + v * inject_Z n) / inject_Z (count m + n))%Q;
          sum := (sum m + v * inject_Z n)%Q;
          count := count m + n |}.
Proof.
  intros H. unfold update.
  destruct (Z.eqb_spec (count m + n) 0) as [E | _]; [contradiction | reflexivity].
Qed.

Lemma updates_from (ups : list (Q * Z)) :
  forall m, counts_nonzero (count m) ups ->
  exists m',
    updates m ups = Ok m' /\
    (sum m' == sum m + weighted_sum ups)%Q /\
    count m' = count m + total_weight ups /\
    (ups <> [] ->
     (avg m' == sum m' / inject_Z (count m'))%Q /\
     val m' = fst (last ups (0%Q, 0))).
Proof.
  induction ups as [| [v n] rest IH]; intros m H.
  - exists m. simpl. split; [reflexivity |]. split; [ring |].
    split; [lia |]. intros C; contradiction.
  - destruct H as [Hn Hrest]. simpl updates.
    rewrite (update_ok m v n Hn). simpl bind.
    set (m1 := {| val := v;
                  avg := ((sum m + v * inject_Z n) / inject_Z (count m + n))%Q;
                  sum := (sum m + v * inject_Z n)%Q;
                  count := count m + n |}).
    destruct (IH m1 Hrest) as (m' & Hrun & Hsum & Hcount & Hlast).
    exists m'. split; [exact Hrun |]. split; [| split].
    + rewrite Hsum. simpl. ring.
    + rewrite Hcount. simpl. lia.
    + intros _. destruct rest as [| p rest'].
      * simpl in Hrun. injection Hrun as <-. simpl. split; reflexivity.
      * destruct Hlast as [Ha Hv]; [discriminate |].
        split; [exact Ha |]. rewrite Hv. reflexivity.
Qed.

End AverageMeterFacts.

(** C3.  After [reset()], any sequence of [update(value_i, n_i)] calls in
    which the count is non-zero after every call (so that no division
    fails) runs to completion and leaves [sum] equal to the sum of
    [value_i * n_i], [count] equal to the sum of [n_i] and, when at least
    one call was made, [avg] equal to their quotient and [val] equal to the
    most recent value. *)
Theorem average_meter_tracks_weighted_mean (ups : list (Q * Z)) :
  AverageMeter.counts_nonzero 0 ups ->
  exists m,
    AverageMeter.updates AverageMeter.reset ups = Ok m /\
    (AverageMeter.sum m == AverageMeter.weighted_sum ups)%Q /\
    AverageMeter.count m = AverageMeter.total_weight ups /\
    (ups <> [] ->
     (AverageMeter.avg m ==
        AverageMeter.weighted_sum ups
        / inject_Z (AverageMeter.total_weight ups))%Q /\
     AverageMeter.val m = fst (last ups (0%Q, 0))).
Proof.
  intros H.
  destruct (updates_from ups AverageMeter.reset H)
    as (m & Hrun & Hsum & Hcount & Hlast).
  simpl in Hsum, Hcount.
  assert (Hs : (AverageMeter.sum m == AverageMeter.weighted_sum ups)%Q).
  { rewrite Hsum. ring. }
  exists m. repeat split; try assumption.
  - destruct (Hlast H0) as [Ha _]. rewrite Ha, Hs, Hcount. reflexivity.
  - destruct (Hlast H0) as [_ Hv]. exact Hv.
Qed.

Lemma average_meter_tracks_weighted_mean_witness :
  AverageMeter.counts_nonzero 0 [((2 # 1)%Q, 3); ((4 # 1)%Q, 1)] /\
  exists m,
    AverageMeter.updates AverageMeter.reset [((2 # 1)%Q, 3); ((4 # 1)%Q, 1)] = Ok m /\
    (AverageMeter.sum m == 10 # 1)%Q /\
    AverageMeter.count m = 4 /\
    (AverageMeter.avg m == 5 # 2)%Q /\
    AverageMeter.val m = (4 # 1)%Q.
Proof.
  assert (H : AverageMeter.counts_nonzero 0 [((2 # 1)%Q, 3); ((4 # 1)%Q, 1)])
    by (simpl; lia).
  split; [exact H |].
  destruct (average_meter_tracks_weighted_mean _ H)
    as (m & Hrun & Hsum & Hcount & Hlast).
  exists m. split; [exact Hrun |].
  destruct Hlast as [Ha Hv]; [discriminate |].
  split; [| split; [| split]].
  - rewrite Hsum. reflexivity.
  - rewrite Hcount. reflexivity.
  - rewrite Ha. reflexivity.
  - exact Hv.
Defined.

(** C4 as stated fails: right after [reset()] the attribute [avg] holds 0
    and reading it raises nothing. *)
Lemma read_avg_after_reset_does_not_raise :
  AverageMeter.read_avg AverageMeter.reset <> Raise ZeroDivisionError.
Proof. discriminate. Qed.

(** C4, amended.  After [reset()] and before any [update()], reading [avg]
    succeeds with the value 0 that [reset] stored; the division by zero
    occurs only inside [update], exactly when the count is zero once the
    weight has been added. *)
Theorem read_avg_after_reset_is_zero :
  AverageMeter.read_avg AverageMeter.reset = Ok 0%Q /\
  forall m v n,
    AverageMeter.update m v n = Raise ZeroDivisionError <->
    AverageMeter.count m + n = 0.
Proof.
  split; [reflexivity |].
  intros m v n. unfold AverageMeter.update.
  destruct (Z.eqb_spec (AverageMeter.count m + n) 0) as [E | E].
  - split; auto.
  - split; [discriminate | contradiction].
Qed.

(** ** Top-k accuracy *)

Lemma mapM_Ok_Forall {A B : Type} (f : A -> result B) (P : A -> Prop) :
  (forall a, P a -> exists b, f a = Ok b) ->
  forall l, Forall P l -> exists bs, mapM f l = Ok bs.
Proof.
  intros Hf l. induction l as [| a r IH]; intros HP.
  - exists []. reflexivity.
  - inversion HP as [| ? ? Ha Hr]; subst.
    destruct (Hf a Ha) as [b Hb]. destruct (IH Hr) as [bs Hbs].
    exists (b :: bs). simpl. rewrite Hb. simpl. rewrite Hbs. reflexivity.
Qed.

Lemma topk_row_ok (k : nat) (row : list Q) :
  (k <= List.length row)%nat ->
  topk_row k row = Ok (firstn k (argsort_desc row)).
Proof.
  intros H. unfold topk_row.
  destruct (Nat.leb_spec k (List.length row)) as [_ | C]; [reflexivity | lia].
Qed.

Lemma correct_k_mono (correct : list (list bool)) (k1 k2 : nat) :
  (k1 <= k2)%nat -> correct_k correct k1 <= correct_k correct k2.
Proof.
  intros H. unfold correct_k. apply inj_le.
  rewrite <- (firstn_skipn k1 (firstn k2 correct)).
  rewrite firstn_firstn, (Nat.min_l k1 k2 H).
  rewrite concat_app, count_occ_app. lia.
Qed.

Lemma correct_k_nonneg (correct : list (list bool)) (k : nat) :
  0 <= correct_k correct k.
Proof. unfold correct_k. lia. Qed.

(** C5.  For a non-empty batch whose score rows have at least five
    classes, [accuracy(output, target, topk=(1, 5))] returns two values
    and the one for k=5 is at least the one for k=1. *)
Theorem accuracy_top5_ge_top1 (output : list (list Q)) (target : list Z) :
  target <> [] ->
  List.length output = List.length target ->
  Forall (fun row => (5 <= List.length row)%nat) output ->
  exists a1 a5,
    accuracy output target [1; 5]%nat = Ok [a1; a5] /\ (a1 <= a5)%Q.
Proof.
  intros Hne Hlen Hrows.
  destruct (mapM_Ok_Forall (topk_row 5) _
              (fun row H => ex_intro _ _ (topk_row_ok 5 row H)) output Hrows)
    as [pred Hpred].
  unfold accuracy. simpl max_of. simpl bind at 1.
  rewrite Hpred. simpl bind at 1.
  unfold expand_as. rewrite Hlen, Nat.eqb_refl. cbn [bind].
  assert (Hbs : 0 < Z.of_nat (List.length target)).
  { destruct target; [contradiction | simpl; lia]. }
  simpl mapM.
  destruct (Z.eqb_spec (Z.of_nat (List.length target)) 0) as [E | _]; [lia |].
  simpl. eexists. eexists. split; [reflexivity |].
  apply Qmult_le_compat_r.
  - rewrite <- Zle_Qle. apply correct_k_mono. lia.
  - apply Qlt_le_weak. apply Qlt_shift_div_l.
    + replace 0%Q with (inject_Z 0) by reflexivity. rewrite <- Zlt_Qlt. exact Hbs.
    + reflexivity.
Qed.

Lemma accuracy_top5_ge_top1_witness :
  exists a1 a5,
    accuracy [[1; 5; 3; 0; 2; 4]%Q; [9; 1; 2; 3; 4; 5]%Q] [1; 3] [1; 5]%nat
    = Ok [a1; a5] /\ (a1 <= a5)%Q.
Proof.
  apply accuracy_top5_ge_top1.
  - discriminate.
  - reflexivity.
  - repeat constructor.
Defined.

(** ** Learning-rate schedule *)

Lemma epoch_optimizer_S (a : Args) (o : optimizer) (e : nat) :
  epoch_optimizer a o (S e) = lr_step a (S e) (epoch_optimizer a o e).
Proof.
  unfold epoch_optimizer.
  rewrite (seq_S (S e) 0), fold_left_app. reflexivity.
Qed.

Lemma decay_scales_lr (o : optimizer) (x : Q) :
  Forall (fun g => (lr g == x)%Q) (param_groups o) ->
  Forall (fun g => (lr g == x * (1 # 10))%Q) (param_groups (decay o)).
Proof.
  unfold decay. simpl. intros H. induction H as [| g gs Hg _ IH]; simpl.
  - constructor.
  - constructor; [| exact IH]. simpl. rewrite Hg. reflexivity.
Qed.

Lemma decay_factor_30_45_stable (e : nat) :
  S e <> 30%nat -> S e <> 45%nat ->
  decay_factor_30_45 (S e) = decay_factor_30_45 e.
Proof.
  intros H1 H2. unfold decay_factor_30_45.
  destruct (Nat.ltb_spec (S e) 30), (Nat.ltb_spec e 30),
           (Nat.ltb_spec (S e) 45), (Nat.ltb_spec e 45);
    try reflexivity; lia.
Qed.

Lemma lr_step_30_45 (a : Args) (e : nat) (o : optimizer) :
  lr_decay_epoch a = [VInt 30; VInt 45] ->
  lr_step a e o = if (e =? 30)%nat || (e =? 45)%nat then decay o else o.
Proof.
  intros H. unfold lr_step. rewrite H. simpl.
  rewrite orb_false_r.
  destruct (Nat.eqb_spec e 30) as [-> | N1]; [reflexivity |].
  destruct (Nat.eqb_spec e 45) as [-> | N2]; [reflexivity |].
  destruct (Z.eqb_spec (Z.of_nat e) 30); [lia |].
  destruct (Z.eqb_spec (Z.of_nat e) 45); [lia |].
  reflexivity.
Qed.

(** The schedule function for the decay epochs 30 and 45. *)
Lemma epoch_optimizer_30_45 (a : Args) (o : optimizer) (L : Q) (e : nat) :
  lr_decay_epoch a = [VInt 30; VInt 45] ->
  Forall (fun g => (lr g == L)%Q) (param_groups o) ->
  Forall (fun g => (lr g == L * decay_factor_30_45 e)%Q)
         (param_groups (epoch_optimizer a o e)) /\
  (S e <> 30%nat -> S e <> 45%nat ->
   epoch_optimizer a o (S e) = epoch_optimizer a o e).
Proof.
  intros Hd HL. split.
  - induction e as [| e IH].
    + unfold epoch_optimizer. simpl fold_left.
      rewrite (lr_step_30_45 a 0 o Hd). simpl.
      eapply Forall_impl; [| exact HL].
      intros g Hg. simpl in Hg. rewrite Hg. unfold decay_factor_30_45. simpl. ring.
    + rewrite epoch_optimizer_S, (lr_step_30_45 a (S e) _ Hd).
      destruct (Nat.eqb_spec (S e) 30) as [E1 | N1].
      * simpl orb. cbv iota.
        assert (e = 29%nat) by lia. subst e.
        apply decay_scales_lr in IH.
        eapply Forall_impl; [| exact IH].
        intros g Hg. simpl in Hg. rewrite Hg.
        unfold decay_factor_30_45. simpl. ring.
      * destruct (Nat.eqb_spec (S e) 45) as [E2 | N2].
        -- simpl orb. cbv iota.
           assert (e = 44%nat) by lia. subst e.
           apply decay_scales_lr in IH.
           eapply Forall_impl; [| exact IH].
           intros g Hg. simpl in Hg. rewrite Hg.
           unfold decay_factor_30_45. simpl. ring.
        -- simpl orb. cbv iota.
           rewrite (decay_factor_30_45_stable e N1 N2). exact IH.
  - intros N1 N2.
    rewrite epoch_optimizer_S, (lr_step_30_45 a (S e) _ Hd).
    destruct (Nat.eqb_spec (S e) 30); [contradiction |].
    destruct (Nat.eqb_spec (S e) 45); [contradiction |].
    reflexivity.
Qed.

Lemma run_epoch_opt {T : Torch} (a : Args) (target_img : image)
    (poisons dset : list (image * Z)) (st st' : train_state) (e : nat) :
  run_epoch a target_img poisons dset st e = Ok st' ->
  opt st' = lr_step a e (opt st).
Proof.
  unfold run_epoch. destruct (shuffle (rng st) dset) as [order g].
  intros Hrun.
  apply bind_Ok_inv in Hrun. destruct Hrun as ([[n lm] am] & _ & Hrun).
  apply bind_Ok_inv in Hrun. destruct Hrun as (sc & _ & Hrun).
  injection Hrun as <-. reflexivity.
Qed.

Lemma epochs_opt {T : Torch} (a : Args) (target_img : image)
    (poisons dset : list (image * Z)) (l : list nat) :
  forall st st',
    foldM (run_epoch a target_img poisons dset) l st = Ok st' ->
    opt st' = fold_left (fun o epoch => lr_step a epoch o) l (opt st).
Proof.
  induction l as [| e r IH]; intros st st' Hrun; simpl in Hrun.
  - injection Hrun as <-. reflexivity.
  - apply bind_Ok_inv in Hrun. destruct Hrun as (s1 & H1 & Hrun).
    rewrite (IH _ _ Hrun), (run_epoch_opt _ _ _ _ _ _ _ H1). reflexivity.
Qed.



(** ** Retraining loop *)

Lemma foldM_app {A S : Type} (f : S -> A -> result S) (l1 l2 : list A) (s : S) :
  foldM f (l1 ++ l2) s = (s' <- foldM f l1 s ;; foldM f l2 s').
Proof.
  revert s. induction l1 as [| a r IH]; intros s; simpl.
  - reflexivity.
  - destruct (f s a) as [s1 | e]; simpl; [apply IH | reflexivity].
Qed.

Lemma foldM_invariant {A S : Type} (f : S -> A -> result S)
    (P : A -> Prop) (I : S -> Prop) :
  (forall s a, I s -> P a -> exists s', f s a = Ok s' /\ I s') ->
  forall l s, Forall P l -> I s -> exists s', foldM f l s = Ok s' /\ I s'.
Proof.
  intros Hstep l. induction l as [| a r IH]; intros s HP HI.
  - exists s. split; [reflexivity | exact HI].
  - inversion HP as [| ? ? Ha Hr]; subst.
    destruct (Hstep s a HI Ha) as (s1 & E1 & I1).
    destruct (IH s1 Hr I1) as (s2 & E2 & I2).
    exists s2. simpl. rewrite E1. simpl. split; assumption.
Qed.

Lemma chunks_fuel_nonempty {A : Type} (n : nat) :
  (0 < n)%nat ->
  forall fuel (l : list A), Forall (fun c => c <> []) (chunks_fuel fuel n l).
Proof.
  intros Hn fuel. induction fuel as [| fuel IH]; intros l; simpl.
  - constructor.
  - destruct l as [| x l'].
    + constructor.
    + constructor; [| apply IH].
      destruct n as [| n']; [lia | simpl; discriminate].
Qed.

Lemma chunks_nonempty {A : Type} (n : nat) (l : list A) :
  (0 < n)%nat -> Forall (fun c => c <> []) (chunks n l).
Proof. intros Hn. apply chunks_fuel_nonempty. exact Hn. Qed.

Lemma accuracy_top1_total (output : list (list Q)) (target : list Z) :
  target <> [] ->
  List.length output = List.length target ->
  Forall (fun row => (1 <= List.length row)%nat) output ->
  exists p, accuracy output target [1%nat] = Ok [p].
Proof.
  intros Hne Hlen Hrows.
  destruct (mapM_Ok_Forall (topk_row 1) _
              (fun row H => ex_intro _ _ (topk_row_ok 1 row H)) output Hrows)
    as [pred Hpred].
  unfold accuracy. simpl max_of. simpl bind at 1.
  rewrite Hpred. simpl bind at 1.
  unfold expand_as. rewrite Hlen, Nat.eqb_refl. cbn [bind].
  simpl mapM.
  destruct (Z.eqb_spec (Z.of_nat (List.length target)) 0) as [E | _].
  - destruct target; [contradiction | simpl in E; lia].
  - simpl. eexists. reflexivity.
Qed.

Lemma topk_row_Ok_length (k : nat) (row : list Q) (r : list nat) :
  topk_row k row = Ok r -> (k <= List.length row)%nat.
Proof.
  unfold topk_row.
  destruct (Nat.leb_spec k (List.length row)); [auto | discriminate].
Qed.

Section RetrainFacts.
Context {T : Torch}.

Variable c : nat.
Hypothesis Hconst : always_predicts c.

Lemma top1_const (n : Net) (x : image) : top1 (forward n x) = Ok (Z.of_nat c).
Proof. unfold top1. rewrite Hconst. reflexivity. Qed.

Lemma forward_rows (n : Net) (input : list image) :
  Forall (fun row => (1 <= List.length row)%nat) (map (forward n) input).
Proof.
  apply Forall_forall. intros row Hin.
  apply in_map_iff in Hin. destruct Hin as (x & <- & _).
  exact (topk_row_Ok_length 1 _ _ (Hconst n x)).
Qed.

Lemma batch_accuracy_total (n : Net) (batch : list (image * Z)) :
  batch <> [] ->
  exists p,
    accuracy (map (forward n) (map fst batch)) (map snd batch) [1%nat]
    = Ok [p].
Proof.
  intros Hne. apply accuracy_top1_total.
  - destruct batch; [contradiction | discriminate].
  - rewrite !length_map. reflexivity.
  - apply forward_rows.
Qed.

Lemma train_batch_total (o : optimizer)
    (st : Net * AverageMeter.t * AverageMeter.t) (batch : list (image * Z)) :
  meters_ok st -> batch <> [] ->
  exists st', train_batch o st batch = Ok st' /\ meters_ok st'.
Proof.
  destruct st as [[n lm] am]. intros [Hl Ha] Hne. unfold train_batch.
  destruct (batch_accuracy_total n batch Hne) as [p Hp].
  rewrite Hp. simpl bind at 1.
  change (list_index [p] 0) with (Ok p). simpl bind at 1.
  assert (Hsz : 0 < Z.of_nat (List.length (map fst batch))).
  { destruct batch; [contradiction | simpl; lia]. }
  simpl in Hl, Ha.
  rewrite update_ok by lia. simpl bind at 1.
  rewrite update_ok by lia. simpl bind at 1.
  eexists. split; [reflexivity |]. unfold meters_ok. simpl. lia.
Qed.

Lemma score_const (n : Net) (target_img : image)
    (poisons : list (image * Z)) :
  score_target_and_poisons n target_img poisons
  = Ok (Z.of_nat c, softmax (forward n target_img),
        repeat (Z.of_nat c) (List.length poisons)).
Proof.
  unfold score_target_and_poisons. rewrite top1_const. simpl bind at 1.
  assert (E : mapM (fun p => top1 (forward n (fst p))) poisons
              = Ok (repeat (Z.of_nat c) (List.length poisons))).
  { induction poisons as [| p r IH]; simpl.
    - reflexivity.
    - rewrite top1_const. simpl. rewrite IH. reflexivity. }
  rewrite E. reflexivity.
Qed.

Lemma run_epoch_total (a : Args) (target_img : image)
    (poisons dset : list (image * Z)) (st : train_state) (e : nat) :
  0 < retrain_bsize a ->
  exists st',
    run_epoch a target_img poisons dset st e = Ok st' /\
    epoch_var st' = Some e /\
    scored st' =
      (if Z.of_nat e =? retrain_epochs a - 1
       then Some (Z.of_nat c, softmax (forward (net st') target_img),
                  repeat (Z.of_nat c) (List.length poisons))
       else scored st).
Proof.
  intros Hb. unfold run_epoch.
  destruct (shuffle (rng st) dset) as [order g].
  destruct (foldM_invariant (train_batch (lr_step a e (opt st)))
              (fun b => b <> []) meters_ok
              (fun s b Hs Hne => train_batch_total _ s b Hs Hne)
              (chunks (Z.to_nat (retrain_bsize a)) order)
              (net st, AverageMeter.init, AverageMeter.init))
    as ([[n lm] am] & Hrun & _).
  - apply chunks_nonempty. lia.
  - unfold meters_ok. simpl. lia.
  - rewrite Hrun. simpl bind at 1.
    destruct (Z.of_nat e =? retrain_epochs a - 1).
    + rewrite score_const. simpl. eexists. repeat split.
    + simpl. eexists. repeat split.
Qed.

Lemma epochs_total (a : Args) (target_img : image)
    (poisons dset : list (image * Z)) :
  0 < retrain_bsize a ->
  forall (l : list nat) (st : train_state),
  exists st', foldM (run_epoch a target_img poisons dset) l st = Ok st'.
Proof.
  intros Hb l st.
  destruct (foldM_invariant (run_epoch a target_img poisons dset)
              (fun _ => True) (fun _ => True)) with (l := l) (s := st)
    as (st' & E & _).
  - intros s e _ _.
    destruct (run_epoch_total a target_img poisons dset s e Hb)
      as (s' & Hs & _).
    exists s'. split; [exact Hs | exact I].
  - apply Forall_forall. intros; exact I.
  - exact I.
  - exists st'. exact E.
Qed.

Lemma validate_batch_total (n : Net) (e : nat) (total : nat)
    (st : nat * AverageMeter.t) (batch : list (image * Z)) :
  0 <= AverageMeter.count (snd st) -> batch <> [] ->
  exists st',
    validate_batch n (Some e) total st batch = Ok st' /\
    0 <= AverageMeter.count (snd st').
Proof.
  destruct st as [ite m]. intros Hm Hne. simpl snd in Hm.
  unfold validate_batch. cbv beta iota zeta.
  generalize ((ite mod 100 =? 0) || (ite =? total - 1))%nat. intros b.
  destruct (batch_accuracy_total n batch Hne) as [p Hp].
  rewrite Hp. simpl bind at 1.
  change (list_index [p] 0) with (Ok p). simpl bind at 1.
  assert (Hsz : 0 < Z.of_nat (List.length (map fst batch))).
  { destruct batch; [contradiction | simpl; lia]. }
  rewrite update_ok by lia. simpl bind at 1.
  destruct b; (eexists; split; [reflexivity | simpl; lia]).
Qed.

Lemma validate_total (n : Net) (e : nat) (tests : list (image * Z)) :
  exists m, validate n (Some e) tests = Ok m.
Proof.
  unfold validate.
  destruct (foldM_invariant
              (validate_batch n (Some e) (List.length (chunks 500 tests)))
              (fun b => b <> [])
              (fun st => 0 <= AverageMeter.count (snd st))
              (fun s b Hs Hne => validate_batch_total n e _ s b Hs Hne)
              (chunks 500 tests) (O, AverageMeter.init))
    as (r & Hr & _).
  - apply chunks_nonempty. lia.
  - simpl. lia.
  - rewrite Hr. simpl. eexists. reflexivity.
Qed.

End RetrainFacts.

(** C9.  For a victim whose top-1 class is 3 on every input, a poison set
    of five images and at least one retraining epoch (with a positive
    batch size, and a poison label that indexes the target's scores), the
    function returns a blob whose [prediction] is 3 and whose
    [poisons predictions] is a list of five 3's, whatever the poisoned
    dataset, the test set and the shuffling are. *)
Theorem constant_predictor_result {T : Torch} (n0 : Net) (target_img : image)
    (poisons dset : list (image * Z)) (base_idx : list Z) (a : Args)
    (tests : list (image * Z)) (savemodel : string) (g0 : Rng) :
  always_predicts 3 ->
  List.length poisons = 5%nat ->
  1 <= retrain_epochs a ->
  0 < retrain_bsize a ->
  (forall n, exists s,
      list_index (softmax (forward n target_img)) (poison_label a) = Ok s) ->
  exists blob g,
    train_network_with_poison n0 target_img poisons dset base_idx a tests
                              savemodel g0 = Ok (VDict blob, g) /\
    dict_get blob (KStr "prediction") = Some (VInt 3) /\
    dict_get blob (KStr "poisons predictions")
    = Some (VList [VInt 3; VInt 3; VInt 3; VInt 3; VInt 3]).
Proof.
  intros Hconst Hlen He Hb Hidx.
  unfold train_network_with_poison, data_loader.
  destruct (Z.leb_spec (retrain_bsize a) 0) as [C | _]; [lia |].
  simpl bind at 1.
  set (E := Z.to_nat (retrain_epochs a)).
  assert (HE : seq 0 E = seq 0 (E - 1) ++ [(E - 1)%nat]).
  { replace E with (S (E - 1)) at 1 by (unfold E; lia).
    rewrite seq_S. reflexivity. }
  rewrite HE, foldM_app.
  destruct (epochs_total 3 Hconst a target_img poisons dset Hb (seq 0 (E - 1))
              {| net := n0; opt := make_optimizer a; rng := g0;
                 epoch_var := None; scored := None |}) as [st1 H1].
  rewrite H1. simpl bind at 1. simpl foldM.
  destruct (run_epoch_total 3 Hconst a target_img poisons dset st1 (E - 1)%nat Hb)
    as (st2 & H2 & Hep & Hsc).
  rewrite H2. simpl bind at 1. simpl bind at 1.
  rewrite Hep.
  destruct (validate_total 3 Hconst (net st2) (E - 1)%nat tests) as [m Hm].
  rewrite Hm. simpl bind at 1.
  replace (Z.of_nat (E - 1) =? retrain_epochs a - 1) with true in Hsc
    by (symmetry; apply Z.eqb_eq; unfold E; lia).
  rewrite Hsc, Hlen.
  destruct (Hidx (net st2)) as [s Hs]. rewrite Hs. simpl bind.
  eexists. eexists. split; [reflexivity |]. split; reflexivity.
Qed.

Lemma constant_predictor_result_witness :
  exists blob g,
    train_network_with_poison (T := Toy.torch) tt 0%nat
      (poison Toy.chk) (Toy.dataset (poison Toy.chk) (idx Toy.chk))
      (idx Toy.chk) Toy.args [(20%nat, 3); (21%nat, 4)] EmptyString tt
    = Ok (VDict blob, g) /\
    dict_get blob (KStr "prediction") = Some (VInt 3) /\
    dict_get blob (KStr "poisons predictions")
    = Some (VList [VInt 3; VInt 3; VInt 3; VInt 3; VInt 3]).
Proof.
  apply (constant_predictor_result (T := Toy.torch)).
  - intros n x. reflexivity.
  - reflexivity.
  - simpl. lia.
  - simpl. lia.
  - intros n. eexists. reflexivity.
Defined.

(** ** Log extractor *)

Lemma list_index_0_cons {A : Type} (x : A) (l : list A) :
  list_index (x :: l) 0 = Ok x.
Proof.
  unfold list_index. simpl Z.ltb. cbv iota.
  destruct (Z.leb_spec (Z.of_nat (List.length (x :: l))) 0) as [C | _].
  - simpl in C. lia.
  - reflexivity.
Qed.

Lemma mapM_tolist_plain (l : list value) :
  Forall is_tensor l -> mapM tolist l = Ok (map plain l).
Proof.
  induction 1 as [| v r [data ->] _ IH]; simpl.
  - reflexivity.
  - rewrite IH. reflexivity.
Qed.

Lemma coeffs_out_plain (v : value) :
  coeffs_wf v -> coeffs_out v = Ok (plain v).
Proof.
  intros (l & -> & Hne & Hshape).
  destruct l as [| first rest]; [contradiction |].
  unfold coeffs_out. rewrite list_index_0_cons. cbn [bind].
  destruct Hshape as [Hflat | Hnested].
  - pose proof (mapM_tolist_plain _ Hflat) as E.
    inversion Hflat as [| ? ? [data Hd] _]; subst.
    cbv iota. rewrite E. reflexivity.
  - assert (E : mapM (fun r => match r with
                               | VList rr => x <- mapM tolist rr ;; Ok (VList x)
                               | _ => Raise TypeError
                               end) (first :: rest)
                = Ok (map plain (first :: rest))).
    { clear Hne. induction Hnested as [| r rs (rr & -> & Hrr) _ IH].
      - reflexivity.
      - cbn [mapM]. rewrite (mapM_tolist_plain _ Hrr). cbn [bind].
        rewrite IH. reflexivity. }
    inversion Hnested as [| ? ? (rr & Hr & _) _]; subst.
    cbv iota. rewrite E. reflexivity.
Qed.

(** C8.  When the log is parsed and the optional checkpoint fields have
    the expected shape, [get_stats] returns a dictionary in which each of
    the six fields is taken from the checkpoint when its key is present
    (a loss as the number of its tensor, a coefficient list with its
    tensors turned into lists) and otherwise falls back to the log token
    (the two losses), to -1 (the two times) or to the empty list (the two
    coefficient lists). *)
Theorem get_stats_checkpoint_precedence {C : Clock}
    (log : option (list string)) (res : dict) (ite : Z)
    (diff : Q) (log_target_loss log_loss : string) :
  parse_log log ite = Ok (diff, log_target_loss, log_loss) ->
  field_ok one_element_tensor res "target_loss" ->
  field_ok one_element_tensor res "total_loss" ->
  field_ok coeffs_wf res "coeff_list" ->
  field_ok coeffs_wf res "coeff_list_in_victim" ->
  exists out,
    get_stats log res ite = Ok (VDict out) /\
    dict_get out (KStr "coeffs_time")
    = Some (dict_get_default res "coeffs_time" (VInt (-1))) /\
    dict_get out (KStr "poisons_time")
    = Some (dict_get_default res "poisons_time" (VInt (-1))) /\
    dict_get out (KStr "target_loss")
    = Some (match dict_get res (KStr "target_loss") with
            | Some v => scalar_of v
            | None => VStr log_target_loss
            end) /\
    dict_get out (KStr "total_loss")
    = Some (match dict_get res (KStr "total_loss") with
            | Some v => scalar_of v
            | None => VStr log_loss
            end) /\
    dict_get out (KStr "coeff_list")
    = Some (match dict_get res (KStr "coeff_list") with
            | Some v => plain v
            | None => VList []
            end) /\
    dict_get out (KStr "coeff_list_in_victim")
    = Some (match dict_get res (KStr "coeff_list_in_victim") with
            | Some v => plain v
            | None => VList []
            end).
Proof.
  intros Hlog Htl Hl Hcl Hcv.
  unfold get_stats. rewrite Hlog. cbn [bind]. unfold stats_out, dict_get_default.
  unfold field_ok in Htl, Hl, Hcl, Hcv.
  assert (E1 : match dict_get res (KStr "target_loss") with
               | Some v => item v
               | None => Ok (VStr log_target_loss)
               end
               = Ok (match dict_get res (KStr "target_loss") with
                     | Some v => scalar_of v
                     | None => VStr log_target_loss
                     end)).
  { destruct (dict_get res (KStr "target_loss")) as [v |]; [| reflexivity].
    destruct Htl as [x ->]. reflexivity. }
  assert (E2 : match dict_get res (KStr "total_loss") with
               | Some v => item v
               | None => Ok (VStr log_loss)
               end
               = Ok (match dict_get res (KStr "total_loss") with
                     | Some v => scalar_of v
                     | None => VStr log_loss
                     end)).
  { destruct (dict_get res (KStr "total_loss")) as [v |]; [| reflexivity].
    destruct Hl as [x ->]. reflexivity. }
  assert (E3 : match dict_get res (KStr "coeff_list") with
               | Some v => coeffs_out v
               | None => Ok (VList [])
               end
               = Ok (match dict_get res (KStr "coeff_list") with
                     | Some v => plain v
                     | None => VList []
                     end)).
  { destruct (dict_get res (KStr "coeff_list")) as [v |]; [| reflexivity].
    apply coeffs_out_plain. exact Hcl. }
  assert (E4 : match dict_get res (KStr "coeff_list_in_victim") with
               | Some v => coeffs_out v
               | None => Ok (VList [])
               end
               = Ok (match dict_get res (KStr "coeff_list_in_victim") with
                     | Some v => plain v
                     | None => VList []
                     end)).
  { destruct (dict_get res (KStr "coeff_list_in_victim")) as [v |];
      [| reflexivity].
    apply coeffs_out_plain. exact Hcv. }
  rewrite E1. cbn [bind]. rewrite E2. cbn [bind].
  rewrite E3. cbn [bind]. rewrite E4. cbn [bind].
  eexists. split; [reflexivity |].
  repeat split; reflexivity.
Qed.

Lemma get_stats_checkpoint_precedence_witness :
  exists out,
    get_stats (C := Toy.clock) (Some Toy.log)
      [(KStr "target_loss", VTensor [1 # 4]%Q);
       (KStr "coeffs_time", VFloat (7 # 2));
       (KStr "coeff_list", VList [VTensor [1 # 2; 1 # 2]%Q; VTensor [1]%Q])]
      800
    = Ok (VDict out) /\
    dict_get out (KStr "coeffs_time") = Some (VFloat (7 # 2)) /\
    dict_get out (KStr "poisons_time") = Some (VInt (-1)) /\
    dict_get out (KStr "target_loss") = Some (VFloat (1 # 4)) /\
    dict_get out (KStr "total_loss") = Some (VStr "1.5") /\
    dict_get out (KStr "coeff_list")
    = Some (VList [VList [VFloat (1 # 2); VFloat (1 # 2)]; VList [VFloat 1]]) /\
    dict_get out (KStr "coeff_list_in_victim") = Some (VList []).
Proof.
  apply (get_stats_checkpoint_precedence (C := Toy.clock) (Some Toy.log)
           [(KStr "target_loss", VTensor [1 # 4]%Q);
            (KStr "coeffs_time", VFloat (7 # 2));
            (KStr "coeff_list", VList [VTensor [1 # 2; 1 # 2]%Q; VTensor [1]%Q])]
           800 0%Q "0.5" "1.5").
  - reflexivity.
  - exists (1 # 4)%Q. reflexivity.
  - exact I.
  - exists [VTensor [1 # 2; 1 # 2]%Q; VTensor [1]%Q].
    split; [reflexivity |]. split; [discriminate |].
    left. repeat constructor; eexists; reflexivity.
  - exact I.
Defined.

(** ** Dictionaries and JSON *)

Lemma key_eqb_spec (a b : key) : reflect (a = b) (key_eqb a b).
Proof.
  destruct a as [x | x], b as [y | y]; simpl.
  - destruct (Z.eqb_spec x y); constructor; congruence.
  - constructor; discriminate.
  - constructor; discriminate.
  - destruct (String.eqb_spec x y); constructor; congruence.
Qed.

Lemma dict_get_set (d : dict) (k k' : key) (v : value) :
  dict_get (dict_set d k v) k'
  = if key_eqb k' k then Some v else dict_get d k'.
Proof.
  induction d as [| [k0 v0] r IH]; simpl.
  - reflexivity.
  - destruct (key_eqb_spec k k0) as [-> | N]; simpl.
    + destruct (key_eqb k' k0); reflexivity.
    + rewrite IH. destruct (key_eqb_spec k' k0) as [-> | N'].
      * destruct (key_eqb_spec k0 k); [congruence | reflexivity].
      * reflexivity.
Qed.

Lemma load_members_get (ms : list (string * json)) :
  forall (acc : dict) (k : key) (v : value),
    dict_get (load_members json_load ms acc) k = Some v ->
    dict_get acc k = Some v \/ exists x, v = json_load x.
Proof.
  induction ms as [| [s x] r IH]; intros acc k v Hg; simpl in Hg.
  - left. exact Hg.
  - destruct (IH _ _ _ Hg) as [Hacc | Hx]; [| right; exact Hx].
    rewrite dict_get_set in Hacc.
    destruct (key_eqb k (KStr s)).
    + right. exists x. congruence.
    + left. exact Hacc.
Qed.

Lemma load_members_no_int_key (f : json -> value) (ms : list (string * json)) :
  forall (acc : dict) (z : Z),
    dict_get acc (KInt z) = None ->
    dict_get (load_members f ms acc) (KInt z) = None.
Proof.
  induction ms as [| [s x] r IH]; intros acc z Hacc; simpl.
  - exact Hacc.
  - apply IH. rewrite dict_get_set. simpl. exact Hacc.
Qed.

Lemma json_load_dict_inv (j : json) (d : dict) :
  json_load j = VDict d ->
  exists ms, j = JObj ms /\ d = load_members json_load ms [].
Proof.
  destruct j; simpl; intros E; try discriminate E.
  injection E as <-. eexists. split; reflexivity.
Qed.

(** A dictionary decoded from JSON has no integer key. *)
Lemma json_load_no_int_key (j : json) (d : dict) (z : Z) :
  json_load j = VDict d -> dict_get d (KInt z) = None.
Proof.
  intros E. destruct (json_load_dict_inv j d E) as (ms & _ & ->).
  apply load_members_no_int_key. reflexivity.
Qed.

(** A member of a dictionary decoded from JSON is itself decoded from
    JSON. *)
Lemma json_load_member (j : json) (d : dict) (k : key) (v : value) :
  json_load j = VDict d -> dict_get d k = Some v -> exists x, v = json_load x.
Proof.
  intros E Hg. destruct (json_load_dict_inv j d E) as (ms & _ & ->).
  destruct (load_members_get ms [] k v Hg) as [C | Hx];
    [discriminate C | exact Hx].
Qed.

(** ** Sweep *)

Lemma subseq_Forall {A : Type} (P : A -> Prop) (l1 l2 : list A) :
  subseq l1 l2 -> Forall P l2 -> Forall P l1.
Proof.
  induction 1 as [l | x l1 l2 _ IH | x l1 l2 _ IH]; intros HF.
  - constructor.
  - inversion HF; subst. auto.
  - inversion HF; subst. constructor; auto.
Qed.

Lemma subseq_sorted {A : Type} (R : A -> A -> Prop) (l1 l2 : list A) :
  subseq l1 l2 -> StronglySorted R l2 -> StronglySorted R l1.
Proof.
  induction 1 as [l | x l1 l2 _ IH | x l1 l2 Hs IH]; intros HS.
  - constructor.
  - inversion HS; subst. auto.
  - inversion HS as [| ? ? Hs2 HF]; subst. constructor; [auto |].
    exact (subseq_Forall _ _ _ Hs HF).
Qed.

Lemma ite_lines_app (l1 l2 : list line) :
  ite_lines (l1 ++ l2) = ite_lines l1 ++ ite_lines l2.
Proof. unfold ite_lines. apply flat_map_app. Qed.

Section SweepFacts.
Context {T : Torch} {C : Clock} {H : Host}.

Lemma bindM_inv {A B : Type} (c : M A) (k : A -> M B) (st st' : pstate)
    (r : result B) :
  bindM c k st = (r, st') ->
  (exists a st1, c st = (Ok a, st1) /\ k a st1 = (r, st')) \/
  (exists e, c st = (Raise e, st') /\ r = Raise e).
Proof.
  unfold bindM. destruct (c st) as [[a | e] st1]; intros E.
  - left. exists a, st1. split; [reflexivity | exact E].
  - right. exists e. injection E as <- <-. split; reflexivity.
Qed.

Lemma extends_refl (st : pstate) : extends st st [].
Proof. unfold extends. rewrite app_nil_r. repeat split. Qed.

Lemma extends_trans (s1 s2 s3 : pstate) (n1 n2 : list line) :
  extends s1 s2 n1 -> extends s2 s3 n2 -> extends s1 s3 (n1 ++ n2).
Proof.
  intros (F1 & D1 & P1) (F2 & D2 & P2). unfold extends.
  rewrite F2, D2, P2, F1, D1, P1, app_assoc. repeat split.
Qed.

Lemma print_inv (l : line) (st st' : pstate) (r : result unit) :
  print l st = (r, st') -> r = Ok tt /\ extends st st' [l].
Proof.
  unfold print. intros E. injection E as <- <-.
  split; [reflexivity |]. unfold extends. simpl. repeat split.
Qed.

Lemma lift_inv {A : Type} (x : result A) (st st' : pstate) (r : result A) :
  lift x st = (r, st') -> r = x /\ st' = st.
Proof. unfold lift. intros E. injection E as <- <-. split; reflexivity. Qed.

Lemma with_rng_inv {A : Type} (f : Rng -> result (A * Rng))
    (st st' : pstate) (r : result A) :
  with_rng f st = (r, st') -> extends st st' [].
Proof.
  unfold with_rng. destruct (f (grng st)) as [[a g] | e]; intros E;
    injection E as <- <-; unfold extends; simpl; rewrite app_nil_r;
    repeat split.
Qed.

Lemma set_base_idx_list_inv (l : list Z) (st st' : pstate) (r : result unit) :
  set_base_idx_list l st = (r, st') -> r = Ok tt /\ extends st st' [].
Proof.
  unfold set_base_idx_list. intros E. injection E as <- <-.
  split; [reflexivity |]. unfold extends. simpl. rewrite app_nil_r.
  repeat split.
Qed.

Lemma quiet_bind {A B : Type} (c : M A) (k : A -> M B) :
  quiet c -> (forall a, quiet (k a)) -> quiet (bindM c k).
Proof.
  intros Hc Hk st r st' Hrun. apply bindM_inv in Hrun.
  destruct Hrun as [(a & s1 & H1 & H2) | (e & H1 & _)].
  - destruct (Hc _ _ _ H1) as (n1 & E1 & L1).
    destruct (Hk a _ _ _ H2) as (n2 & E2 & L2).
    exists (n1 ++ n2). split; [eapply extends_trans; eassumption |].
    rewrite ite_lines_app, L1, L2. reflexivity.
  - exact (Hc _ _ _ H1).
Qed.

Lemma quiet_lift {A : Type} (x : result A) : quiet (lift x).
Proof.
  intros st r st' E. apply lift_inv in E. destruct E as [_ ->].
  exists []. split; [apply extends_refl | reflexivity].
Qed.

Lemma quiet_ret {A : Type} (x : A) : quiet (ret x).
Proof.
  intros st r st' E. unfold ret in E. injection E as <- <-.
  exists []. split; [apply extends_refl | reflexivity].
Qed.

Lemma quiet_print (l : line) :
  ite_lines [l] = [] -> quiet (print l).
Proof.
  intros Hl st r st' E. apply print_inv in E. destruct E as [_ E].
  exists [l]. split; assumption.
Qed.

Lemma quiet_with_rng {A : Type} (f : Rng -> result (A * Rng)) :
  quiet (with_rng f).
Proof.
  intros st r st' E. apply with_rng_inv in E.
  exists []. split; [exact E | reflexivity].
Qed.

Lemma quiet_set_base_idx_list (l : list Z) : quiet (set_base_idx_list l).
Proof.
  intros st r st' E. apply set_base_idx_list_inv in E. destruct E as [_ E].
  exists []. split; [exact E | reflexivity].
Qed.

Lemma victims_loop_quiet (a : Args) (t ite : Z) (target : image)
    (chk : checkpoint) (dset : list (image * Z)) (names : list string) :
  forall victims, quiet (victims_loop a t ite target chk dset names victims).
Proof.
  induction names as [| name rest IH]; intros victims; simpl.
  - apply quiet_ret.
  - apply quiet_bind; [apply quiet_print; reflexivity | intros _].
    apply quiet_bind; [apply quiet_with_rng | intros n].
    apply quiet_bind; [apply quiet_with_rng | intros v].
    apply IH.
Qed.

Lemma compute_ite_quiet (a : Args) (t ite : Z) (target : image)
    (chk : checkpoint) : quiet (compute_ite a t ite target chk).
Proof.
  unfold compute_ite.
  apply quiet_bind; [apply quiet_set_base_idx_list | intros _].
  apply quiet_bind; [apply quiet_print; reflexivity | intros _].
  apply quiet_bind; [apply quiet_print; reflexivity | intros _].
  apply quiet_bind; [apply quiet_lift | intros blob].
  apply quiet_bind; [apply quiet_lift | intros blob'].
  apply quiet_bind; [apply victims_loop_quiet | intros victims].
  apply quiet_lift.
Qed.

(** The loop prints the iterations it attempts in the order of [todo],
    and touches neither the results files nor the directories. *)
Lemma ite_loop_extends (a : Args) (t : Z) (target : image) (all_res : value)
    (todo : list Z) :
  forall (res : dict) (st st' : pstate) (r : result (dict * bool)),
    ite_loop a t target all_res todo res st = (r, st') ->
    exists new, extends st st' new /\ subseq (ite_lines new) todo.
Proof.
  induction todo as [| ite rest IH]; intros res st st' r Hrun.
  - simpl in Hrun. injection Hrun as <- <-.
    exists []. split; [apply extends_refl | constructor].
  - simpl in Hrun.
    apply bindM_inv in Hrun.
    destruct Hrun as [(rec & s1 & H1 & Hrun) | (e & H1 & _)];
      apply lift_inv in H1; destruct H1 as [_ ->];
      [| exists []; split; [apply extends_refl | constructor]].
    apply bindM_inv in Hrun.
    destruct Hrun as [(present & s1 & H1 & Hrun) | (e & H1 & _)];
      apply lift_inv in H1; destruct H1 as [_ ->];
      [| exists []; split; [apply extends_refl | constructor]].
    destruct present.
    { destruct (IH _ _ _ _ Hrun) as (new & E & S).
      exists new. split; [exact E | apply subseq_skip; exact S]. }
    apply bindM_inv in Hrun.
    destruct Hrun as [(u1 & s1 & H1 & Hrun) | (e & H1 & _)];
      apply print_inv in H1; destruct H1 as [H1 E1]; [| discriminate H1].
    apply bindM_inv in Hrun.
    destruct Hrun as [(u2 & s2 & H2 & Hrun) | (e & H2 & _)];
      apply print_inv in H2; destruct H2 as [H2 E2]; [| discriminate H2].
    pose proof (extends_trans _ _ _ _ _ E1 E2) as E12.
    destruct (checkpoint_file t (ite - 1)) as [chk |].
    + apply bindM_inv in Hrun.
      destruct Hrun as [(blob & s3 & H3 & Hrun) | (e & H3 & _)];
        destruct (compute_ite_quiet _ _ _ _ _ _ _ _ H3) as (n3 & E3 & L3).
      * destruct (IH _ _ _ _ Hrun) as (n4 & E4 & S4).
        exists ((([PIte ite] ++ [PLoading t (ite - 1)]) ++ n3) ++ n4).
        split; [eapply extends_trans; [eapply extends_trans |]; eassumption |].
        rewrite !ite_lines_app, L3. simpl.
        apply subseq_take. exact S4.
      * exists (([PIte ite] ++ [PLoading t (ite - 1)]) ++ n3).
        split; [eapply extends_trans; eassumption |].
        rewrite !ite_lines_app, L3. simpl.
        apply subseq_take. constructor.
    + apply bindM_inv in Hrun.
      destruct Hrun as [(u3 & s3 & H3 & Hrun) | (e & H3 & _)];
        apply print_inv in H3; destruct H3 as [H3 E3]; [| discriminate H3].
      unfold ret in Hrun. injection Hrun as _ <-.
      exists (([PIte ite] ++ [PLoading t (ite - 1)]) ++ [PSkipping t]).
      split; [eapply extends_trans; eassumption |].
      simpl. apply subseq_take. constructor.
Qed.

Lemma silent_bind {A B : Type} (c : M A) (k : A -> M B) :
  silent c -> (forall a, silent (k a)) -> silent (bindM c k).
Proof.
  intros Hc Hk st r st' Hrun. apply bindM_inv in Hrun.
  destruct Hrun as [(a & s1 & H1 & H2) | (e & H1 & _)].
  - rewrite (Hk a _ _ _ H2). exact (Hc _ _ _ H1).
  - exact (Hc _ _ _ H1).
Qed.

Lemma silent_lift {A : Type} (x : result A) : silent (lift x).
Proof. intros st r st' E. apply lift_inv in E. destruct E as [_ ->]. reflexivity. Qed.

Lemma silent_set_results_file (t : Z) (c : file_content) :
  silent (set_results_file t c).
Proof. intros st r st' E. injection E as _ <-. reflexivity. Qed.

Lemma silent_raise {A : Type} (e : exn) : silent (@raise _ A e).
Proof. intros st r st' E. injection E as _ <-. reflexivity. Qed.

Lemma persist_silent (t : Z) (all_res : value) (res : dict) :
  silent (persist t all_res res).
Proof.
  unfold persist.
  apply silent_bind; [apply silent_lift | intros targets].
  apply silent_bind; [apply silent_lift | intros targets'].
  apply silent_bind; [apply silent_lift | intros all_res'].
  apply silent_bind.
  { intros st r st' E. injection E as _ <-. reflexivity. }
  intros b.
  apply silent_bind; [apply silent_lift | intros all_res''].
  destruct (json_dump all_res'') as [j | e].
  - apply silent_set_results_file.
  - apply silent_bind; [apply silent_set_results_file | intros _].
    apply silent_raise.
Qed.

Lemma ensure_models_dir_silent (t : Z) : silent (ensure_models_dir t).
Proof.
  intros st r st' E. unfold ensure_models_dir in E.
  destruct (models_dir st t); [injection E as _ <-; reflexivity |].
  destruct (target_dir_exists t); injection E as _ <-; reflexivity.
Qed.

Lemma read_json_silent (t : Z) : silent (read_json t).
Proof.
  intros st r st' E. unfold read_json in E.
  destruct (results_file st t) as [[j |] |]; injection E as _ <-; reflexivity.
Qed.

(** The lines a pass over one target index prints: [Target_index: t],
    then lines among which the [ITE: n] follow the reversed list. *)
Lemma process_target_lines (a : Args) (t : Z) (st st' : pstate)
    (r : result unit) :
  process_target a t st = (r, st') ->
  exists new,
    printed st' = printed st ++ PTarget t :: new /\
    subseq (ite_lines new) (rev ites).
Proof.
  unfold process_target. intros Hrun.
  apply bindM_inv in Hrun.
  destruct Hrun as [(u & s1 & H1 & Hrun) | (e & H1 & _)];
    apply print_inv in H1; destruct H1 as [H1 (_ & _ & P1)];
    [| discriminate H1].
  assert (Hstop : forall s, printed s = printed s1 ->
            exists new, printed s = printed st ++ PTarget t :: new /\
                        subseq (ite_lines new) (rev ites)).
  { intros s Hs. exists []. rewrite Hs, P1. split; [reflexivity | constructor]. }
  apply bindM_inv in Hrun.
  destruct Hrun as [(u2 & s2 & H2 & Hrun) | (e & H2 & _)];
    apply ensure_models_dir_silent in H2; [| apply Hstop; exact H2].
  apply bindM_inv in Hrun.
  destruct Hrun as [(loaded & s3 & H3 & Hrun) | (e & H3 & _)];
    apply read_json_silent in H3; [| apply Hstop; congruence].
  apply bindM_inv in Hrun.
  destruct Hrun as [(all_res & s4 & H4 & Hrun) | (e & H4 & _)];
    apply silent_lift in H4; [| apply Hstop; congruence].
  apply bindM_inv in Hrun.
  destruct Hrun as [(res & s5 & H5 & Hrun) | (e & H5 & _)];
    destruct (ite_loop_extends _ _ _ _ _ _ _ _ _ H5) as (new & (_ & _ & P5) & S5).
  - exists new. split; [| exact S5].
    assert (P6 : printed st' = printed s5).
    { destruct (snd res).
      - exact (persist_silent _ _ _ _ _ _ Hrun).
      - injection Hrun as _ <-. reflexivity. }
    rewrite P6, P5, H4, H3, H2, P1, <- app_assoc. reflexivity.
  - exists new. split; [| exact S5].
    rewrite P5, H4, H3, H2, P1, <- app_assoc. reflexivity.
Qed.

Lemma init_all_res_record (a : Args) (t : Z) (c : option file_content) :
  record_is_dict c t ->
  exists loaded all_res,
    match c with
    | None => Ok (VDict [])
    | Some (Text j) => Ok (json_load j)
    | Some Truncated => Raise ValueError
    end = Ok loaded /\
    init_all_res a t loaded = Ok all_res /\
    nothing_recorded all_res t.
Proof.
  assert (Hself : forall s v rest,
             dict_get ((KStr s, v) :: rest) (KStr s) = Some v).
  { intros s v rest. simpl. rewrite String.eqb_refl. reflexivity. }
  unfold record_is_dict. destruct c as [[j |] |]; intros Hc.
  - destruct Hc as (all & Hload & Hshape). rewrite Hload.
    exists (VDict all). unfold init_all_res. cbn [store_str bind].
    set (all3 := dict_set (dict_set (dict_set all (KStr "args") _)
                             (KStr "poison_label") _)
                          (KStr "target_label") _).
    assert (Hk : dict_get all3 (KStr "targets")
                 = dict_get all (KStr "targets")).
    { unfold all3. rewrite !dict_get_set. reflexivity. }
    unfold dict_mem. rewrite Hk.
    destruct Hshape as [Hnone | (targets & d & Htargets & Hd)].
    + rewrite Hnone. eexists. split; [reflexivity |]. split; [reflexivity |].
      exists []. split; [| reflexivity].
      unfold recorded, subscript_str.
      rewrite dict_get_set.
      change (key_eqb (KStr "targets") (KStr "targets")) with true.
      cbn [bind]. rewrite Hself. reflexivity.
    + rewrite Htargets. eexists. split; [reflexivity |]. split; [reflexivity |].
      exists d. split.
      * unfold recorded, subscript_str. rewrite Hk, Htargets. cbn [bind].
        rewrite Hd. reflexivity.
      * intros z.
        destruct (json_load_member j all _ _ Hload Htargets) as [x Hx].
        destruct (json_load_member x targets _ _ (eq_sym Hx) Hd) as [y Hy].
        exact (json_load_no_int_key y d z (eq_sym Hy)).
  - contradiction.
  - exists (VDict []). eexists. split; [reflexivity |]. split; [reflexivity |].
    exists []. split; [| reflexivity].
    unfold recorded, subscript_str. rewrite dict_get_set.
    change (key_eqb (KStr "targets") (KStr "targets")) with true.
    cbn [bind]. rewrite Hself. reflexivity.
Qed.

(** With nothing recorded, the loop attempts the next iteration. *)
Lemma ite_loop_cons_pending (a : Args) (t : Z) (target : image)
    (all_res : value) (ite : Z) (rest : list Z) (res : dict) (st : pstate) :
  nothing_recorded all_res t ->
  ite_loop a t target all_res (ite :: rest) res st
  = bindM (print (PIte ite))
      (fun _ => bindM (print (PLoading t (ite - 1)))
         (fun _ =>
            match checkpoint_file t (ite - 1) with
            | None => bindM (print (PSkipping t)) (fun _ => ret (res, false))
            | Some chk =>
                bindM (compute_ite a t ite target chk)
                  (fun blob => ite_loop a t target all_res rest
                                 (dict_set res (KInt ite) blob))
            end)) st.
Proof.
  intros (d & Hrec & Hd). cbn [ite_loop].
  unfold bindM at 1. unfold lift at 1. rewrite Hrec.
  unfold bindM at 1. unfold lift at 1. cbn [int_in].
  unfold dict_mem. rewrite Hd. reflexivity.
Qed.

(** A missing checkpoint among the iterations still to visit: the loop
    never ends with [no_save] still true. *)
Lemma ite_loop_missing_no_save (a : Args) (t : Z) (target : image)
    (all_res : value) (todo : list Z) :
  nothing_recorded all_res t ->
  (exists k, In k todo /\ checkpoint_file t (k - 1) = None) ->
  forall (res : dict) (st st' : pstate) (r : result (dict * bool)),
    ite_loop a t target all_res todo res st = (r, st') ->
    forall res', r <> Ok (res', true).
Proof.
  intros Hrec. induction todo as [| ite rest IH];
    intros (k & Hin & Hk) res st st' r Hrun res'.
  - contradiction.
  - rewrite (ite_loop_cons_pending _ _ _ _ _ _ _ _ Hrec) in Hrun.
    apply bindM_inv in Hrun.
    destruct Hrun as [(u1 & s1 & _ & Hrun) | (e & _ & ->)]; [| discriminate].
    apply bindM_inv in Hrun.
    destruct Hrun as [(u2 & s2 & _ & Hrun) | (e & _ & ->)]; [| discriminate].
    destruct (checkpoint_file t (ite - 1)) as [chk |] eqn:Hchk.
    + apply bindM_inv in Hrun.
      destruct Hrun as [(blob & s3 & _ & Hrun) | (e & _ & ->)];
        [| discriminate].
      apply (IH) with (res' := res') in Hrun; [exact Hrun |].
      destruct Hin as [-> | Hin]; [congruence |].
      exists k. split; assumption.
    + apply bindM_inv in Hrun.
      destruct Hrun as [(u3 & s3 & _ & Hrun) | (e & _ & ->)];
        [| discriminate].
      unfold ret in Hrun. injection Hrun as <- _. discriminate.
Qed.

(** The iterations visited before the missing one are computed without
    error: the loop reaches the missing checkpoint, prints
    [skipping target] and ends with [no_save] false. *)
Lemma ite_loop_stops (a : Args) (t : Z) (target : image) (all_res : value)
    (k : Z) (below : list Z) :
  nothing_recorded all_res t ->
  checkpoint_file t (k - 1) = None ->
  forall above : list Z,
    (forall ite, In ite above ->
       exists chk, checkpoint_file t (ite - 1) = Some chk /\
         forall s, exists blob s',
           compute_ite a t ite target chk s = (Ok blob, s')) ->
    forall (res : dict) (st : pstate),
    exists res' st',
      ite_loop a t target all_res (above ++ k :: below) res st
      = (Ok (res', false), st') /\
      In (PSkipping t) (printed st').
Proof.
  intros Hrec Hk above. induction above as [| ite above IH];
    intros Habove res st.
  - simpl app. rewrite (ite_loop_cons_pending _ _ _ _ _ _ _ _ Hrec), Hk.
    eexists. eexists. split; [reflexivity |].
    simpl. apply in_or_app. right. simpl. auto.
  - simpl app. rewrite (ite_loop_cons_pending _ _ _ _ _ _ _ _ Hrec).
    destruct (Habove ite (or_introl eq_refl)) as (chk & Hchk & Hcomp).
    rewrite Hchk.
    unfold bindM at 1. unfold print at 1.
    unfold bindM at 1. unfold print at 1.
    unfold bindM at 1.
    match goal with
    | |- context [compute_ite a t ite target chk ?s] =>
        destruct (Hcomp s) as (blob & s' & Hs)
    end.
    rewrite Hs.
    apply IH. intros ite' Hin. apply Habove. right. exact Hin.
Qed.

Lemma bindM_ok {A B : Type} (c : M A) (k : A -> M B) (st s1 : pstate)
    (x : A) :
  c st = (Ok x, s1) -> bindM c k st = k x s1.
Proof. intros E. unfold bindM. rewrite E. reflexivity. Qed.

Lemma read_json_eq (t : Z) (s : pstate) :
  read_json t s
  = (match results_file s t with
     | None => Ok (VDict [])
     | Some (Text j) => Ok (json_load j)
     | Some Truncated => Raise ValueError
     end, s).
Proof.
  unfold read_json. destruct (results_file s t) as [[j |] |]; reflexivity.
Qed.

Lemma ensure_models_dir_keeps_files (t : Z) (s s' : pstate) (r : result unit) :
  ensure_models_dir t s = (r, s') -> results_file s' = results_file s.
Proof.
  unfold ensure_models_dir. intros E.
  destruct (models_dir s t); [injection E as _ <-; reflexivity |].
  destruct (target_dir_exists t); injection E as _ <-; reflexivity.
Qed.

Lemma ensure_models_dir_ok (t : Z) (s : pstate) :
  models_dir s t = true \/ target_dir_exists t = true ->
  exists s', ensure_models_dir t s = (Ok tt, s').
Proof.
  unfold ensure_models_dir. intros [E | E].
  - rewrite E. eexists. reflexivity.
  - destruct (models_dir s t); [eexists; reflexivity |].
    rewrite E. eexists. reflexivity.
Qed.

(** A pass over a target index one of whose checkpoints is missing
    leaves every results file as it was, whether it ends normally or
    with an exception. *)
Lemma process_target_missing_keeps_files (a : Args) (t : Z) (st st' : pstate)
    (r : result unit) :
  (exists k, In k ites /\ checkpoint_file t (k - 1) = None) ->
  record_is_dict (results_file st t) t ->
  process_target a t st = (r, st') ->
  results_file st' = results_file st.
Proof.
  intros (k & Hin & Hk) Hrec. unfold process_target. intros Hrun.
  apply bindM_inv in Hrun.
  destruct Hrun as [(u & s1 & H1 & Hrun) | (e & H1 & _)];
    apply print_inv in H1; destruct H1 as [_ (F1 & _ & _)];
    [| exact F1].
  apply bindM_inv in Hrun.
  destruct Hrun as [(u2 & s2 & H2 & Hrun) | (e & H2 & _)];
    apply ensure_models_dir_keeps_files in H2; [| congruence].
  rewrite <- F1, <- H2 in Hrec.
  destruct (init_all_res_record a t _ Hrec) as (loaded & all_res & Hl & Hi & Hn).
  apply bindM_inv in Hrun. rewrite read_json_eq, Hl in Hrun.
  destruct Hrun as [(x & s3 & H3 & Hrun) | (e & H3 & _)];
    [| discriminate H3].
  injection H3 as <- <-.
  apply bindM_inv in Hrun. unfold lift in Hrun. rewrite Hi in Hrun.
  destruct Hrun as [(x & s4 & H4 & Hrun) | (e & H4 & _)];
    [| discriminate H4].
  injection H4 as <- <-.
  apply bindM_inv in Hrun.
  destruct Hrun as [(res & s5 & H5 & Hrun) | (e & H5 & _)].
  - destruct (ite_loop_extends _ _ _ _ _ _ _ _ _ H5) as (new & (F5 & _ & _) & _).
    destruct res as [res' no_save]. destruct no_save.
    + exfalso.
      refine (ite_loop_missing_no_save a t _ all_res (rev ites) Hn _
                _ _ _ _ H5 res' eq_refl).
      exists k. split; [apply in_rev; rewrite rev_involutive; exact Hin | exact Hk].
    + simpl in Hrun. injection Hrun as _ <-. congruence.
  - destruct (ite_loop_extends _ _ _ _ _ _ _ _ _ H5) as (new & (F5 & _ & _) & _).
    congruence.
Qed.

(** *** The iterations a pass attempts *)

Lemma skip_lines_app (l1 l2 : list line) :
  skip_lines (l1 ++ l2) = skip_lines l1 ++ skip_lines l2.
Proof. unfold skip_lines. apply flat_map_app. Qed.

Lemma work_lines_plain (ls : list line) :
  forallb work_line ls = true -> ite_lines ls = [] /\ skip_lines ls = [].
Proof.
  induction ls as [| l r IH]; intros Hw.
  - split; reflexivity.
  - simpl in Hw. apply andb_prop in Hw. destruct Hw as [Hl Hr].
    destruct (IH Hr) as [I1 I2].
    destruct l; try discriminate Hl; simpl; split; assumption.
Qed.

Lemma works_bind {A B : Type} (c : M A) (k : A -> M B) :
  works c -> (forall a, works (k a)) -> works (bindM c k).
Proof.
  intros Hc Hk st r st' Hrun. apply bindM_inv in Hrun.
  destruct Hrun as [(a & s1 & H1 & H2) | (e & H1 & _)].
  - destruct (Hc _ _ _ H1) as (n1 & E1 & L1).
    destruct (Hk a _ _ _ H2) as (n2 & E2 & L2).
    exists (n1 ++ n2). split; [eapply extends_trans; eassumption |].
    rewrite forallb_app, L1, L2. reflexivity.
  - exact (Hc _ _ _ H1).
Qed.

Lemma works_lift {A : Type} (x : result A) : works (lift x).
Proof.
  intros st r st' E. apply lift_inv in E. destruct E as [_ ->].
  exists []. split; [apply extends_refl | reflexivity].
Qed.

Lemma works_ret {A : Type} (x : A) : works (ret x).
Proof.
  intros st r st' E. unfold ret in E. injection E as <- <-.
  exists []. split; [apply extends_refl | reflexivity].
Qed.

Lemma works_print (l : line) : work_line l = true -> works (print l).
Proof.
  intros Hl st r st' E. apply print_inv in E. destruct E as [_ E].
  exists [l]. split; [exact E | simpl; rewrite Hl; reflexivity].
Qed.

Lemma works_with_rng {A : Type} (f : Rng -> result (A * Rng)) :
  works (with_rng f).
Proof.
  intros st r st' E. apply with_rng_inv in E.
  exists []. split; [exact E | reflexivity].
Qed.

Lemma works_set_base_idx_list (l : list Z) : works (set_base_idx_list l).
Proof.
  intros st r st' E. apply set_base_idx_list_inv in E. destruct E as [_ E].
  exists []. split; [exact E | reflexivity].
Qed.

Lemma victims_loop_works (a : Args) (t ite : Z) (target : image)
    (chk : checkpoint) (dset : list (image * Z)) (names : list string) :
  forall victims, works (victims_loop a t ite target chk dset names victims).
Proof.
  induction names as [| name rest IH]; intros victims; simpl.
  - apply works_ret.
  - apply works_bind; [apply works_print; reflexivity | intros _].
    apply works_bind; [apply works_with_rng | intros n].
    apply works_bind; [apply works_with_rng | intros v].
    apply IH.
Qed.

Lemma compute_ite_works (a : Args) (t ite : Z) (target : image)
    (chk : checkpoint) : works (compute_ite a t ite target chk).
Proof.
  unfold compute_ite.
  apply works_bind; [apply works_set_base_idx_list | intros _].
  apply works_bind; [apply works_print; reflexivity | intros _].
  apply works_bind; [apply works_print; reflexivity | intros _].
  apply works_bind; [apply works_lift | intros blob].
  apply works_bind; [apply works_lift | intros blob'].
  apply works_bind; [apply victims_loop_works | intros victims].
  apply works_lift.
Qed.

Lemma to_attempt_passed (all_res : value) (t ite : Z) (rest : list Z)
    (rec : value) :
  recorded all_res t = Ok rec -> int_in ite rec = Ok true ->
  to_attempt all_res t (ite :: rest) = to_attempt all_res t rest.
Proof.
  intros Hrec Hin. unfold to_attempt. cbn [filter].
  unfold skipped at 1. rewrite Hrec. cbn [bind]. rewrite Hin. reflexivity.
Qed.

Lemma to_attempt_pending (all_res : value) (t ite : Z) (rest : list Z)
    (rec : value) :
  recorded all_res t = Ok rec -> int_in ite rec = Ok false ->
  to_attempt all_res t (ite :: rest) = ite :: to_attempt all_res t rest.
Proof.
  intros Hrec Hin. unfold to_attempt. cbn [filter].
  unfold skipped at 1. rewrite Hrec. cbn [bind]. rewrite Hin. reflexivity.
Qed.

(** What a run of the loop over [todo] attempts: the first [k] of the
    iterations it does not pass over, each but the last with its
    checkpoint; all of them when it ends with [no_save] true, and up to
    the first one whose checkpoint is missing when it prints
    [skipping target]. *)
Lemma ite_loop_visits (a : Args) (t : Z) (target : image) (all_res : value)
    (todo : list Z) :
  forall (res : dict) (st st' : pstate) (r : result (dict * bool)),
    ite_loop a t target all_res todo res st = (r, st') ->
    exists new k,
      extends st st' new /\
      ite_lines new = firstn k (to_attempt all_res t todo) /\
      (k <= List.length (to_attempt all_res t todo))%nat /\
      (forall i, (S i < k)%nat ->
         checkpoint_file t (nth i (to_attempt all_res t todo) 0 - 1)
         <> None) /\
      (forall res', r = Ok (res', true) ->
         k = List.length (to_attempt all_res t todo)) /\
      (forall res', r = Ok (res', false) -> skip_lines new <> []) /\
      (skip_lines new <> [] ->
         (1 <= k)%nat /\
         checkpoint_file t (nth (k - 1) (to_attempt all_res t todo) 0 - 1)
         = None) /\
      (test_defined all_res t = true -> to_attempt all_res t todo <> [] ->
       (1 <= k)%nat).
Proof.
  induction todo as [| ite rest IH]; intros res st st' r Hrun.
  - simpl in Hrun. injection Hrun as <- <-.
    exists [], 0%nat. split; [apply extends_refl |].
    simpl.
    repeat split; try reflexivity; try lia; try discriminate; congruence.
  - simpl in Hrun.
    apply bindM_inv in Hrun.
    destruct Hrun as [(rec & s1 & H1 & Hrun) | (e & H1 & Hr)];
      apply lift_inv in H1; destruct H1 as [Hrec ->].
    2:{ exists [], 0%nat. split; [apply extends_refl |].
        subst r. simpl.
        repeat split; try reflexivity; try lia; try discriminate;
          try congruence.
        unfold test_defined. rewrite <- Hrec. discriminate. }
    symmetry in Hrec.
    apply bindM_inv in Hrun.
    destruct Hrun as [(present & s1 & H1 & Hrun) | (e & H1 & Hr)];
      apply lift_inv in H1; destruct H1 as [Hin ->].
    2:{ exists [], 0%nat. split; [apply extends_refl |].
        subst r. simpl.
        repeat split; try reflexivity; try lia; try discriminate;
          try congruence.
        unfold test_defined. rewrite Hrec.
        destruct rec; try discriminate; simpl in Hin; discriminate Hin. }
    symmetry in Hin.
    destruct present.
    { rewrite (to_attempt_passed _ _ _ _ _ Hrec Hin).
      exact (IH _ _ _ _ Hrun). }
    rewrite (to_attempt_pending _ _ _ _ _ Hrec Hin).
    apply bindM_inv in Hrun.
    destruct Hrun as [(u1 & s1 & H1 & Hrun) | (e & H1 & _)];
      apply print_inv in H1; destruct H1 as [H1 E1]; [| discriminate H1].
    apply bindM_inv in Hrun.
    destruct Hrun as [(u2 & s2 & H2 & Hrun) | (e & H2 & _)];
      apply print_inv in H2; destruct H2 as [H2 E2]; [| discriminate H2].
    pose proof (extends_trans _ _ _ _ _ E1 E2) as E12.
    destruct (checkpoint_file t (ite - 1)) as [chk |] eqn:Hchk.
    + apply bindM_inv in Hrun.
      destruct Hrun as [(blob & s3 & H3 & Hrun) | (e & H3 & Hr)];
        destruct (compute_ite_works _ _ _ _ _ _ _ _ H3) as (n3 & E3 & W3);
        destruct (work_lines_plain _ W3) as [L3 K3].
      * destruct (IH _ _ _ _ Hrun)
          as (n4 & k & E4 & V1 & V2 & V3 & V4 & V5 & V6 & V7).
        exists ((([PIte ite] ++ [PLoading t (ite - 1)]) ++ n3) ++ n4), (S k).
        split; [eapply extends_trans; [eapply extends_trans |]; eassumption |].
        rewrite !ite_lines_app, !skip_lines_app, L3, K3. simpl.
        split; [rewrite V1; reflexivity |].
        split; [lia |].
        split.
        { intros [| i] Hi; [rewrite Hchk; discriminate |].
          apply V3. lia. }
        split; [intros res' Hr; rewrite (V4 res' Hr); reflexivity |].
        split; [exact V5 |].
        split; [| intros _ _; lia].
        intros Hs. destruct (V6 Hs) as [Hk Hnone].
        split; [lia |].
        rewrite Nat.sub_0_r.
        destruct k as [| k']; [lia |].
        simpl in Hnone. rewrite Nat.sub_0_r in Hnone. exact Hnone.
      * exists (([PIte ite] ++ [PLoading t (ite - 1)]) ++ n3), 1%nat.
        split; [eapply extends_trans; eassumption |].
        subst r.
        rewrite !ite_lines_app, !skip_lines_app, L3, K3. simpl.
        repeat split; try reflexivity; try lia; try discriminate;
          congruence.
    + apply bindM_inv in Hrun.
      destruct Hrun as [(u3 & s3 & H3 & Hrun) | (e & H3 & _)];
        apply print_inv in H3; destruct H3 as [H3 E3]; [| discriminate H3].
      unfold ret in Hrun. injection Hrun as <- <-.
      exists (([PIte ite] ++ [PLoading t (ite - 1)]) ++ [PSkipping t]), 1%nat.
      split; [eapply extends_trans; eassumption |].
      simpl.
      repeat split; try reflexivity; try lia; try discriminate;
        try congruence.
Qed.

End SweepFacts.

Lemma rev_ites_descending : StronglySorted Z.gt (rev ites).
Proof. simpl. repeat constructor. Qed.

(** C7.  The reversed iteration list is strictly descending, and a pass
    over a target index attempts the iterations in that order.  Let
    [pending] be the iterations of the reversed list that the test of
    line 321 does not pass over, in the order of the list.  The lines
    [ITE: n] the pass prints, one for each iteration it attempts, are
    exactly the first [k] entries of [pending]: no iteration is attempted
    before a higher pending one.  Each attempted iteration but the last
    had its checkpoint; the pass attempts all of [pending] when it ends
    normally without skipping the target, and stops at the first pending
    iteration whose checkpoint is missing when it prints
    [skipping target]; and it does attempt the first pending iteration
    when the models directory is there or can be made and the test raises
    nothing. *)
Theorem iterations_attempted_in_descending_order
    {T : Torch} {C : Clock} {H : Host} (a : Args) (t : Z) (st : pstate) :
  StronglySorted Z.gt (rev ites) /\
  exists new,
    printed (snd (process_target a t st)) = printed st ++ PTarget t :: new /\
    match loaded_record a t (results_file st t) with
    | Raise _ => ite_lines new = []
    | Ok all_res =>
        let pending := to_attempt all_res t (rev ites) in
        exists k,
          ite_lines new = firstn k pending /\
          (k <= List.length pending)%nat /\
          (forall i, (S i < k)%nat ->
             checkpoint_file t (nth i pending 0 - 1) <> None) /\
          (fst (process_target a t st) = Ok tt -> skip_lines new = [] ->
           k = List.length pending) /\
          (skip_lines new <> [] ->
           (1 <= k)%nat /\
           checkpoint_file t (nth (k - 1) pending 0 - 1) = None) /\
          (models_dir st t = true \/ target_dir_exists t = true ->
           test_defined all_res t = true -> pending <> [] ->
           (1 <= k)%nat)
    end.
Proof.
  split; [exact rev_ites_descending |].
  destruct (process_target a t st) as [r st'] eqn:Hrun. cbn [fst snd].
  unfold process_target in Hrun.
  apply bindM_inv in Hrun.
  destruct Hrun as [(u & s1 & H1 & Hrun) | (e & H1 & _)];
    apply print_inv in H1; destruct H1 as [H1 (F1 & D1 & P1)];
    [| discriminate H1].
  assert (Hline : forall s new, printed s = printed s1 ++ new ->
            printed s = printed st ++ PTarget t :: new).
  { intros s new Hs. rewrite Hs, P1, <- app_assoc. reflexivity. }
  apply bindM_inv in Hrun.
  destruct Hrun as [(u2 & s2 & H2 & Hrun) | (e & H2 & Hr)].
  2:{ exists []. split.
      { apply Hline. rewrite app_nil_r.
        exact (ensure_models_dir_silent _ _ _ _ H2). }
      destruct (loaded_record a t (results_file st t)) as [all_res | e'];
        [| reflexivity].
      exists 0%nat. subst r. simpl.
      repeat split; try reflexivity; try lia; try discriminate;
        try congruence.
      intros Hdir _ _. rewrite <- D1 in Hdir.
      destruct (ensure_models_dir_ok t s1 Hdir) as [s' Hs'].
      rewrite Hs' in H2. discriminate H2. }
  pose proof (ensure_models_dir_silent _ _ _ _ H2) as P2.
  apply ensure_models_dir_keeps_files in H2.
  apply bindM_inv in Hrun. rewrite read_json_eq in Hrun.
  unfold loaded_record. rewrite <- F1, <- H2.
  destruct Hrun as [(loaded & s3 & H3 & Hrun) | (e & H3 & Hr)];
    injection H3 as H3 <-; rewrite H3; cbn [bind].
  2:{ exists []. split; [| reflexivity].
      apply Hline. rewrite app_nil_r. exact P2. }
  apply bindM_inv in Hrun.
  destruct Hrun as [(all_res & s4 & H4 & Hrun) | (e & H4 & Hr)];
    apply lift_inv in H4; destruct H4 as [H4 ->]; rewrite <- H4.
  2:{ exists []. split; [| reflexivity].
      apply Hline. rewrite app_nil_r. exact P2. }
  apply bindM_inv in Hrun.
  destruct Hrun as [([res' no_save] & s5 & H5 & Hrun) | (e & H5 & Hr)];
    destruct (ite_loop_visits _ _ _ _ _ _ _ _ _ H5)
      as (new & k & (_ & _ & P5) & V1 & V2 & V3 & V4 & V5 & V6 & V7).
  - exists new. split.
    { apply Hline.
      assert (P6 : printed st' = printed s5).
      { destruct no_save; simpl in Hrun.
        - exact (persist_silent _ _ _ _ _ _ Hrun).
        - injection Hrun as _ <-. reflexivity. }
      rewrite P6, P5, P2. reflexivity. }
    exists k.
    split; [exact V1 |]. split; [exact V2 |]. split; [exact V3 |].
    split; [| split; [exact V6 | intros _; exact V7]].
    intros _ Hs. destruct no_save.
    + exact (V4 res' eq_refl).
    + exfalso. exact (V5 res' eq_refl Hs).
  - exists new. split.
    { apply Hline. rewrite P5, P2. reflexivity. }
    exists k.
    split; [exact V1 |]. split; [exact V2 |]. split; [exact V3 |].
    split; [| split; [exact V6 | intros _; exact V7]].
    subst r. discriminate.
Qed.

(** C2.  Suppose the checkpoint of iteration [k] is missing for target
    index [t], while the iterations visited before it ([above]) have their
    checkpoints and are computed without error, the results file of [t] is
    absent or has the layout the program writes, and the models directory
    can be created.  Then the pass over [t] ends normally having printed
    [skipping target], every results file is exactly as before (what was
    computed for [above] is discarded), and the sweep goes on with the
    remaining target indices. *)
Theorem missing_checkpoint_persists_nothing
    {T : Torch} {C : Clock} {H : Host}
    (a : Args) (t : Z) (st : pstate) (k : Z) (above below : list Z) :
  rev ites = above ++ k :: below ->
  checkpoint_file t (k - 1) = None ->
  (forall ite, In ite above ->
     exists chk, checkpoint_file t (ite - 1) = Some chk /\
       forall s, exists blob s',
         compute_ite a t ite (fetch_target (target_label a) t) chk s
         = (Ok blob, s')) ->
  record_is_dict (results_file st t) t ->
  models_dir st t = true \/ target_dir_exists t = true ->
  exists st',
    process_target a t st = (Ok tt, st') /\
    results_file st' = results_file st /\
    In (PSkipping t) (printed st') /\
    forall rest,
      forM (t :: rest) (process_target a) st
      = forM rest (process_target a) st'.
Proof.
  intros Hsplit Hk Habove Hrec Hdir.
  assert (Hmissing : exists k', In k' ites /\ checkpoint_file t (k' - 1) = None).
  { exists k. split; [| exact Hk].
    apply in_rev. rewrite Hsplit. apply in_or_app. right. left. reflexivity. }
  destruct (print (PTarget t) st) as [r1 s1] eqn:H1.
  pose proof H1 as H1'. apply print_inv in H1'.
  destruct H1' as [-> (F1 & D1 & _)].
  destruct (ensure_models_dir_ok t s1) as [s2 H2]; [rewrite D1; exact Hdir |].
  pose proof (ensure_models_dir_keeps_files _ _ _ _ H2) as F2.
  assert (Hrec2 : record_is_dict (results_file s2 t) t) by (rewrite F2, F1; exact Hrec).
  destruct (init_all_res_record a t _ Hrec2) as (loaded & all_res & Hl & Hi & Hn).
  destruct (ite_loop_stops a t (fetch_target (target_label a) t) all_res
              k below Hn Hk above Habove [] s2) as (res' & s5 & H5 & Hp).
  assert (Hrun : process_target a t st = (Ok tt, s5)).
  { unfold process_target.
    rewrite (bindM_ok _ _ _ _ _ H1), (bindM_ok _ _ _ _ _ H2).
    unfold bindM at 1. rewrite read_json_eq, Hl.
    unfold bindM at 1. unfold lift at 1. rewrite Hi.
    unfold bindM at 1. rewrite Hsplit, H5. reflexivity. }
  exists s5. split; [exact Hrun |]. split; [| split; [exact Hp |]].
  - exact (process_target_missing_keeps_files a t st s5 (Ok tt) Hmissing Hrec Hrun).
  - intros rest. cbn [forM].
    exact (bindM_ok _ (fun _ => forM rest (process_target a)) _ _ _ Hrun).
Qed.

Lemma missing_checkpoint_persists_nothing_witness :
  exists st',
    process_target (C := Toy.clock) (H := Toy.host_missing) Toy.args 0 Toy.start
    = (Ok tt, st') /\
    results_file st' = results_file Toy.start /\
    In (PSkipping 0) (printed st') /\
    forall rest,
      forM (0 :: rest)
           (process_target (C := Toy.clock) (H := Toy.host_missing) Toy.args)
           Toy.start
      = forM rest
           (process_target (C := Toy.clock) (H := Toy.host_missing) Toy.args)
           st'.
Proof.
  apply (missing_checkpoint_persists_nothing (C := Toy.clock)
           (H := Toy.host_missing) Toy.args 0 Toy.start 801
           [4000; 2801; 1601] [401; 201; 101; 51; 1]).
  - reflexivity.
  - reflexivity.
  - intros ite Hin. exists Toy.chk. split.
    + destruct Hin as [<- | [<- | [<- | []]]]; reflexivity.
    + intros s.
      destruct Hin as [<- | [<- | [<- | []]]];
        eexists; eexists; vm_compute; reflexivity.
  - exact I.
  - right. reflexivity.
Defined.

(** ** Target range *)

Lemma py_range_single (start step : Z) :
  1 <= step -> py_range start (start + 1) step = Ok [start].
Proof.
  intros Hs. unfold py_range.
  destruct (Z.eqb_spec step 0) as [E | _]; [lia |].
  destruct (Z.ltb_spec 0 step) as [_ | E]; [| lia].
  destruct (Z.ltb_spec start (start + 1)) as [_ | E]; [| lia].
  replace (start + 1 - start + step - 1) with step by lia.
  rewrite Z.div_same by lia. simpl.
  f_equal. f_equal. lia.
Qed.

(** C10 as stated fails: with the default end of range and a step of -1
    no target index is visited at all. *)
Lemma default_end_with_negative_step_visits_nothing :
  target_index_end (Toy.with_step (-1)) = -1 /\
  target_indices (Toy.with_step (-1)) = Ok [] /\
  target_indices (Toy.with_step (-1))
  <> Ok [target_index_start (Toy.with_step (-1))].
Proof. split; [reflexivity |]. split; [reflexivity | discriminate]. Qed.

(** C10, amended.  When the end of the target range is left at -1 and the
    step is at least 1, the end is replaced by [start + 1] and the sweep
    visits exactly one target index, [start]: [main] prints the arguments
    and runs the pass for that index only. *)
Theorem default_end_visits_start_only
    {T : Torch} {C : Clock} {H : Host} (a : Args) (st : pstate) :
  target_index_end a = -1 ->
  1 <= target_index_step a ->
  target_index_end (resolve_end a) = target_index_start a + 1 /\
  target_indices a = Ok [target_index_start a] /\
  main a st
  = bindM (print (PArgs (args_str a)))
      (fun _ => forM [target_index_start a] (process_target (resolve_end a)))
      st.
Proof.
  intros He Hs.
  assert (Hr : resolve_end a
               = {| target_net := target_net a;
                    target_label := target_label a;
                    target_index_start := target_index_start a;
                    target_index_end := target_index_start a + 1;
                    target_index_step := target_index_step a;
                    poison_label := poison_label a;
                    retrain_lr := retrain_lr a;
                    retrain_opt := retrain_opt a;
                    retrain_momentum := retrain_momentum a;
                    lr_decay_epoch := lr_decay_epoch a;
                    retrain_epochs := retrain_epochs a;
                    retrain_bsize := retrain_bsize a;
                    retrain_wd := retrain_wd a;
                    eval_poisons_root := eval_poisons_root a |}).
  { unfold resolve_end. rewrite He. reflexivity. }
  assert (Ht : target_indices a = Ok [target_index_start a]).
  { unfold target_indices. rewrite Hr. simpl. apply py_range_single. exact Hs. }
  split; [rewrite Hr; reflexivity |]. split; [exact Ht |].
  unfold main. rewrite Ht. reflexivity.
Qed.

Lemma default_end_visits_start_only_witness :
  target_index_end (resolve_end Toy.args) = 0 + 1 /\
  target_indices Toy.args = Ok [0] /\
  main (C := Toy.clock) (H := Toy.host) Toy.args Toy.start
  = bindM (print (PArgs (@args_str _ Toy.host Toy.args)))
      (fun _ => forM [0] (process_target (C := Toy.clock) (H := Toy.host)
                            (resolve_end Toy.args)))
      Toy.start.
Proof.
  apply (default_end_visits_start_only (C := Toy.clock) (H := Toy.host)
           Toy.args Toy.start).
  - reflexivity.
  - simpl. lia.
Defined.

(** ** Resuming *)

(** C1, on the code.  On a host where every checkpoint is present, the
    first run records the nine iterations of target index 0 in the
    results file; a second run of the same command attempts and retrains
    all nine again: none is skipped. *)
Theorem second_run_recomputes_every_iteration :
  recorded_keys (results_file Toy.after_first_run 0) 0
  = map (fun ite => KStr (str_of_int ite)) (rev ites) /\
  ite_lines (printed Toy.after_second_run) = rev ites /\
  List.length (filter (fun l => match l with PVictim _ => true | _ => false end)
                      (printed Toy.after_second_run)) = 9%nat.
Proof. vm_compute. repeat split. Qed.

(** * Further properties of the code *)

(** ** Metric accumulator: weights that are batch sizes *)

Lemma positive_weights_counts_nonzero (ups : list (Q * Z)) :
  Forall (fun p => 0 < snd p) ups ->
  forall c0, 0 <= c0 -> AverageMeter.counts_nonzero c0 ups.
Proof.
  induction 1 as [| [v n] rest Hn _ IH]; intros c0 Hc; simpl.
  - exact I.
  - simpl in Hn. split; [lia | apply IH; lia].
Qed.

Lemma total_weight_positive (ups : list (Q * Z)) :
  ups <> [] -> Forall (fun p => 0 < snd p) ups ->
  0 < AverageMeter.total_weight ups.
Proof.
  intros Hne HF. destruct ups as [| [v n] rest]; [contradiction |].
  inversion HF as [| ? ? Hn Hrest]; subst. simpl in Hn |- *.
  clear Hne HF. induction Hrest as [| [v' n'] r Hn' _ IH]; simpl in *; lia.
Qed.

Lemma weighted_sum_nonneg (ups : list (Q * Z)) :
  Forall (fun p => 0 < snd p) ups ->
  Forall (fun p => (0 <= fst p)%Q) ups ->
  (0 <= AverageMeter.weighted_sum ups)%Q.
Proof.
  induction 1 as [| [v n] rest Hn _ IH]; intros Hv; simpl in *.
  - apply Qle_refl.
  - inversion Hv as [| ? ? Hv0 Hrest]; subst. simpl in Hv0.
    apply Qle_trans with (0 + 0)%Q; [discriminate |].
    apply Qplus_le_compat; [| exact (IH Hrest)].
    apply Qmult_le_0_compat; [exact Hv0 |].
    replace 0%Q with (inject_Z 0) by reflexivity. rewrite <- Zle_Qle. lia.
Qed.

(** X1.  When every weight is positive, as the batch sizes passed by the
    training and validation loops are, no [update] raises and the count
    after the updates is the sum of the weights, positive after at least
    one update; when moreover no value is negative, neither the running
    sum nor the average is. *)
Theorem positive_weights_never_raise (ups : list (Q * Z)) :
  Forall (fun p => 0 < snd p) ups ->
  exists m,
    AverageMeter.updates AverageMeter.reset ups = Ok m /\
    AverageMeter.count m = AverageMeter.total_weight ups /\
    (ups <> [] -> 0 < AverageMeter.count m) /\
    (Forall (fun p => (0 <= fst p)%Q) ups ->
     (0 <= AverageMeter.sum m)%Q /\ (0 <= AverageMeter.avg m)%Q).
Proof.
  intros Hpos.
  destruct (updates_from ups AverageMeter.reset
              (positive_weights_counts_nonzero ups Hpos 0 (Z.le_refl 0)))
    as (m & Hrun & Hsum & Hcount & Hlast).
  unfold AverageMeter.reset in Hsum, Hcount.
  cbn [AverageMeter.sum AverageMeter.count] in Hsum, Hcount.
  rewrite Z.add_0_l in Hcount. rewrite Qplus_0_l in Hsum.
  exists m. split; [exact Hrun |]. split; [exact Hcount |].
  split.
  { intros Hne. rewrite Hcount. exact (total_weight_positive ups Hne Hpos). }
  intros Hv.
  pose proof (weighted_sum_nonneg ups Hpos Hv) as Hs.
  split; [rewrite Hsum; exact Hs |].
  destruct ups as [| p rest].
  - simpl in Hrun. injection Hrun as <-. simpl. apply Qle_refl.
  - assert (Hne : p :: rest <> []) by discriminate.
    destruct (Hlast Hne) as [Havg _].
    pose proof (total_weight_positive _ Hne Hpos) as Htw.
    rewrite Havg, Hsum, Hcount.
    apply Qle_shift_div_l.
    + replace 0%Q with (inject_Z 0) by reflexivity. rewrite <- Zlt_Qlt.
      exact Htw.
    + rewrite Qmult_0_l. exact Hs.
Qed.

Lemma positive_weights_never_raise_witness :
  exists m,
    AverageMeter.updates AverageMeter.reset
      [((50 # 1)%Q, 8); ((100 # 1)%Q, 8); ((0 # 1)%Q, 3)] = Ok m /\
    AverageMeter.count m = 19 /\
    (0 <= AverageMeter.avg m)%Q.
Proof.
  destruct (positive_weights_never_raise
              [((50 # 1)%Q, 8); ((100 # 1)%Q, 8); ((0 # 1)%Q, 3)])
    as (m & Hrun & Hcount & _ & Hv).
  - repeat constructor.
  - exists m. split; [exact Hrun |]. split; [exact Hcount |].
    apply Hv. repeat constructor; discriminate.
Defined.

(** ** Top-1 accuracy counts the hits *)

Lemma correct_1_bound (pred : list (list nat)) (target : list Z) :
  correct_k (eq_rows (transpose 1 pred) target) 1
  <= Z.of_nat (List.length target).
Proof.
  unfold correct_k, transpose, eq_rows. simpl. rewrite app_nil_r.
  apply inj_le.
  eapply Nat.le_trans; [apply count_occ_bound |].
  rewrite length_map, length_combine. apply Nat.le_min_r.
Qed.

Lemma top1_accuracy_hits
    (output : list (list Q)) (target : list Z) :
  target <> [] ->
  List.length output = List.length target ->
  Forall (fun row => (1 <= List.length row)%nat) output ->
  exists hits,
    0 <= hits <= Z.of_nat (List.length target) /\
    accuracy output target [1%nat]
    = Ok [(inject_Z hits
           * (100 / inject_Z (Z.of_nat (List.length target))))%Q].
Proof.
  intros Hne Hlen Hrows.
  destruct (mapM_Ok_Forall (topk_row 1) _
              (fun row H => ex_intro _ _ (topk_row_ok 1 row H)) output Hrows)
    as [pred Hpred].
  unfold accuracy. simpl max_of. cbn [bind].
  rewrite Hpred. cbn [bind].
  unfold expand_as. rewrite Hlen, Nat.eqb_refl. cbn [bind].
  cbn [mapM].
  assert (Hbs : 0 < Z.of_nat (List.length target)).
  { destruct target; [contradiction | simpl; lia]. }
  destruct (Z.eqb_spec (Z.of_nat (List.length target)) 0) as [E | _]; [lia |].
  cbn [bind].
  exists (correct_k (eq_rows (transpose 1 pred) target) 1).
  split; [| reflexivity]. split.
  - apply correct_k_nonneg.
  - apply correct_1_bound.
Qed.

Lemma top1_accuracy_range
    (output : list (list Q)) (target : list Z) :
  target <> [] ->
  List.length output = List.length target ->
  Forall (fun row => (1 <= List.length row)%nat) output ->
  exists p,
    accuracy output target [1%nat] = Ok [p] /\ (0 <= p <= 100 # 1)%Q.
Proof.
  intros Hne Hlen Hrows.
  destruct (top1_accuracy_hits output target Hne Hlen Hrows)
    as (c & [Hc0 Hc] & Hacc).
  rewrite Hacc. eexists. split; [reflexivity |].
  assert (Hbs : 0 < Z.of_nat (List.length target)).
  { destruct target; [contradiction | simpl; lia]. }
  set (b := Z.of_nat (List.length target)) in *.
  assert (Hb : (0 < inject_Z b)%Q).
  { replace 0%Q with (inject_Z 0) by reflexivity. rewrite <- Zlt_Qlt. exact Hbs. }
  assert (Hf : (0 <= 100 / inject_Z b)%Q).
  { apply Qle_shift_div_l; [exact Hb |]. ring_simplify. discriminate. }
  split.
  - apply Qmult_le_0_compat; [| exact Hf].
    replace 0%Q with (inject_Z 0) by reflexivity. rewrite <- Zle_Qle. exact Hc0.
  - apply Qle_trans with (inject_Z b * (100 / inject_Z b))%Q.
    + apply Qmult_le_compat_r; [rewrite <- Zle_Qle; exact Hc | exact Hf].
    + setoid_replace (inject_Z b * (100 / inject_Z b))%Q with (100 # 1)%Q.
      * apply Qle_refl.
      * field. intros E. rewrite E in Hb. discriminate Hb.
Qed.




(** ** Learning-rate schedule inside the loop *)

(** X3.  The epoch loop keeps the optimizer on the schedule: when the
    epochs [0] to [e] have run without error, the optimizer in the state
    is the initial one with the decay test applied at the start of each of
    these epochs. *)
Theorem training_loop_follows_schedule {T : Torch} (a : Args)
    (target_img : image) (poisons dset : list (image * Z))
    (st st' : train_state) (e : nat) :
  foldM (run_epoch a target_img poisons dset) (seq 0 (S e)) st = Ok st' ->
  opt st' = epoch_optimizer a (opt st) e.
Proof. intros Hrun. exact (epochs_opt a target_img poisons dset _ _ _ Hrun). Qed.

Lemma training_loop_follows_schedule_witness :
  opt (Toy.trained (Toy.with_epochs 40 [VInt 30; VInt 45]) 32)
  = epoch_optimizer (Toy.with_epochs 40 [VInt 30; VInt 45])
      (make_optimizer (Toy.with_epochs 40 [VInt 30; VInt 45])) 31.
Proof.
  apply (training_loop_follows_schedule (T := Toy.torch)
           (Toy.with_epochs 40 [VInt 30; VInt 45]) 0%nat
           (poison Toy.chk) (Toy.dataset (poison Toy.chk) (idx Toy.chk))
           (@Build_train_state Toy.torch tt
              (make_optimizer (Toy.with_epochs 40 [VInt 30; VInt 45]))
              tt None None)).
  vm_compute. reflexivity.
Defined.

Lemma lr_step_strings (a : Args) (e : nat) (o : optimizer) :
  Forall (fun v => exists s, v = VStr s) (lr_decay_epoch a) ->
  lr_step a e o = o.
Proof.
  intros HF. unfold lr_step.
  replace (existsb (int_eq_value (Z.of_nat e)) (lr_decay_epoch a)) with false;
    [reflexivity |].
  symmetry. induction HF as [| v r [s ->] _ IH]; simpl; [reflexivity | exact IH].
Qed.

(** X4.  Decay epochs that are strings, which is what the command line
    yields since [--lr-decay-epoch] declares no type, never equal the
    integer [epoch]: the learning rate is then never decayed. *)
Theorem string_decay_epochs_never_decay (a : Args) (o : optimizer) (e : nat) :
  Forall (fun v => exists s, v = VStr s) (lr_decay_epoch a) ->
  epoch_optimizer a o e = o.
Proof.
  intros HF. induction e as [| e IH].
  - unfold epoch_optimizer. simpl. apply lr_step_strings. exact HF.
  - rewrite epoch_optimizer_S, IH. apply lr_step_strings. exact HF.
Qed.

Lemma string_decay_epochs_never_decay_witness :
  epoch_optimizer (Toy.with_epochs 60 [VStr "30"; VStr "45"])
    (make_optimizer (Toy.with_epochs 60 [VStr "30"; VStr "45"])) 50
  = make_optimizer (Toy.with_epochs 60 [VStr "30"; VStr "45"]).
Proof.
  apply string_decay_epochs_never_decay.
  repeat constructor; eexists; reflexivity.
Defined.

(** ** Retraining with no epoch *)

(** X5.  With [retrain_epochs] at most 0 the epoch loop never runs, the
    variables [epoch] and [target_pred] stay unbound, and the function
    cannot return a result: it ends with an exception. *)
Theorem no_epoch_no_result {T : Torch} (n0 : Net) (target_img : image)
    (poisons dset : list (image * Z)) (base_idx : list Z) (a : Args)
    (tests : list (image * Z)) (savemodel : string) (g0 : Rng) :
  retrain_epochs a <= 0 ->
  exists e,
    train_network_with_poison n0 target_img poisons dset base_idx a tests
                              savemodel g0 = Raise e.
Proof.
  intros He. unfold train_network_with_poison.
  destruct (data_loader (retrain_bsize a) dset) as [batches | e];
    [| exists e; reflexivity].
  cbn [bind].
  replace (Z.to_nat (retrain_epochs a)) with O by lia.
  cbn [seq foldM bind epoch_var net scored].
  destruct (validate n0 None tests) as [m | e]; [| exists e; reflexivity].
  exists NameError. reflexivity.
Qed.

Lemma no_epoch_no_result_witness :
  exists e,
    train_network_with_poison (T := Toy.torch) tt 0%nat
      (poison Toy.chk) (Toy.dataset (poison Toy.chk) (idx Toy.chk))
      (idx Toy.chk) (Toy.with_epochs 0 [VInt 30; VInt 45])
      [(20%nat, 3); (21%nat, 4)] EmptyString tt
    = Raise e.
Proof.
  apply (no_epoch_no_result (T := Toy.torch)). simpl. lia.
Defined.


(** ** Log extractor: an empty coefficient list *)

(** X6.  A checkpoint whose [coeff_list] is present but empty makes
    [get_stats] raise [IndexError] (the test of line 195 reads entry 0),
    although the log was parsed and the loss fields are in order. *)
Theorem empty_coeff_list_raises {C : Clock}
    (log : option (list string)) (res : dict) (ite : Z)
    (diff : Q) (log_target_loss log_loss : string) :
  parse_log log ite = Ok (diff, log_target_loss, log_loss) ->
  field_ok one_element_tensor res "target_loss" ->
  field_ok one_element_tensor res "total_loss" ->
  dict_get res (KStr "coeff_list") = Some (VList []) ->
  get_stats log res ite = Raise IndexError.
Proof.
  intros Hlog Htl Hl Hcl.
  unfold get_stats. rewrite Hlog. cbn [bind]. unfold stats_out.
  unfold field_ok in Htl, Hl.
  destruct (dict_get res (KStr "target_loss")) as [v1 |].
  - destruct Htl as [x1 ->]. cbn [item bind].
    destruct (dict_get res (KStr "total_loss")) as [v2 |].
    + destruct Hl as [x2 ->]. cbn [item bind]. rewrite Hcl. reflexivity.
    + cbn [bind]. rewrite Hcl. reflexivity.
  - cbn [bind].
    destruct (dict_get res (KStr "total_loss")) as [v2 |].
    + destruct Hl as [x2 ->]. cbn [item bind]. rewrite Hcl. reflexivity.
    + cbn [bind]. rewrite Hcl. reflexivity.
Qed.

Lemma empty_coeff_list_raises_witness :
  get_stats (C := Toy.clock) (Some Toy.log)
    [(KStr "target_loss", VTensor [1 # 4]%Q); (KStr "coeff_list", VList [])]
    800
  = Raise IndexError.
Proof.
  apply (empty_coeff_list_raises (C := Toy.clock) (Some Toy.log)
           [(KStr "target_loss", VTensor [1 # 4]%Q);
            (KStr "coeff_list", VList [])]
           800 0%Q "0.5" "1.5").
  - reflexivity.
  - exists (1 # 4)%Q. reflexivity.
  - exact I.
  - reflexivity.
Defined.

(** ** What a pass over a target index changes *)

Section PassFacts.
Context {T : Torch} {C : Clock} {H : Host}.

Lemma keeps_bind {A B : Type} (R : pstate -> pstate -> Prop)
    (c : M A) (k : A -> M B) :
  (forall s1 s2 s3, R s1 s2 -> R s2 s3 -> R s1 s3) ->
  keeps R c -> (forall a, keeps R (k a)) -> keeps R (bindM c k).
Proof.
  intros Htrans Hc Hk st r st' Hrun. apply bindM_inv in Hrun.
  destruct Hrun as [(a & s1 & H1 & H2) | (e & H1 & _)].
  - exact (Htrans _ _ _ (Hc _ _ _ H1) (Hk a _ _ _ H2)).
  - exact (Hc _ _ _ H1).
Qed.

Lemma printed_prefix_trans (s1 s2 s3 : pstate) :
  printed_prefix s1 s2 -> printed_prefix s2 s3 -> printed_prefix s1 s3.
Proof.
  intros [n1 E1] [n2 E2]. exists (n1 ++ n2).
  rewrite E2, E1, app_assoc. reflexivity.
Qed.

Lemma silent_prefix {A : Type} (c : M A) : silent c -> keeps printed_prefix c.
Proof.
  intros Hc st r st' E. exists []. rewrite (Hc _ _ _ E), app_nil_r. reflexivity.
Qed.

Lemma quiet_prefix {A : Type} (c : M A) : quiet c -> keeps printed_prefix c.
Proof.
  intros Hc st r st' E. destruct (Hc _ _ _ E) as (new & (_ & _ & P) & _).
  exists new. exact P.
Qed.

Lemma ite_loop_prefix (a : Args) (t : Z) (target : image) (all_res : value)
    (todo : list Z) (res : dict) :
  keeps printed_prefix (ite_loop a t target all_res todo res).
Proof.
  intros st r st' E.
  destruct (ite_loop_extends _ _ _ _ _ _ _ _ _ E) as (new & (_ & _ & P) & _).
  exists new. exact P.
Qed.

Lemma same_files_except_trans (t : Z) (s1 s2 s3 : pstate) :
  same_files_except t s1 s2 -> same_files_except t s2 s3 ->
  same_files_except t s1 s3.
Proof.
  intros H1 H2 t' Ht. rewrite (H2 t' Ht). exact (H1 t' Ht).
Qed.

Lemma same_files_same (t : Z) (s s' : pstate) :
  results_file s' = results_file s -> same_files_except t s s'.
Proof. intros E t' _. rewrite E. reflexivity. Qed.

Lemma persist_eq (t : Z) (all_res : value) (res : dict) (st : pstate) :
  persist t all_res res st
  = match merged_record t all_res res (base_idx_list st) with
    | Raise e => (Raise e, st)
    | Ok merged =>
        match json_dump merged with
        | Ok j => set_results_file t (Text j) st
        | Raise e => bindM (set_results_file t Truncated) (fun _ => raise e) st
        end
    end.
Proof.
  unfold persist, merged_record, bindM, lift.
  destruct (subscript_str all_res "targets") as [targets |]; [| reflexivity].
  cbn [bind].
  destruct (match targets with
            | VDict d => Ok (VDict (dict_set d (KInt t) (VDict res)))
            | _ => Raise TypeError
            end) as [targets' |]; [| reflexivity].
  cbn [bind].
  destruct (store_str all_res "targets" targets') as [all_res' |];
    [| reflexivity].
  cbn [bind].
  destruct (base_idx_list st) as [b |]; [| reflexivity].
  cbn [bind].
  destruct (store_str all_res' "poison_idx_list" (VList (map VInt b)))
    as [merged |]; [| reflexivity].
  destruct (json_dump merged); reflexivity.
Qed.

Lemma persist_same_files_except (t : Z) (all_res : value) (res : dict) :
  keeps (same_files_except t) (persist t all_res res).
Proof.
  intros st r st' E. rewrite persist_eq in E.
  destruct (merged_record t all_res res (base_idx_list st)) as [merged | e].
  - destruct (json_dump merged) as [j | e]; injection E as _ <-;
      intros t' Ht; simpl;
      destruct (Z.eqb_spec t' t); [contradiction | reflexivity
                                  | contradiction | reflexivity].
  - injection E as _ <-. intros t' _. reflexivity.
Qed.

Lemma process_target_same_files_except (a : Args) (t : Z) :
  keeps (same_files_except t) (process_target a t).
Proof.
  unfold process_target.
  apply keeps_bind; [apply same_files_except_trans | | intros _].
  { intros st r st' E. apply print_inv in E. destruct E as [_ (F & _ & _)].
    apply same_files_same. exact F. }
  apply keeps_bind; [apply same_files_except_trans | | intros _].
  { intros st r st' E. apply same_files_same.
    exact (ensure_models_dir_keeps_files _ _ _ _ E). }
  apply keeps_bind; [apply same_files_except_trans | | intros loaded].
  { intros st r st' E. rewrite read_json_eq in E. injection E as _ <-.
    apply same_files_same. reflexivity. }
  apply keeps_bind; [apply same_files_except_trans | | intros all_res].
  { intros st r st' E. apply lift_inv in E. destruct E as [_ ->].
    apply same_files_same. reflexivity. }
  apply keeps_bind; [apply same_files_except_trans | | intros r].
  { intros st r st' E.
    destruct (ite_loop_extends _ _ _ _ _ _ _ _ _ E) as (new & (F & _ & _) & _).
    apply same_files_same. exact F. }
  destruct (snd r).
  - apply persist_same_files_except.
  - intros st r' st' E. injection E as _ <-. apply same_files_same. reflexivity.
Qed.

End PassFacts.

(** X7.  A pass over target index [t] leaves the results file of every
    other target index untouched, however the pass ends. *)
Theorem pass_touches_only_its_own_results_file
    {T : Torch} {C : Clock} {H : Host}
    (a : Args) (t t' : Z) (st : pstate) :
  t' <> t ->
  results_file (snd (process_target a t st)) t' = results_file st t'.
Proof.
  intros Ht. destruct (process_target a t st) as [r st'] eqn:E.
  exact (process_target_same_files_except a t st r st' E t' Ht).
Qed.

Lemma pass_touches_only_its_own_results_file_witness :
  results_file (snd (process_target (C := Toy.clock) (H := Toy.host)
                       Toy.args 0 Toy.after_first_run)) 1
  = results_file Toy.after_first_run 1.
Proof.
  apply (pass_touches_only_its_own_results_file (C := Toy.clock)
           (H := Toy.host)).
  discriminate.
Defined.

(** X8.  With a checkpoint missing among the nine iterations of target
    index [t], and a results file that is absent or has the layout the
    program writes, the pass leaves every results file as it was, whether
    it ends with [skipping target] or with an exception raised by an
    earlier iteration. *)
Theorem missing_checkpoint_never_writes
    {T : Torch} {C : Clock} {H : Host} (a : Args) (t : Z) (st : pstate) :
  (exists k, In k ites /\ checkpoint_file t (k - 1) = None) ->
  record_is_dict (results_file st t) t ->
  results_file (snd (process_target a t st)) = results_file st.
Proof.
  intros Hk Hrec. destruct (process_target a t st) as [r st'] eqn:E.
  exact (process_target_missing_keeps_files a t st st' r Hk Hrec E).
Qed.

Lemma missing_checkpoint_never_writes_witness :
  results_file (snd (process_target (C := Toy.clock) (H := Toy.host_missing)
                       Toy.args 0 Toy.start))
  = results_file Toy.start.
Proof.
  apply (missing_checkpoint_never_writes (C := Toy.clock)
           (H := Toy.host_missing)).
  - exists 801. split; [simpl; tauto | reflexivity].
  - exact I.
Defined.

(** ** Resuming from a results file *)

Section ResumeFacts.
Context {T : Torch} {C : Clock} {H : Host}.

Lemma keeps_prefix_ret {A : Type} (x : A) : keeps printed_prefix (ret x).
Proof.
  intros st r st' E. injection E as _ <-. exists []. rewrite app_nil_r.
  reflexivity.
Qed.

Lemma keeps_prefix_print (l : line) : keeps printed_prefix (print l).
Proof.
  intros st r st' E. apply print_inv in E. destruct E as [_ (_ & _ & P)].
  exists [l]. exact P.
Qed.

(** After the lines [ITE] and [Loading] of the first iteration, the rest
    of the pass only adds lines. *)
Lemma rest_of_pass_prefix (a : Args) (t : Z) (all_res : value)
    (ite : Z) (rest : list Z) (res : dict) :
  keeps printed_prefix
    (bindM
       (match checkpoint_file t (ite - 1) with
        | None => bindM (print (PSkipping t)) (fun _ => ret (res, false))
        | Some chk =>
            bindM (compute_ite a t ite (fetch_target (target_label a) t) chk)
              (fun blob =>
                 ite_loop a t (fetch_target (target_label a) t) all_res rest
                          (dict_set res (KInt ite) blob))
        end)
       (fun r => if snd r then persist t all_res (fst r) else ret tt)).
Proof.
  apply keeps_bind; [apply printed_prefix_trans | | intros r].
  - destruct (checkpoint_file t (ite - 1)) as [chk |].
    + apply keeps_bind; [apply printed_prefix_trans | | intros blob].
      * apply quiet_prefix, compute_ite_quiet.
      * apply ite_loop_prefix.
    + apply keeps_bind; [apply printed_prefix_trans | | intros _].
      * apply keeps_prefix_print.
      * apply keeps_prefix_ret.
  - destruct (snd r).
    + apply silent_prefix, persist_silent.
    + apply keeps_prefix_ret.
Qed.

End ResumeFacts.

(** X9.  Whatever a results file in the program's layout records for
    target index [t], a pass over [t] starts by attempting iteration 4000:
    after [Target_index: t] it prints [ITE: 4000] and the path of
    [poison_03999.pth].  The keys read back from JSON are strings and the
    loop looks for an integer. *)
Theorem resumed_pass_attempts_iteration_4000
    {T : Torch} {C : Clock} {H : Host} (a : Args) (t : Z) (st : pstate) :
  record_is_dict (results_file st t) t ->
  models_dir st t = true \/ target_dir_exists t = true ->
  exists new,
    printed (snd (process_target a t st))
    = printed st ++ PTarget t :: PIte 4000 :: PLoading t 3999 :: new.
Proof.
  intros Hrec Hdir.
  destruct (print (PTarget t) st) as [r1 s1] eqn:H1.
  pose proof H1 as H1'. apply print_inv in H1'.
  destruct H1' as [-> (F1 & D1 & P1)].
  destruct (ensure_models_dir_ok t s1) as [s2 H2]; [rewrite D1; exact Hdir |].
  pose proof (ensure_models_dir_keeps_files _ _ _ _ H2) as F2.
  pose proof (ensure_models_dir_silent _ _ _ _ H2) as P2.
  assert (Hrec2 : record_is_dict (results_file s2 t) t)
    by (rewrite F2, F1; exact Hrec).
  destruct (init_all_res_record a t _ Hrec2) as (loaded & all_res & Hl & Hi & Hn).
  destruct (print (PIte 4000) s2) as [r3 s3] eqn:H3.
  pose proof H3 as H3'. apply print_inv in H3'. destruct H3' as [-> (_ & _ & P3)].
  destruct (print (PLoading t (4000 - 1)) s3) as [r4 s4] eqn:H4.
  pose proof H4 as H4'. apply print_inv in H4'. destruct H4' as [-> (_ & _ & P4)].
  assert (Hrun : process_target a t st
                 = bindM
                     (match checkpoint_file t (4000 - 1) with
                      | None => bindM (print (PSkipping t))
                                  (fun _ => ret ([], false))
                      | Some chk =>
                          bindM (compute_ite a t 4000
                                   (fetch_target (target_label a) t) chk)
                            (fun blob =>
                               ite_loop a t (fetch_target (target_label a) t)
                                 all_res [2801; 1601; 801; 401; 201; 101; 51; 1]
                                 (dict_set [] (KInt 4000) blob))
                      end)
                     (fun r => if snd r then persist t all_res (fst r)
                               else ret tt) s4).
  { unfold process_target.
    rewrite (bindM_ok _ _ _ _ _ H1), (bindM_ok _ _ _ _ _ H2).
    unfold bindM at 1. rewrite read_json_eq, Hl.
    unfold bindM at 1. unfold lift at 1. rewrite Hi.
    change (rev ites) with [4000; 2801; 1601; 801; 401; 201; 101; 51; 1].
    unfold bindM at 1.
    rewrite (ite_loop_cons_pending _ _ _ _ _ _ _ _ Hn).
    rewrite (bindM_ok _ _ _ _ _ H3), (bindM_ok _ _ _ _ _ H4).
    reflexivity. }
  rewrite Hrun.
  match goal with
  | |- context [snd (?c s4)] =>
      destruct (c s4) as [r5 s5] eqn:H5
  end.
  destruct (rest_of_pass_prefix a t all_res 4000 _ [] s4 r5 s5 H5)
    as [new P5].
  exists new. simpl snd.
  rewrite P5, P4, P3, P2, P1, <- !app_assoc. reflexivity.
Qed.

Lemma resumed_pass_attempts_iteration_4000_witness :
  In (KStr "4000") (recorded_keys (results_file Toy.after_first_run 0) 0) /\
  exists new,
    printed (snd (process_target (C := Toy.clock) (H := Toy.host) Toy.args 0
                    (new_process Toy.after_first_run)))
    = printed (new_process Toy.after_first_run)
        ++ PTarget 0 :: PIte 4000 :: PLoading 0 3999 :: new.
Proof.
  split; [vm_compute; tauto |].
  apply (resumed_pass_attempts_iteration_4000 (C := Toy.clock) (H := Toy.host)).
  - vm_compute. eexists. split; [reflexivity |]. right.
    eexists. eexists. split; reflexivity.
  - right. reflexivity.
Defined.

(** ** A write that fails *)

(** X10.  When [json.dump] cannot serialize the merged record (a tensor
    is left in it), the results file, already opened for writing, is left
    truncated: the exception propagates and what the file held before is
    lost. *)
Theorem failed_dump_truncates_results_file {T : Torch}
    (t : Z) (all_res : value) (res : dict) (st : pstate)
    (merged : value) (e : exn) :
  merged_record t all_res res (base_idx_list st) = Ok merged ->
  json_dump merged = Raise e ->
  fst (persist t all_res res st) = Raise e /\
  results_file (snd (persist t all_res res st)) t = Some Truncated.
Proof.
  intros Hm Hd. rewrite persist_eq, Hm, Hd. simpl.
  rewrite Z.eqb_refl. split; reflexivity.
Qed.

Lemma failed_dump_truncates_results_file_witness :
  fst (persist (T := Toy.torch) 0
         (VDict [(KStr "targets", VDict [(KStr "0", VDict [])])])
         [(KInt 4000, VDict [(KStr "coeffs_time", VTensor [1 # 2]%Q)])]
         Toy.after_first_run)
  = Raise TypeError /\
  results_file
    (snd (persist (T := Toy.torch) 0
            (VDict [(KStr "targets", VDict [(KStr "0", VDict [])])])
            [(KInt 4000, VDict [(KStr "coeffs_time", VTensor [1 # 2]%Q)])]
            Toy.after_first_run)) 0
  = Some Truncated.
Proof.
  eapply (failed_dump_truncates_results_file (T := Toy.torch)).
  - vm_compute. reflexivity.
  - vm_compute. reflexivity.
Defined.

(** X11.  A truncated results file stops every later pass over its target
    index: the pass prints [Target_index: t], then [read_json] raises
    [ValueError] before any iteration is attempted; nothing is written. *)
Theorem truncated_results_file_blocks_the_pass
    {T : Torch} {C : Clock} {H : Host} (a : Args) (t : Z) (st : pstate) :
  results_file st t = Some Truncated ->
  models_dir st t = true \/ target_dir_exists t = true ->
  fst (process_target a t st) = Raise ValueError /\
  printed (snd (process_target a t st)) = printed st ++ [PTarget t] /\
  results_file (snd (process_target a t st)) = results_file st.
Proof.
  intros Hf Hdir.
  destruct (print (PTarget t) st) as [r1 s1] eqn:H1.
  pose proof H1 as H1'. apply print_inv in H1'.
  destruct H1' as [-> (F1 & D1 & P1)].
  destruct (ensure_models_dir_ok t s1) as [s2 H2]; [rewrite D1; exact Hdir |].
  pose proof (ensure_models_dir_keeps_files _ _ _ _ H2) as F2.
  pose proof (ensure_models_dir_silent _ _ _ _ H2) as P2.
  assert (Hrun : process_target a t st = (Raise ValueError, s2)).
  { unfold process_target.
    rewrite (bindM_ok _ _ _ _ _ H1), (bindM_ok _ _ _ _ _ H2).
    unfold bindM at 1. rewrite read_json_eq, F2, F1, Hf. reflexivity. }
  rewrite Hrun. simpl. split; [reflexivity |]. split.
  - rewrite P2, P1. reflexivity.
  - rewrite F2, F1. reflexivity.
Qed.

Lemma truncated_results_file_blocks_the_pass_witness :
  fst (process_target (C := Toy.clock) (H := Toy.host) Toy.args 0
         (@Build_pstate Toy.torch (fun _ => Some Truncated) (fun _ => true)
            [] None tt))
  = Raise ValueError /\
  printed (snd (process_target (C := Toy.clock) (H := Toy.host) Toy.args 0
                  (@Build_pstate Toy.torch (fun _ => Some Truncated)
                     (fun _ => true) [] None tt)))
  = [] ++ [PTarget 0] /\
  results_file (snd (process_target (C := Toy.clock) (H := Toy.host) Toy.args 0
                       (@Build_pstate Toy.torch (fun _ => Some Truncated)
                          (fun _ => true) [] None tt)))
  = fun _ => Some Truncated.
Proof.
  apply (truncated_results_file_blocks_the_pass (C := Toy.clock)
           (H := Toy.host) Toy.args 0
           (@Build_pstate Toy.torch (fun _ => Some Truncated) (fun _ => true)
              [] None tt)).
  - reflexivity.
  - left. reflexivity.
Defined.

(** ** The target range *)

Lemma py_range_positive_step (start stop step x : Z) (l : list Z) :
  0 < step ->
  py_range start stop step = Ok l ->
  (In x l <-> start <= x < stop /\ (x - start) mod step = 0).
Proof.
  intros Hs. unfold py_range.
  destruct (Z.eqb_spec step 0) as [E | _]; [lia |].
  destruct (Z.ltb_spec 0 step) as [_ | E]; [| lia].
  intros Hl. injection Hl as <-.
  rewrite in_map_iff. split.
  - intros (i & <- & Hi). apply in_seq in Hi.
    destruct (Z.ltb_spec start stop) as [Hlt | Hge]; [| simpl in Hi; lia].
    assert (Hlen : Z.of_nat i < (stop - start + step - 1) / step) by lia.
    assert (Hmul : step * ((stop - start + step - 1) / step)
                   <= stop - start + step - 1)
      by (apply Z.mul_div_le; lia).
    split.
    + nia.
    + replace (start + Z.of_nat i * step - start) with (Z.of_nat i * step) by lia.
      apply Z_mod_mult.
  - intros [[Hlo Hhi] Hmod].
    destruct (Z.ltb_spec start stop) as [Hlt | Hge]; [| lia].
    assert (Hx : x - start = step * ((x - start) / step))
      by (apply Z_div_exact_full_2; lia).
    set (q := (x - start) / step) in *.
    assert (Hq0 : 0 <= q) by (apply Z.div_pos; lia).
    assert (Hq : q + 1 <= (stop - start + step - 1) / step).
    { apply Z.div_le_lower_bound; [lia | nia]. }
    exists (Z.to_nat q). split.
    + rewrite Z2Nat.id by lia. lia.
    + apply in_seq. lia.
Qed.

(** X12.  With an explicit end of range and a positive step, the sweep
    visits exactly the target indices [start + i * step] that lie below
    the end. *)
Theorem target_indices_of_explicit_range (a : Args) (x : Z) :
  target_index_end a <> -1 ->
  0 < target_index_step a ->
  exists l,
    target_indices a = Ok l /\
    (In x l <->
     target_index_start a <= x < target_index_end a /\
     (x - target_index_start a) mod target_index_step a = 0).
Proof.
  intros He Hs. unfold target_indices, resolve_end.
  destruct (Z.eqb_spec (target_index_end a) (-1)) as [E | _]; [contradiction |].
  destruct (py_range (target_index_start a) (target_index_end a)
                     (target_index_step a)) as [l | e] eqn:Hr.
  - exists l. split; [reflexivity |].
    exact (py_range_positive_step _ _ _ x l Hs Hr).
  - unfold py_range in Hr.
    destruct (Z.eqb_spec (target_index_step a) 0); [lia | discriminate Hr].
Qed.

Lemma target_indices_of_explicit_range_witness :
  exists l,
    target_indices
      {| target_net := []; target_label := 6;
         target_index_start := 3; target_index_end := 20;
         target_index_step := 5; poison_label := 8;
         retrain_lr := 1 # 10000; retrain_opt := EmptyString;
         retrain_momentum := 9 # 10; lr_decay_epoch := [];
         retrain_epochs := 60; retrain_bsize := 64;
         retrain_wd := 5 # 10000; eval_poisons_root := EmptyString |}
    = Ok l /\
    (In 13 l <-> 3 <= 13 < 20 /\ (13 - 3) mod 5 = 0).
Proof.
  apply (target_indices_of_explicit_range
           {| target_net := []; target_label := 6;
              target_index_start := 3; target_index_end := 20;
              target_index_step := 5; poison_label := 8;
              retrain_lr := 1 # 10000; retrain_opt := EmptyString;
              retrain_momentum := 9 # 10; lr_decay_epoch := [];
              retrain_epochs := 60; retrain_bsize := 64;
              retrain_wd := 5 # 10000; eval_poisons_root := EmptyString |}
           13).
  - simpl. discriminate.
  - simpl. lia.
Defined.

(** ** Log extractor: a marker that is not in the log *)

Lemma find_marker_none (marker : string) (lines : list string) :
  Forall (fun l => str_in marker l = false) lines ->
  find_marker marker lines = None.
Proof.
  induction 1 as [| l r Hl _ IH]; simpl; [reflexivity |].
  rewrite Hl. exact IH.
Qed.

(** X13.  When the header row of the log is in order but no line from
    that row on contains ["Iteration <ite> "], [get_stats] ends with an
    [AssertionError], whatever the checkpoint holds. *)
Theorem missing_marker_is_an_assertion_error {C : Clock}
    (log : list string) (res : dict) (ite : Z) (header : string) (t0 : Time) :
  nth_error log first_row = Some header ->
  str_in "Iteration 0" header = true ->
  strptime (date_of header) = Ok t0 ->
  Forall (fun l => str_in ("Iteration " ++ str_of_int ite ++ " ") l = false)
         (skipn first_row log) ->
  get_stats (Some log) res ite = Raise AssertionError.
Proof.
  intros Hh Hi Ht Hm. unfold get_stats, parse_log.
  rewrite Hh, Hi. simpl negb. cbv iota. rewrite Ht. cbn [bind].
  rewrite (find_marker_none _ _ Hm). reflexivity.
Qed.

Lemma missing_marker_is_an_assertion_error_witness :
  get_stats (C := Toy.clock) (Some Toy.log) [] 77 = Raise AssertionError.
Proof.
  apply (missing_marker_is_an_assertion_error (C := Toy.clock) Toy.log [] 77
           (Toy.log_line 0) 0).
  - reflexivity.
  - reflexivity.
  - reflexivity.
  - vm_compute. repeat constructor.
Defined.

(** ** The sweep as a whole *)

Section MainFacts.
Context {T : Torch} {C : Clock} {H : Host}.

Lemma forM_outside (a : Args) (t' : Z) (ts : list Z) :
  ~ In t' ts ->
  keeps (fun s s' => results_file s' t' = results_file s t')
        (forM ts (process_target a)).
Proof.
  induction ts as [| t rest IH]; intros Hnot; cbn [forM].
  - intros st r st' E. injection E as _ <-. reflexivity.
  - apply keeps_bind.
    + intros s1 s2 s3 E1 E2. congruence.
    + intros st r st' E.
      apply (process_target_same_files_except a t st r st' E).
      intros ->. apply Hnot. left. reflexivity.
    + intros _. apply IH. intros Hin. apply Hnot. right. exact Hin.
Qed.

End MainFacts.

(** X14.  A run of the program changes the results files of the target
    indices of its range only: the file of any index the range does not
    contain is as before, however the run ends. *)
Theorem run_touches_only_files_in_range
    {T : Torch} {C : Clock} {H : Host}
    (a : Args) (st : pstate) (ts : list Z) (t' : Z) :
  target_indices a = Ok ts ->
  ~ In t' ts ->
  results_file (snd (main a st)) t' = results_file st t'.
Proof.
  intros Hts Hnot. unfold main. rewrite Hts.
  destruct (bindM (print (PArgs (args_str a)))
              (fun _ => bindM (lift (Ok ts))
                 (fun ts' => forM ts' (process_target (resolve_end a)))) st)
    as [r st'] eqn:E.
  simpl snd.
  apply bindM_inv in E.
  destruct E as [(u & s1 & H1 & E) | (e & H1 & _)];
    apply print_inv in H1; destruct H1 as [_ (F1 & _ & _)];
    [| rewrite F1; reflexivity].
  unfold bindM at 1 in E. unfold lift at 1 in E.
  rewrite (forM_outside (resolve_end a) t' ts Hnot s1 r st' E), F1.
  reflexivity.
Qed.

Lemma run_touches_only_files_in_range_witness :
  results_file (snd (main (C := Toy.clock) (H := Toy.host) Toy.args Toy.start)) 5
  = results_file Toy.start 5.
Proof.
  apply (run_touches_only_files_in_range (C := Toy.clock) (H := Toy.host)
           Toy.args Toy.start [0] 5).
  - reflexivity.
  - simpl. lia.
Defined.

(** ** Writing a record and reading it back *)

Lemma dump_members_inv (d : dict) :
  forall ms,
    (fix dump_members (d : list (key * value))
       : result (list (string * json)) :=
       match d with
       | [] => Ok []
       | (k, x) :: r =>
           j <- json_dump x ;; ms <- dump_members r ;;
           Ok ((json_key k, j) :: ms)
       end) d = Ok ms ->
    Forall2 member_of d ms.
Proof.
  induction d as [| [k v] r IH]; intros ms Hd.
  - injection Hd as <-. constructor.
  - apply bind_Ok_inv in Hd. destruct Hd as (j & Hj & Hd).
    apply bind_Ok_inv in Hd. destruct Hd as (ms' & Hms & Hd).
    injection Hd as <-. constructor; [split; [reflexivity | exact Hj] |].
    apply IH. exact Hms.
Qed.

Lemma json_dump_dict_inv (d : dict) (j : json) :
  json_dump (VDict d) = Ok j ->
  exists ms, j = JObj ms /\ Forall2 member_of d ms.
Proof.
  cbn [json_dump]. intros Hd.
  apply bind_Ok_inv in Hd. destruct Hd as (ms & Hms & Hd).
  injection Hd as <-. exists ms. split; [reflexivity |].
  apply dump_members_inv. exact Hms.
Qed.

Lemma json_dump_dict_intro (d : dict) (ms : list (string * json)) :
  Forall2 member_of d ms -> json_dump (VDict d) = Ok (JObj ms).
Proof.
  intros HF. cbn [json_dump].
  assert (E : (fix dump_members (d : list (key * value))
                 : result (list (string * json)) :=
                 match d with
                 | [] => Ok []
                 | (k, x) :: r =>
                     j <- json_dump x ;; ms <- dump_members r ;;
                     Ok ((json_key k, j) :: ms)
                 end) d = Ok ms).
  { induction HF as [| [k v] [s x] r mr [Hk Hv] _ IH].
    - reflexivity.
    - simpl in Hk, Hv. rewrite Hv. cbn [bind]. rewrite IH. cbn [bind].
      rewrite Hk. reflexivity. }
  rewrite E. reflexivity.
Qed.

Lemma load_members_get_last (f : json -> value) (ms : list (string * json)) :
  forall (acc : dict) (s : string),
    dict_get (load_members f ms acc) (KStr s)
    = match last_member ms s with
      | Some x => Some (f x)
      | None => dict_get acc (KStr s)
      end.
Proof.
  induction ms as [| [s' x] r IH]; intros acc s; simpl.
  - reflexivity.
  - rewrite IH. destruct (last_member r s) as [y |]; [reflexivity |].
    rewrite dict_get_set. simpl. destruct (String.eqb s s'); reflexivity.
Qed.

Lemma last_member_app_single (ms : list (string * json)) (s : string) (x : json) :
  last_member (ms ++ [(s, x)]) s = Some x.
Proof.
  induction ms as [| [s' y] r IH]; simpl.
  - rewrite String.eqb_refl. reflexivity.
  - rewrite IH. reflexivity.
Qed.

Lemma dict_set_absent (d : dict) (k : key) (v : value) :
  dict_get d k = None -> dict_set d k v = d ++ [(k, v)].
Proof.
  induction d as [| [k0 v0] r IH]; simpl; intros Hg.
  - reflexivity.
  - destruct (key_eqb k k0); [discriminate Hg |].
    rewrite (IH Hg). reflexivity.
Qed.

Lemma last_member_absent (d : dict) (ms : list (string * json)) (s : string) :
  Forall2 member_of d ms -> str_keys d -> ~ In (KStr s) (map fst d) ->
  last_member ms s = None.
Proof.
  induction 1 as [| [k v] [s' x] r mr [Hk _] _ IH]; intros Hs Hnot.
  - reflexivity.
  - inversion Hs as [| ? ? [s0 Hs0] Hsr]; subst. simpl in Hk, Hs0. subst k.
    simpl in Hk. subst s'. simpl.
    rewrite IH; [| exact Hsr | intros Hin; apply Hnot; right; exact Hin].
    destruct (String.eqb_spec s s0) as [-> | _]; [| reflexivity].
    exfalso. apply Hnot. left. reflexivity.
Qed.

(** In a dictionary with distinct string keys, the member read back for a
    name is the one written for that key. *)
Lemma last_member_of_entry (d : dict) (ms : list (string * json))
    (s : string) (v : value) :
  Forall2 member_of d ms -> str_keys d -> dict_wf d ->
  dict_get d (KStr s) = Some v ->
  exists x, json_dump v = Ok x /\ last_member ms s = Some x.
Proof.
  induction 1 as [| [k v0] [s' x] r mr [Hk Hv] HF IH]; intros Hs Hwf Hg.
  - discriminate Hg.
  - inversion Hs as [| ? ? [s0 Hs0] Hsr]; subst. simpl in Hk, Hv, Hs0. subst k.
    simpl in Hk. subst s'.
    unfold dict_wf in Hwf. simpl in Hwf.
    inversion Hwf as [| ? ? Hnot Hnd]; subst.
    simpl in Hg. simpl last_member.
    destruct (String.eqb_spec s s0) as [-> | Hne].
    + injection Hg as <-.
      rewrite (last_member_absent r mr s0 HF Hsr Hnot).
      exists x. split; [exact Hv | reflexivity].
    + destruct (IH Hsr Hnd Hg) as (y & Hy & Hl).
      exists y. rewrite Hl. split; [exact Hy | reflexivity].
Qed.

Lemma dict_set_keys (d : dict) (k : key) (v : value) :
  forall k', In k' (map fst (dict_set d k v)) -> k' = k \/ In k' (map fst d).
Proof.
  induction d as [| [k0 v0] r IH]; simpl; intros k' Hin.
  - destruct Hin as [<- | []]. left. reflexivity.
  - destruct (key_eqb_spec k k0) as [-> | _]; simpl in Hin.
    + destruct Hin as [<- | Hin]; [left; reflexivity | right; right; exact Hin].
    + destruct Hin as [<- | Hin]; [right; left; reflexivity |].
      destruct (IH _ Hin) as [-> | Hr]; [left; reflexivity | right; right; exact Hr].
Qed.

Lemma dict_set_wf (d : dict) (k : key) (v : value) :
  dict_wf d -> dict_wf (dict_set d k v).
Proof.
  unfold dict_wf. induction d as [| [k0 v0] r IH]; simpl; intros Hwf.
  - constructor; [intros [] | constructor].
  - inversion Hwf as [| ? ? Hnot Hnd]; subst.
    destruct (key_eqb_spec k k0) as [-> | Hne]; simpl.
    + constructor; assumption.
    + constructor; [| apply IH; exact Hnd].
      intros Hin. destruct (dict_set_keys _ _ _ _ Hin) as [E | Hr];
        [congruence | contradiction].
Qed.

Lemma dict_set_str_keys (d : dict) (s : string) (v : value) :
  str_keys d -> str_keys (dict_set d (KStr s) v).
Proof.
  unfold str_keys. induction 1 as [| [k0 v0] r Hk Hr IH]; cbn [dict_set].
  - constructor; [exists s; reflexivity | constructor].
  - destruct (key_eqb (KStr s) k0).
    + constructor; [exists s; reflexivity | assumption].
    + constructor; assumption.
Qed.

Lemma load_members_wf (f : json -> value) (ms : list (string * json)) :
  forall acc, dict_wf acc -> str_keys acc ->
              dict_wf (load_members f ms acc) /\
              str_keys (load_members f ms acc).
Proof.
  induction ms as [| [s x] r IH]; intros acc Hwf Hs; simpl.
  - split; assumption.
  - apply IH; [apply dict_set_wf | apply dict_set_str_keys]; assumption.
Qed.

Lemma json_load_int_list (l : list Z) (j : json) :
  json_dump (VList (map VInt l)) = Ok j ->
  json_load j = VList (map VInt l).
Proof.
  cbn [json_dump]. intros Hd.
  apply bind_Ok_inv in Hd. destruct Hd as (js & Hjs & Hd).
  injection Hd as <-. cbn [json_load]. f_equal.
  revert js Hjs. induction l as [| z r IH]; intros js Hjs; simpl in Hjs.
  - injection Hjs as <-. reflexivity.
  - apply bind_Ok_inv in Hjs. destruct Hjs as (js' & Hjs' & Hjs).
    injection Hjs as <-. simpl. f_equal. apply IH. exact Hjs'.
Qed.

Lemma merged_record_shape (t : Z) (d0 td res : dict) (b : list Z) :
  dict_get d0 (KStr "targets") = Some (VDict td) ->
  dict_get td (KInt t) = None ->
  merged_record t (VDict d0) res (Some b)
  = Ok (VDict (dict_set
                 (dict_set d0 (KStr "targets")
                    (VDict (td ++ [(KInt t, VDict res)])))
                 (KStr "poison_idx_list") (VList (map VInt b)))).
Proof.
  intros Ht Hk. unfold merged_record, subscript_str, store_str.
  rewrite Ht. cbn [bind]. rewrite (dict_set_absent td _ _ Hk). reflexivity.
Qed.

Lemma persist_then_load {T : Torch}
    (t : Z) (d0 td res : dict) (b : list Z) (st : pstate)
    (merged : value) (j : json) :
  dict_wf d0 -> str_keys d0 ->
  dict_get d0 (KStr "targets") = Some (VDict td) ->
  dict_get td (KInt t) = None ->
  base_idx_list st = Some b ->
  merged_record t (VDict d0) res (Some b) = Ok merged ->
  json_dump merged = Ok j ->
  fst (persist t (VDict d0) res st) = Ok tt /\
  results_file (snd (persist t (VDict d0) res st)) t = Some (Text j) /\
  exists jres,
    json_dump (VDict res) = Ok jres /\
    recorded (json_load j) t = Ok (json_load jres) /\
    subscript_str (json_load j) "poison_idx_list" = Ok (VList (map VInt b)).
Proof.
  intros Hwf Hs Ht Hk Hb Hm Hd.
  rewrite persist_eq, Hb, Hm, Hd. simpl fst. simpl snd.
  split; [reflexivity |]. split; [simpl; rewrite Z.eqb_refl; reflexivity |].
  rewrite (merged_record_shape t d0 td res b Ht Hk) in Hm. injection Hm as <-.
  set (td' := td ++ [(KInt t, VDict res)]) in *.
  set (d1 := dict_set d0 (KStr "targets") (VDict td')) in *.
  set (d2 := dict_set d1 (KStr "poison_idx_list") (VList (map VInt b))) in *.
  assert (Hwf2 : dict_wf d2) by (unfold d2, d1; auto using dict_set_wf).
  assert (Hs2 : str_keys d2) by (unfold d2, d1; auto using dict_set_str_keys).
  assert (Hg_targets : dict_get d2 (KStr "targets") = Some (VDict td')).
  { unfold d2, d1. rewrite !dict_get_set. reflexivity. }
  assert (Hg_idx : dict_get d2 (KStr "poison_idx_list")
                   = Some (VList (map VInt b))).
  { unfold d2. rewrite dict_get_set. reflexivity. }
  destruct (json_dump_dict_inv d2 j Hd) as (ms & -> & HF).
  destruct (last_member_of_entry d2 ms _ _ HF Hs2 Hwf2 Hg_targets)
    as (x & Hx & Hlx).
  destruct (last_member_of_entry d2 ms _ _ HF Hs2 Hwf2 Hg_idx)
    as (y & Hy & Hly).
  destruct (json_dump_dict_inv td' x Hx) as (ms' & -> & HF').
  unfold td' in HF'. apply Forall2_app_inv_l in HF'.
  destruct HF' as (m1 & m2 & _ & HF2 & ->).
  inversion HF2 as [| ? [s jres] ? ? [Hname Hres] Hnil]; subst.
  inversion Hnil; subst. simpl in Hname, Hres. subst s.
  exists jres. split; [exact Hres |]. split.
  - unfold recorded, subscript_str. cbn [json_load].
    rewrite load_members_get_last, Hlx. cbn [bind json_load].
    rewrite load_members_get_last.
    change (json_key (KInt t)) with (str_of_int t).
    rewrite last_member_app_single. reflexivity.
  - unfold subscript_str. cbn [json_load].
    rewrite load_members_get_last, Hly.
    rewrite (json_load_int_list b y Hy). reflexivity.
Qed.

(** X15.  What a pass writes is what the next run reads.  When the loaded
    record has distinct string keys, its [targets] entry holds no integer
    key [t], and [json.dump] accepts the merged record, then [persist]
    ends normally with the dumped text in the results file; read back,
    that file holds under [targets][str(t)] the results of this pass alone
    (whatever was recorded under [str(t)] before is replaced) and under
    [poison_idx_list] the current value of [base_idx_list]. *)
Theorem persisted_results_are_read_back {T : Torch}
    (t : Z) (d0 td res : dict) (b : list Z) (st : pstate)
    (merged : value) (j : json) :
  dict_wf d0 -> str_keys d0 ->
  dict_get d0 (KStr "targets") = Some (VDict td) ->
  dict_get td (KInt t) = None ->
  base_idx_list st = Some b ->
  merged_record t (VDict d0) res (Some b) = Ok merged ->
  json_dump merged = Ok j ->
  fst (persist t (VDict d0) res st) = Ok tt /\
  results_file (snd (persist t (VDict d0) res st)) t = Some (Text j) /\
  exists jres,
    json_dump (VDict res) = Ok jres /\
    recorded (json_load j) t = Ok (json_load jres) /\
    subscript_str (json_load j) "poison_idx_list" = Ok (VList (map VInt b)).
Proof. exact (persist_then_load t d0 td res b st merged j). Qed.

Lemma persisted_results_are_read_back_witness :
  exists j,
    results_file
      (snd (persist (T := Toy.torch) 0
              (VDict [(KStr "args", VStr "Namespace()");
                      (KStr "targets",
                       VDict [(KStr "0", VDict [(KStr "4000", VInt 1)])])])
              [(KInt 4000, VInt 2); (KInt 2801, VInt 3)]
              Toy.after_first_run)) 0 = Some (Text j) /\
    recorded (json_load j) 0
    = Ok (VDict [(KStr "4000", VInt 2); (KStr "2801", VInt 3)]) /\
    subscript_str (json_load j) "poison_idx_list"
    = Ok (VList (map VInt [10; 11; 12; 13; 14])).
Proof.
  destruct (persisted_results_are_read_back (T := Toy.torch) 0
              [(KStr "args", VStr "Namespace()");
               (KStr "targets",
                VDict [(KStr "0", VDict [(KStr "4000", VInt 1)])])]
              [(KStr "0", VDict [(KStr "4000", VInt 1)])]
              [(KInt 4000, VInt 2); (KInt 2801, VInt 3)]
              [10; 11; 12; 13; 14] Toy.after_first_run
              (VDict
                 [(KStr "args", VStr "Namespace()");
                  (KStr "targets",
                   VDict [(KStr "0", VDict [(KStr "4000", VInt 1)]);
                          (KInt 0, VDict [(KInt 4000, VInt 2);
                                          (KInt 2801, VInt 3)])]);
                  (KStr "poison_idx_list",
                   VList (map VInt [10; 11; 12; 13; 14]))])
              (JObj
                 [("args", JStr "Namespace()");
                  ("targets",
                   JObj [("0", JObj [("4000", JInt 1)]);
                         ("0", JObj [("4000", JInt 2); ("2801", JInt 3)])]);
                  ("poison_idx_list",
                   JArr [JInt 10; JInt 11; JInt 12; JInt 13; JInt 14])]%string))
    as (_ & Hfile & jres & Hres & Hrec & Hidx).
  - unfold dict_wf. simpl. repeat constructor; simpl; intuition discriminate.
  - repeat constructor; eexists; reflexivity.
  - reflexivity.
  - reflexivity.
  - reflexivity.
  - reflexivity.
  - reflexivity.
  - eexists. split; [exact Hfile |]. split; [| exact Hidx].
    rewrite Hrec. vm_compute in Hres. injection Hres as <-. reflexivity.
Defined.


(** ** A pass that finds every checkpoint *)

Section CompleteFacts.
Context {T : Torch} {C : Clock} {H : Host}.

Lemma same_base_trans (s1 s2 s3 : pstate) :
  same_base s1 s2 -> same_base s2 s3 -> same_base s1 s3.
Proof. unfold same_base. congruence. Qed.

Lemma print_same_base (l : line) : keeps same_base (print l).
Proof. intros st r st' E. injection E as _ <-. reflexivity. Qed.

Lemma lift_same_base {A : Type} (x : result A) : keeps same_base (lift x).
Proof. intros st r st' E. injection E as _ <-. reflexivity. Qed.

Lemma with_rng_same_base {A : Type} (f : Rng -> result (A * Rng)) :
  keeps same_base (with_rng f).
Proof.
  intros st r st' E. unfold with_rng in E.
  destruct (f (grng st)) as [[x g] | e]; injection E as _ <-; reflexivity.
Qed.

Lemma victims_loop_same_base (a : Args) (t ite : Z) (target : image)
    (chk : checkpoint) (dset : list (image * Z)) (names : list string) :
  forall victims,
    keeps same_base (victims_loop a t ite target chk dset names victims).
Proof.
  induction names as [| name rest IH]; intros victims; cbn [victims_loop].
  - intros st r st' E. injection E as _ <-. reflexivity.
  - apply keeps_bind; [apply same_base_trans | apply print_same_base | intros _].
    apply keeps_bind; [apply same_base_trans | apply with_rng_same_base | intros n].
    apply keeps_bind; [apply same_base_trans | apply with_rng_same_base | intros v].
    apply IH.
Qed.

(** After the work for an iteration, [base_idx_list] is the index list of
    its checkpoint. *)
Lemma compute_ite_base (a : Args) (t ite : Z) (target : image)
    (chk : checkpoint) (st st' : pstate) (r : result value) :
  compute_ite a t ite target chk st = (r, st') ->
  base_idx_list st' = Some (idx chk).
Proof.
  unfold compute_ite. intros E. apply bindM_inv in E.
  destruct E as [(u & s1 & H1 & E) | (e & H1 & _)];
    [| injection H1 as _ <-; reflexivity].
  assert (B1 : base_idx_list s1 = Some (idx chk))
    by (injection H1 as _ <-; reflexivity).
  rewrite <- B1. revert E.
  apply (keeps_bind same_base); [apply same_base_trans | apply print_same_base |].
  intros _.
  apply keeps_bind; [apply same_base_trans | apply print_same_base | intros _].
  apply keeps_bind; [apply same_base_trans | apply lift_same_base | intros blob].
  apply keeps_bind; [apply same_base_trans | apply lift_same_base | intros blob'].
  apply keeps_bind; [apply same_base_trans | apply victims_loop_same_base |].
  intros victims. apply lift_same_base.
Qed.

Lemma ite_loop_complete (a : Args) (t : Z) (target : image) (all_res : value) :
  nothing_recorded all_res t ->
  forall todo, all_computed a t target todo ->
  forall (res : dict) (st : pstate),
  exists res' st' news,
    ite_loop a t target all_res todo res st = (Ok (res', true), st') /\
    res' = fold_left (fun d e => dict_set d (fst e) (snd e)) news res /\
    Forall2 (fun ite e => fst e = KInt ite /\ dumpable (snd e)) todo news /\
    (todo <> [] ->
     exists chk, checkpoint_file t (last todo 0 - 1) = Some chk /\
                 base_idx_list st' = Some (idx chk)).
Proof.
  intros Hrec todo. induction todo as [| ite rest IH]; intros Hall res st.
  - exists res, st, []. split; [reflexivity |]. split; [reflexivity |].
    split; [constructor | intros C0; contradiction].
  - rewrite (ite_loop_cons_pending _ _ _ _ _ _ _ _ Hrec).
    destruct (Hall ite (or_introl eq_refl)) as (chk & Hchk & Hcomp).
    rewrite Hchk.
    unfold bindM at 1. unfold print at 1.
    unfold bindM at 1. unfold print at 1.
    unfold bindM at 1.
    match goal with
    | |- context [compute_ite a t ite target chk ?s] =>
        destruct (Hcomp s) as (blob & s' & Hs & Hblob)
    end.
    rewrite Hs.
    destruct (IH (fun i Hi => Hall i (or_intror Hi))
                 (dict_set res (KInt ite) blob) s')
      as (res' & st' & news & Hrun & Hres & HF & Hlast).
    exists res', st', ((KInt ite, blob) :: news).
    split; [exact Hrun |]. split; [exact Hres |].
    split; [constructor; [split; [reflexivity | exact Hblob] | exact HF] |].
    intros _. destruct rest as [| ite' rest'].
    + exists chk. split; [exact Hchk |].
      simpl in Hrun. injection Hrun as _ <-.
      exact (compute_ite_base _ _ _ _ _ _ _ _ Hs).
    + destruct Hlast as (chk' & Hc' & Hb'); [discriminate |].
      exists chk'. split; [exact Hc' | exact Hb'].
Qed.

End CompleteFacts.

Section JsonInduction.
Variable P : json -> Prop.
Hypothesis Hnull : P JNull.
Hypothesis Hbool : forall b, P (JBool b).
Hypothesis Hint : forall z, P (JInt z).
Hypothesis Hfloat : forall q, P (JFloat q).
Hypothesis Hstr : forall s, P (JStr s).
Hypothesis Harr : forall l, Forall P l -> P (JArr l).
Hypothesis Hobj : forall ms, Forall (fun m => P (snd m)) ms -> P (JObj ms).

Lemma json_nested_ind : forall j, P j.
Proof.
  fix IH 1. intros [| b | z | q | s | l | ms].
  - exact Hnull.
  - apply Hbool.
  - apply Hint.
  - apply Hfloat.
  - apply Hstr.
  - apply Harr. induction l as [| x r IHl]; constructor; [apply IH | exact IHl].
  - apply Hobj. induction ms as [| [s x] r IHl]; constructor;
      [apply IH | exact IHl].
Qed.

End JsonInduction.

Lemma dumpable_list (l : list value) :
  Forall dumpable l -> dumpable (VList l).
Proof.
  intros HF. unfold dumpable. cbn [json_dump].
  assert (E : exists js,
             (fix dump_list (l : list value) : result (list json) :=
                match l with
                | [] => Ok []
                | x :: r => j <- json_dump x ;; js <- dump_list r ;; Ok (j :: js)
                end) l = Ok js).
  { induction HF as [| v r [j Hj] _ [js IH]].
    - exists []. reflexivity.
    - exists (j :: js). rewrite Hj. cbn [bind]. rewrite IH. reflexivity. }
  destruct E as [js E]. rewrite E. eexists. reflexivity.
Qed.

Lemma dumpable_dict (d : dict) :
  Forall (fun entry => dumpable (snd entry)) d -> dumpable (VDict d).
Proof.
  intros HF.
  assert (E : exists ms, Forall2 member_of d ms).
  { induction HF as [| [k v] r [j Hj] _ [ms IH]].
    - exists []. constructor.
    - exists ((json_key k, j) :: ms). constructor; [| exact IH].
      split; [reflexivity | exact Hj]. }
  destruct E as [ms E]. exists (JObj ms). apply json_dump_dict_intro. exact E.
Qed.

Lemma dumpable_dict_inv (d : dict) :
  dumpable (VDict d) -> Forall (fun entry => dumpable (snd entry)) d.
Proof.
  intros [j Hj]. destruct (json_dump_dict_inv d j Hj) as (ms & _ & HF).
  clear Hj. induction HF as [| e m r mr [_ Hv] _ IH]; [constructor |].
  constructor; [| exact IH]. exists (snd m). exact Hv.
Qed.

Lemma dict_set_values (P : value -> Prop) (d : dict) (k : key) (v : value) :
  Forall (fun entry => P (snd entry)) d -> P v ->
  Forall (fun entry => P (snd entry)) (dict_set d k v).
Proof.
  intros HF Hv. induction HF as [| [k0 v0] r H0 Hr IH]; cbn [dict_set].
  - constructor; [exact Hv | constructor].
  - destruct (key_eqb k k0); constructor; assumption.
Qed.

Lemma load_members_values (P : value -> Prop) (f : json -> value)
    (ms : list (string * json)) :
  Forall (fun m => P (f (snd m))) ms ->
  forall acc, Forall (fun entry => P (snd entry)) acc ->
              Forall (fun entry => P (snd entry)) (load_members f ms acc).
Proof.
  induction 1 as [| [s x] r Hx _ IH]; intros acc Hacc; simpl.
  - exact Hacc.
  - apply IH. apply dict_set_values; assumption.
Qed.

(** Whatever [json.load] returns, [json.dump] accepts. *)
Lemma json_load_dumpable : forall j, dumpable (json_load j).
Proof.
  apply json_nested_ind; try (intros; eexists; reflexivity).
  - intros l HF. cbn [json_load]. apply dumpable_list.
    induction HF; constructor; assumption.
  - intros ms HF. cbn [json_load]. apply dumpable_dict.
    apply load_members_values; [exact HF | constructor].
Qed.

Section CompletePass.
Context {T : Torch} {C : Clock} {H : Host}.

(** The record built from the results file: its shape. *)
Lemma init_all_res_shape (a : Args) (t : Z) (c : option file_content) :
  record_is_dict c t ->
  exists loaded d0 td,
    match c with
    | None => Ok (VDict [])
    | Some (Text j) => Ok (json_load j)
    | Some Truncated => Raise ValueError
    end = Ok loaded /\
    init_all_res a t loaded = Ok (VDict d0) /\
    dict_wf d0 /\ str_keys d0 /\
    Forall (fun entry => dumpable (snd entry)) d0 /\
    dict_get d0 (KStr "targets") = Some (VDict td) /\
    (forall z, dict_get td (KInt z) = None) /\
    Forall (fun entry => dumpable (snd entry)) td.
Proof.
  assert (Hfresh : forall s, dumpable (VDict [(KStr s, VDict [])])).
  { intros s. eexists. reflexivity. }
  assert (Hfresh_td : forall s,
            Forall (fun entry => dumpable (snd entry)) [(KStr s, VDict [])]).
  { intros s. constructor; [eexists; reflexivity | constructor]. }
  assert (Hbase : forall all,
            dict_wf all -> str_keys all ->
            Forall (fun entry => dumpable (snd entry)) all ->
            let d3 := dict_set
                        (dict_set (dict_set all (KStr "args")
                                     (VStr (args_str a)))
                           (KStr "poison_label") (VInt (poison_label a)))
                        (KStr "target_label") (VInt (target_label a)) in
            dict_wf d3 /\ str_keys d3 /\
            Forall (fun entry => dumpable (snd entry)) d3 /\
            dict_get d3 (KStr "targets") = dict_get all (KStr "targets")).
  { intros all Hwf Hs Hd d3. unfold d3. repeat split.
    - auto using dict_set_wf.
    - auto using dict_set_str_keys.
    - repeat apply dict_set_values; try exact Hd; eexists; reflexivity.
    - rewrite !dict_get_set. reflexivity. }
  unfold record_is_dict. destruct c as [[j |] |]; intros Hc.
  - destruct Hc as (all & Hload & Hshape).
    destruct (json_load_dict_inv j all Hload) as (ms & _ & Hall).
    destruct (load_members_wf json_load ms [] (NoDup_nil _) (Forall_nil _))
      as [Hwf Hs].
    rewrite <- Hall in Hwf, Hs.
    assert (Hd : Forall (fun entry => dumpable (snd entry)) all).
    { apply dumpable_dict_inv. rewrite <- Hload. apply json_load_dumpable. }
    destruct (Hbase all Hwf Hs Hd) as (Hwf3 & Hs3 & Hd3 & Hk3).
    rewrite Hload. exists (VDict all).
    unfold init_all_res. cbn [store_str bind]. unfold dict_mem. rewrite Hk3.
    destruct Hshape as [Hnone | (targets & d & Htargets & Hrec)].
    + rewrite Hnone. eexists. exists [(KStr (str_of_int t), VDict [])].
      split; [reflexivity |]. split; [reflexivity |].
      split; [apply dict_set_wf; exact Hwf3 |].
      split; [apply dict_set_str_keys; exact Hs3 |].
      split; [apply dict_set_values; [exact Hd3 | apply Hfresh] |].
      split; [rewrite dict_get_set; reflexivity |].
      split; [intros z; reflexivity | apply Hfresh_td].
    + rewrite Htargets. eexists. exists targets.
      split; [reflexivity |]. split; [reflexivity |].
      split; [exact Hwf3 |]. split; [exact Hs3 |]. split; [exact Hd3 |].
      split; [rewrite Hk3; exact Htargets |].
      destruct (json_load_member j all _ _ Hload Htargets) as [x Hx].
      split.
      * intros z. exact (json_load_no_int_key x targets z (eq_sym Hx)).
      * apply dumpable_dict_inv. rewrite Hx. apply json_load_dumpable.
  - contradiction.
  - destruct (Hbase [] (NoDup_nil _) (Forall_nil _) (Forall_nil _))
      as (Hwf3 & Hs3 & Hd3 & Hk3).
    exists (VDict []). eexists. exists [(KStr (str_of_int t), VDict [])].
    split; [reflexivity |]. split; [reflexivity |].
    split; [apply dict_set_wf; exact Hwf3 |].
    split; [apply dict_set_str_keys; exact Hs3 |].
    split; [apply dict_set_values; [exact Hd3 | apply Hfresh] |].
    split; [rewrite dict_get_set; reflexivity |].
    split; [intros z; reflexivity | apply Hfresh_td].
Qed.

End CompletePass.

Section CompletePassRun.
Context {T : Torch} {C : Clock} {H : Host}.

Lemma fold_set_values (P : value -> Prop) (news : list (key * value)) :
  Forall (fun e => P (snd e)) news ->
  forall acc, Forall (fun e => P (snd e)) acc ->
    Forall (fun e => P (snd e))
           (fold_left (fun d e => dict_set d (fst e) (snd e)) news acc).
Proof.
  induction 1 as [| e r He _ IH]; intros acc Hacc; simpl.
  - exact Hacc.
  - apply IH. apply dict_set_values; assumption.
Qed.

Lemma int_list_dumpable (l : list Z) : dumpable (VList (map VInt l)).
Proof.
  apply dumpable_list. induction l; constructor; [eexists; reflexivity | assumption].
Qed.

Lemma complete_pass (a : Args) (t : Z) (st : pstate) :
  all_computed a t (fetch_target (target_label a) t) ites ->
  record_is_dict (results_file st t) t ->
  models_dir st t = true \/ target_dir_exists t = true ->
  exists st' j chk1,
    process_target a t st = (Ok tt, st') /\
    results_file st' t = Some (Text j) /\
    recorded_keys (Some (Text j)) t
    = map (fun ite => KStr (str_of_int ite)) (rev ites) /\
    checkpoint_file t 0 = Some chk1 /\
    subscript_str (json_load j) "poison_idx_list"
    = Ok (VList (map VInt (idx chk1))).
Proof.
  intros Hall Hrec Hdir.
  destruct (print (PTarget t) st) as [r1 s1] eqn:H1.
  pose proof H1 as H1'. apply print_inv in H1'.
  destruct H1' as [-> (F1 & D1 & _)].
  destruct (ensure_models_dir_ok t s1) as [s2 H2]; [rewrite D1; exact Hdir |].
  pose proof (ensure_models_dir_keeps_files _ _ _ _ H2) as F2.
  assert (Hrec2 : record_is_dict (results_file s2 t) t)
    by (rewrite F2, F1; exact Hrec).
  destruct (init_all_res_shape a t _ Hrec2)
    as (loaded & d0 & td & Hl & Hi & Hwf & Hs & Hd0 & Ht & Hk & Hdtd).
  assert (Hn : nothing_recorded (VDict d0) t).
  { destruct (init_all_res_record a t _ Hrec2) as (l' & ar & Hl' & Hi' & Hn).
    assert (l' = loaded) by congruence. subst l'.
    assert (ar = VDict d0) by congruence. subst ar. exact Hn. }
  destruct (ite_loop_complete a t (fetch_target (target_label a) t) (VDict d0)
              Hn (rev ites)
              (fun i Hi => Hall i (proj2 (in_rev ites i) Hi)) [] s2)
    as (res' & s5 & news & Hrun & Hres & HF & Hlast).
  destruct Hlast as (chk1 & Hc1 & Hb1); [discriminate |].
  change (last (rev ites) 0 - 1) with 0 in Hc1.
  pose proof (merged_record_shape t d0 td res' (idx chk1) Ht (Hk t)) as Hm.
  assert (Hres_ok : Forall (fun e => dumpable (snd e)) res').
  { rewrite Hres. apply fold_set_values; [| constructor].
    clear -HF. induction HF as [| i e l n [_ He] _ IH]; constructor; assumption. }
  destruct (dumpable_dict
              (dict_set
                 (dict_set d0 (KStr "targets")
                    (VDict (td ++ [(KInt t, VDict res')])))
                 (KStr "poison_idx_list") (VList (map VInt (idx chk1)))))
    as [j Hj].
  { apply dict_set_values; [| apply int_list_dumpable].
    apply dict_set_values; [exact Hd0 |].
    apply dumpable_dict. apply Forall_app. split; [exact Hdtd |].
    constructor; [| constructor]. apply dumpable_dict. exact Hres_ok. }
  destruct (persist_then_load t d0 td res' (idx chk1) s5 _ j
              Hwf Hs Ht (Hk t) Hb1 Hm Hj)
    as (Hok & Hfile & jres & Hjres & Hrecorded & Hidx).
  assert (Hpt : process_target a t st = persist t (VDict d0) res' s5).
  { unfold process_target.
    rewrite (bindM_ok _ _ _ _ _ H1), (bindM_ok _ _ _ _ _ H2).
    unfold bindM at 1. rewrite read_json_eq, Hl.
    unfold bindM at 1. unfold lift at 1. rewrite Hi.
    unfold bindM at 1. rewrite Hrun. reflexivity. }
  destruct (persist t (VDict d0) res' s5) as [r st'] eqn:Hp.
  simpl in Hok, Hfile. subst r.
  exists st', j, chk1.
  split; [exact Hpt |]. split; [exact Hfile |].
  split; [| split; [exact Hc1 | exact Hidx]].
  unfold recorded_keys. rewrite Hrecorded.
  change (rev ites) with [4000; 2801; 1601; 801; 401; 201; 101; 51; 1] in HF.
  repeat match goal with
         | F : Forall2 _ (_ :: _) _ |- _ => inversion F; clear F; subst
         | F : Forall2 _ [] _ |- _ => inversion F; clear F; subst
         end.
  repeat match goal with
         | E : fst ?y = KInt _ /\ dumpable (snd ?y) |- _ =>
             destruct y; simpl in E; destruct E as [-> _]
         end.
  match type of Hjres with
  | json_dump (VDict ?x) = _ =>
      let y := eval vm_compute in x in change x with y in Hjres
  end.
  destruct (json_dump_dict_inv _ jres Hjres) as (ms & -> & HM).
  repeat match goal with
         | F : Forall2 _ (_ :: _) _ |- _ => inversion F; clear F; subst
         | F : Forall2 _ [] _ |- _ => inversion F; clear F; subst
         end.
  repeat match goal with
         | E : member_of _ ?m |- _ =>
             destruct m; destruct E as [E _]; simpl in E; subst
         end.
  vm_compute. reflexivity.
Qed.

End CompletePassRun.

(** X16.  A pass that finds all nine checkpoints and computes every
    iteration without error, into values [json.dump] accepts, ends
    normally and writes the results file of its target index; read back,
    the file records exactly the nine iterations, in the order visited,
    under [targets][str(t)], and its [poison_idx_list] is the index list
    of the checkpoint of iteration 1, the last one visited. *)
Theorem complete_pass_records_every_iteration
    {T : Torch} {C : Clock} {H : Host} (a : Args) (t : Z) (st : pstate) :
  all_computed a t (fetch_target (target_label a) t) ites ->
  record_is_dict (results_file st t) t ->
  models_dir st t = true \/ target_dir_exists t = true ->
  exists st' j chk1,
    process_target a t st = (Ok tt, st') /\
    results_file st' t = Some (Text j) /\
    recorded_keys (Some (Text j)) t
    = map (fun ite => KStr (str_of_int ite)) (rev ites) /\
    checkpoint_file t 0 = Some chk1 /\
    subscript_str (json_load j) "poison_idx_list"
    = Ok (VList (map VInt (idx chk1))).
Proof. exact (complete_pass a t st). Qed.

Lemma complete_pass_records_every_iteration_witness :
  exists st' j chk1,
    process_target (C := Toy.clock) (H := Toy.host) Toy.args 0 Toy.start
    = (Ok tt, st') /\
    results_file st' 0 = Some (Text j) /\
    recorded_keys (Some (Text j)) 0
    = map (fun ite => KStr (str_of_int ite)) (rev ites) /\
    @checkpoint_file _ Toy.host 0 0 = Some chk1 /\
    subscript_str (json_load j) "poison_idx_list"
    = Ok (VList (map VInt (idx chk1))).
Proof.
  apply (complete_pass_records_every_iteration (C := Toy.clock)
           (H := Toy.host) Toy.args 0 Toy.start).
  - intros ite Hin. exists Toy.chk. split; [reflexivity |].
    intros s.
    simpl in Hin.
    repeat (destruct Hin as [<- | Hin];
            [eexists; eexists; split;
             [vm_compute; reflexivity | eexists; vm_compute; reflexivity] |]).
    contradiction.
  - exact I.
  - right. reflexivity.
Defined.

(** ** Retraining returns a well-formed blob *)

Lemma insert_desc_perm (x : nat * Q) (l : list (nat * Q)) :
  Permutation (insert_desc x l) (x :: l).
Proof.
  induction l as [| y r IH]; simpl.
  - apply Permutation_refl.
  - destruct (Qle_bool (snd y) (snd x)).
    + apply Permutation_refl.
    + apply Permutation_trans with (y :: x :: r).
      * apply perm_skip. exact IH.
      * apply perm_swap.
Qed.

Lemma sort_desc_perm (l : list (nat * Q)) :
  Permutation (fold_right insert_desc [] l) l.
Proof.
  induction l as [| x r IH]; simpl.
  - apply perm_nil.
  - apply Permutation_trans with (x :: fold_right insert_desc [] r).
    + apply insert_desc_perm.
    + apply perm_skip. exact IH.
Qed.

Lemma map_fst_combine {A B : Type} (l : list A) :
  forall l' : list B,
    List.length l = List.length l' -> map fst (combine l l') = l.
Proof.
  induction l as [| a r IH]; intros [| b r'] Hlen; simpl in *;
    try reflexivity; try discriminate.
  f_equal. apply IH. lia.
Qed.

(** The indices [topk] orders are exactly the class indices of the row. *)
Lemma argsort_desc_perm (row : list Q) :
  Permutation (argsort_desc row) (seq 0 (List.length row)).
Proof.
  unfold argsort_desc.
  apply Permutation_trans
    with (map fst (combine (seq 0 (List.length row)) row)).
  - apply Permutation_map. apply sort_desc_perm.
  - rewrite map_fst_combine; [apply Permutation_refl | apply length_seq].
Qed.

Lemma top1_total (row : list Q) :
  (1 <= List.length row)%nat ->
  exists i, topk_row 1 row = Ok [i] /\ (i < List.length row)%nat.
Proof.
  intros Hlen. rewrite (topk_row_ok 1 row Hlen).
  pose proof (argsort_desc_perm row) as Hp.
  pose proof (Permutation_length Hp) as Hl. rewrite length_seq in Hl.
  destruct (argsort_desc row) as [| i r] eqn:E; [simpl in Hl; lia |].
  exists i. split; [reflexivity |].
  assert (Hin : In i (seq 0 (List.length row))).
  { apply (Permutation_in i Hp). left. reflexivity. }
  apply in_seq in Hin. lia.
Qed.

Section RetrainGeneral.
Context {T : Torch}.
Hypothesis Hrows : scores_some_class.

Lemma batch_accuracy_range (n : Net) (batch : list (image * Z)) :
  batch <> [] ->
  exists p,
    accuracy (map (forward n) (map fst batch)) (map snd batch) [1%nat]
    = Ok [p] /\ (0 <= p <= 100 # 1)%Q.
Proof.
  intros Hne. apply top1_accuracy_range.
  - destruct batch; [contradiction | discriminate].
  - rewrite !length_map. reflexivity.
  - apply Forall_forall. intros row Hin.
    apply in_map_iff in Hin. destruct Hin as (x & <- & _). apply Hrows.
Qed.

Lemma train_batch_total_general (o : optimizer)
    (st : Net * AverageMeter.t * AverageMeter.t) (batch : list (image * Z)) :
  meters_ok st -> batch <> [] ->
  exists st', train_batch o st batch = Ok st' /\ meters_ok st'.
Proof.
  destruct st as [[n lm] am]. intros [Hl Ha] Hne. unfold train_batch.
  destruct (batch_accuracy_range n batch Hne) as (p & Hp & _).
  rewrite Hp. cbn [bind].
  change (list_index [p] 0) with (Ok p). cbn [bind].
  assert (Hsz : 0 < Z.of_nat (List.length (map fst batch))).
  { destruct batch; [contradiction | simpl; lia]. }
  simpl in Hl, Ha.
  rewrite update_ok by lia. cbn [bind].
  rewrite update_ok by lia. cbn [bind].
  eexists. split; [reflexivity |]. unfold meters_ok. simpl. lia.
Qed.

Lemma score_total (n : Net) (target_img : image) (poisons : list (image * Z)) :
  exists pred preds,
    score_target_and_poisons n target_img poisons
    = Ok (pred, softmax (forward n target_img), preds) /\
    0 <= pred < Z.of_nat (List.length (forward n target_img)) /\
    List.length preds = List.length poisons.
Proof.
  assert (Htop : forall x, exists i,
             top1 (forward n x) = Ok (Z.of_nat i) /\
             (i < List.length (forward n x))%nat).
  { intros x. destruct (top1_total _ (Hrows n x)) as (i & Hi & Hlt).
    exists i. unfold top1. rewrite Hi. split; [reflexivity | exact Hlt]. }
  unfold score_target_and_poisons.
  destruct (Htop target_img) as (i & Hi & Hlt). rewrite Hi. cbn [bind].
  assert (E : exists preds,
             mapM (fun p => top1 (forward n (fst p))) poisons = Ok preds /\
             List.length preds = List.length poisons).
  { induction poisons as [| p r (preds & IH & Hlen)].
    - exists []. split; reflexivity.
    - destruct (Htop (fst p)) as (k & Hk & _).
      exists (Z.of_nat k :: preds). cbn [mapM]. rewrite Hk. cbn [bind].
      rewrite IH. split; [reflexivity | simpl; lia]. }
  destruct E as (preds & E & Hlen). rewrite E. cbn [bind].
  exists (Z.of_nat i), preds. split; [reflexivity |]. split; [lia | exact Hlen].
Qed.

Lemma run_epoch_total_general (a : Args) (target_img : image)
    (poisons dset : list (image * Z)) (st : train_state) (e : nat) :
  0 < retrain_bsize a ->
  exists st',
    run_epoch a target_img poisons dset st e = Ok st' /\
    epoch_var st' = Some e /\
    (Z.of_nat e = retrain_epochs a - 1 ->
     exists pred preds,
       scored st' = Some (pred, softmax (forward (net st') target_img), preds) /\
       0 <= pred < Z.of_nat (List.length (forward (net st') target_img)) /\
       List.length preds = List.length poisons).
Proof.
  intros Hb. unfold run_epoch.
  destruct (shuffle (rng st) dset) as [order g].
  destruct (foldM_invariant (train_batch (lr_step a e (opt st)))
              (fun b => b <> []) meters_ok
              (fun s b Hs Hne => train_batch_total_general _ s b Hs Hne)
              (chunks (Z.to_nat (retrain_bsize a)) order)
              (net st, AverageMeter.init, AverageMeter.init))
    as ([[n lm] am] & Hrun & _).
  - apply chunks_nonempty. lia.
  - unfold meters_ok. simpl. lia.
  - rewrite Hrun. cbn [bind].
    destruct (Z.eqb_spec (Z.of_nat e) (retrain_epochs a - 1)) as [E | N].
    + destruct (score_total n target_img poisons) as (pred & preds & Hs & Hr).
      rewrite Hs. cbn [bind]. eexists. split; [reflexivity |].
      split; [reflexivity |]. intros _. exists pred, preds.
      split; [reflexivity | exact Hr].
    + cbn [bind]. eexists. split; [reflexivity |].
      split; [reflexivity |]. intros E. contradiction.
Qed.

Lemma percent_meter_update (m : AverageMeter.t) (p : Q) (n : Z) :
  percent_meter m -> (0 <= p <= 100 # 1)%Q -> 0 < n ->
  exists m', AverageMeter.update m p n = Ok m' /\ percent_meter m' /\
             0 < AverageMeter.count m'.
Proof.
  intros (Hc & Hs0 & Hs1 & _ & _) [Hp0 Hp1] Hn.
  rewrite update_ok by lia. eexists. split; [reflexivity |].
  assert (Hn0 : (0 <= inject_Z n)%Q).
  { replace 0%Q with (inject_Z 0) by reflexivity. rewrite <- Zle_Qle. lia. }
  unfold percent_meter. cbn [AverageMeter.count AverageMeter.sum AverageMeter.avg].
  split; [split; [lia |] | lia].
  split; [| split; [| split; [intros E; lia | intros _; reflexivity]]].
  - apply Qle_trans with (0 + 0)%Q; [discriminate |].
    apply Qplus_le_compat; [exact Hs0 |].
    apply Qmult_le_0_compat; assumption.
  - rewrite inject_Z_plus.
    setoid_replace ((100 # 1) * (inject_Z (AverageMeter.count m) + inject_Z n))%Q
      with ((100 # 1) * inject_Z (AverageMeter.count m)
            + (100 # 1) * inject_Z n)%Q by ring.
    apply Qplus_le_compat; [exact Hs1 |].
    apply Qmult_le_compat_r; assumption.
Qed.

Lemma percent_meter_avg (m : AverageMeter.t) :
  percent_meter m -> (0 <= AverageMeter.avg m <= 100 # 1)%Q.
Proof.
  intros (Hc & Hs0 & Hs1 & Hz & Hpos).
  destruct (Z.eq_dec (AverageMeter.count m) 0) as [E | N].
  - rewrite (Hz E). split; discriminate.
  - assert (Hlt : 0 < AverageMeter.count m) by lia.
    assert (HW : (0 < inject_Z (AverageMeter.count m))%Q).
    { replace 0%Q with (inject_Z 0) by reflexivity. rewrite <- Zlt_Qlt. lia. }
    rewrite (Hpos Hlt). split.
    + apply Qle_shift_div_l; [exact HW |]. ring_simplify. exact Hs0.
    + apply Qle_shift_div_r; [exact HW | exact Hs1].
Qed.

Lemma validate_total_general (n : Net) (e : nat) (tests : list (image * Z)) :
  exists m,
    validate n (Some e) tests = Ok m /\ percent_meter m /\
    (tests = [] -> AverageMeter.avg m = 0%Q).
Proof.
  unfold validate.
  destruct (foldM_invariant
              (validate_batch n (Some e) (List.length (chunks 500 tests)))
              (fun b => b <> [])
              (fun st => percent_meter (snd st)))
    with (l := chunks 500 tests) (s := (O, AverageMeter.init))
    as (r & Hr & Hm).
  - intros [ite m] batch Hm Hne. simpl snd in Hm.
    unfold validate_batch. cbv beta iota zeta.
    generalize ((ite mod 100 =? 0)
                || (ite =? List.length (chunks 500 tests) - 1))%nat.
    intros b.
    destruct (batch_accuracy_range n batch Hne) as (p & Hp & Hrange).
    rewrite Hp. cbn [bind].
    change (list_index [p] 0) with (Ok p). cbn [bind].
    assert (Hsz : 0 < Z.of_nat (List.length (map fst batch))).
    { destruct batch; [contradiction | simpl; lia]. }
    destruct (percent_meter_update m p _ Hm Hrange Hsz) as (m' & Hu & Hm' & _).
    rewrite Hu. cbn [bind].
    destruct b; (eexists; split; [reflexivity | exact Hm']).
  - apply chunks_nonempty. lia.
  - unfold percent_meter. simpl. repeat split; try lia; try discriminate.
  - rewrite Hr. cbn [bind]. exists (snd r). split; [reflexivity |].
    split; [exact Hm |].
    intros ->. simpl in Hr. injection Hr as <-. reflexivity.
Qed.

Lemma retraining_total (n0 : Net) (target_img : image)
    (poisons dset : list (image * Z)) (base_idx : list Z) (a : Args)
    (tests : list (image * Z)) (savemodel : string) (g0 : Rng) :
  1 <= retrain_epochs a ->
  0 < retrain_bsize a ->
  (forall n, exists s,
      list_index (softmax (forward n target_img)) (poison_label a) = Ok s) ->
  exists blob g acc pred preds,
    train_network_with_poison n0 target_img poisons dset base_idx a tests
                              savemodel g0 = Ok (VDict blob, g) /\
    dict_get blob (KStr "clean acc") = Some (VFloat acc) /\
    (0 <= acc <= 100 # 1)%Q /\
    (tests = [] -> acc = 0%Q) /\
    dict_get blob (KStr "prediction") = Some (VInt pred) /\
    0 <= pred /\
    dict_get blob (KStr "poisons predictions") = Some (VList (map VInt preds)) /\
    List.length preds = List.length poisons.
Proof.
  intros He Hb Hidx.
  unfold train_network_with_poison, data_loader.
  destruct (Z.leb_spec (retrain_bsize a) 0) as [C0 | _]; [lia |].
  cbn [bind].
  set (E := Z.to_nat (retrain_epochs a)).
  assert (HE : seq 0 E = seq 0 (E - 1) ++ [(E - 1)%nat]).
  { replace E with (S (E - 1)) at 1 by (unfold E; lia).
    rewrite seq_S. reflexivity. }
  rewrite HE, foldM_app.
  destruct (foldM_invariant (run_epoch a target_img poisons dset)
              (fun _ => True) (fun _ => True))
    with (l := seq 0 (E - 1))
         (s := {| net := n0; opt := make_optimizer a; rng := g0;
                  epoch_var := None; scored := None |})
    as (st1 & H1 & _).
  { intros s e _ _.
    destruct (run_epoch_total_general a target_img poisons dset s e Hb)
      as (s' & Hs & _).
    exists s'. split; [exact Hs | exact I]. }
  { apply Forall_forall. intros; exact I. }
  { exact I. }
  rewrite H1. cbn [bind foldM].
  destruct (run_epoch_total_general a target_img poisons dset st1 (E - 1)%nat Hb)
    as (st2 & H2 & Hep & Hsc).
  rewrite H2. cbn [bind]. rewrite Hep.
  destruct (validate_total_general (net st2) (E - 1)%nat tests)
    as (m & Hm & Hpm & Hempty).
  rewrite Hm. cbn [bind].
  destruct Hsc as (pred & preds & Hsc & [Hp0 _] & Hlen); [unfold E; lia |].
  rewrite Hsc.
  destruct (Hidx (net st2)) as [s Hs]. rewrite Hs. cbn [bind].
  eexists. eexists. exists (AverageMeter.avg m), pred, preds.
  split; [reflexivity |].
  split; [reflexivity |].
  split; [apply percent_meter_avg; exact Hpm |].
  split; [exact Hempty |].
  split; [reflexivity |]. split; [exact Hp0 |].
  split; [reflexivity | exact Hlen].
Qed.

End RetrainGeneral.




(** ** The schedule for any list of decay epochs *)

Lemma decays_until_S (a : Args) (e : nat) :
  decays_until a (S e)
  = (decays_until a e
     + if existsb (int_eq_value (Z.of_nat (S e))) (lr_decay_epoch a)
       then 1 else 0)%nat.
Proof.
  unfold decays_until. rewrite (seq_S (S e) 0), filter_app, length_app.
  cbn [filter Nat.add].
  destruct (existsb (int_eq_value (Z.of_nat (S e))) (lr_decay_epoch a));
    reflexivity.
Qed.

(** The schedule function multiplies by [0.1] once for each epoch found
    in [args.lr_decay_epoch]. *)
Lemma epoch_optimizer_power_of_tenth
    (a : Args) (o : optimizer) (L : Q) (e : nat) :
  Forall (fun g => (lr g == L)%Q) (param_groups o) ->
  Forall (fun g => (lr g == L * (1 # 10) ^ Z.of_nat (decays_until a e))%Q)
         (param_groups (epoch_optimizer a o e)).
Proof.
  intros HL.
  assert (Hstep : forall ep o' k,
            Forall (fun g => (lr g == L * (1 # 10) ^ Z.of_nat k)%Q)
                   (param_groups o') ->
            Forall (fun g => (lr g == L * (1 # 10)
                                ^ Z.of_nat (k + if existsb
                                                     (int_eq_value (Z.of_nat ep))
                                                     (lr_decay_epoch a)
                                                then 1 else 0))%Q)
                   (param_groups (lr_step a ep o'))).
  { intros ep o' k Ho. unfold lr_step.
    destruct (existsb (int_eq_value (Z.of_nat ep)) (lr_decay_epoch a)).
    - apply decay_scales_lr in Ho.
      eapply Forall_impl; [| exact Ho].
      intros g Hg. simpl in Hg. rewrite Hg.
      replace (Z.of_nat (k + 1)) with (Z.of_nat k + 1) by lia.
      rewrite Qpower_plus by discriminate. simpl. ring.
    - rewrite Nat.add_0_r. exact Ho. }
  induction e as [| e IH].
  - unfold epoch_optimizer. cbn [seq fold_left].
    replace (decays_until a 0)
      with (0 + if existsb (int_eq_value (Z.of_nat 0)) (lr_decay_epoch a)
                then 1 else 0)%nat.
    + apply Hstep. eapply Forall_impl; [| exact HL].
      intros g Hg. simpl in Hg. rewrite Hg. simpl. ring.
    + unfold decays_until. cbn [seq filter].
      destruct (existsb (int_eq_value (Z.of_nat 0)) (lr_decay_epoch a));
        reflexivity.
  - rewrite epoch_optimizer_S, decays_until_S. apply Hstep. exact IH.
Qed.



(** ** A step that is not positive *)

Lemma py_range_nonpositive_step (start stop step : Z) :
  step <= 0 -> start <= stop ->
  py_range start stop step = Raise ValueError \/ py_range start stop step = Ok [].
Proof.
  intros Hs Hlt. unfold py_range.
  destruct (Z.eqb_spec step 0) as [E | N]; [left; reflexivity | right].
  destruct (Z.ltb_spec 0 step) as [C0 | _]; [lia |].
  destruct (Z.ltb_spec stop start) as [C0 | _]; [lia |].
  reflexivity.
Qed.

(** X19.  With a step that is zero or negative and a start not above the
    end of the range (in particular with the default end), the run visits
    no target index: it prints the arguments and then stops, with
    [ValueError] for a zero step, and no results file changes. *)
Theorem nonpositive_step_visits_nothing
    {T : Torch} {C : Clock} {H : Host} (a : Args) (st : pstate) :
  target_index_step a <= 0 ->
  target_index_start a <= target_index_end (resolve_end a) ->
  printed (snd (main a st)) = printed st ++ [PArgs (args_str a)] /\
  results_file (snd (main a st)) = results_file st /\
  (target_index_step a = 0 -> fst (main a st) = Raise ValueError).
Proof.
  intros Hs Hr. unfold main, target_indices.
  assert (Hstep : target_index_step (resolve_end a) = target_index_step a).
  { unfold resolve_end. destruct (target_index_end a =? -1); reflexivity. }
  assert (Hstart : target_index_start (resolve_end a) = target_index_start a).
  { unfold resolve_end. destruct (target_index_end a =? -1); reflexivity. }
  rewrite Hstep, Hstart.
  destruct (py_range_nonpositive_step (target_index_start a)
              (target_index_end (resolve_end a)) (target_index_step a) Hs Hr)
    as [E | E]; rewrite E.
  - simpl. repeat split.
  - simpl. repeat split. intros E0. unfold py_range in E.
    rewrite E0 in E. discriminate E.
Qed.

Lemma nonpositive_step_visits_nothing_witness :
  printed (snd (main (C := Toy.clock) (H := Toy.host) (Toy.with_step 0)
                     Toy.start))
  = printed Toy.start ++ [PArgs (@args_str _ Toy.host (Toy.with_step 0))] /\
  results_file (snd (main (C := Toy.clock) (H := Toy.host) (Toy.with_step 0)
                          Toy.start))
  = results_file Toy.start /\
  (target_index_step (Toy.with_step 0) = 0 ->
   fst (main (C := Toy.clock) (H := Toy.host) (Toy.with_step 0) Toy.start)
   = Raise ValueError).
Proof.
  apply (nonpositive_step_visits_nothing (C := Toy.clock) (H := Toy.host)
           (Toy.with_step 0) Toy.start).
  - simpl. lia.
  - simpl. lia.
Defined.
